(** * A shallow embedding of the conversational-agent core

    The development follows the Python sources module by module:
    [emotion_detector.py], [personality_system.py], [context_memory.py],
    [learning_system.py], [common_sense.py] and [terminal_ai_fixed.py].
    The first half of the file holds the definitions, the second half the
    lemmas and theorems about them.

    Conventions.
    - A Python [str] is a list of code points.  The character type is
      [ascii], read as the code points U+0000..U+00FF; [lower], [isspace],
      [isdigit] and the regular-expression classes are the ones Python
      defines on that range.
    - A Python [dict] is an association list in insertion order.
    - A function that may raise returns a [result]; the state it has
      mutated before raising is returned next to the exception.
    - Floating-point quantities that matter (the emotion confidence) are
      carried as exact rationals.
    - The files behind the stores are not modelled: a store is the value
      its document held when it was loaded, and writing it back changes
      nothing the functions read. *)

From Stdlib Require Import String Ascii List Bool Arith NArith ZArith QArith Lia.
From Stdlib Require Import Permutation Sorted DecimalString.
Import ListNotations.

Set Implicit Arguments.
Close Scope Q_scope.

(* ================================================================= *)
(** ** Python built-ins used by the sources *)

Module Py.

Definition str := list ascii.

(** String literals of the sources. *)
Definition lit (s : string) : str := list_ascii_of_string s.

Definition code (c : ascii) : N := N_of_ascii c.

Definition between (lo hi n : N) : bool := ((lo <=? n) && (n <=? hi))%N.

(** [ch.isspace()] *)
Definition isspace_char (c : ascii) : bool :=
  let n := code c in
  between 9 13 n || between 28 32 n || (n =? 133)%N || (n =? 160)%N.

(** [ch.lower()] *)
Definition lower_char (c : ascii) : ascii :=
  let n := code c in
  if between 65 90 n || (between 192 222 n && negb (n =? 215)%N)
  then ascii_of_N (n + 32) else c.

(** [ch.isdigit()]: the decimal digits and the superscripts 1, 2, 3. *)
Definition isdigit_char (c : ascii) : bool :=
  let n := code c in
  between 48 57 n || (n =? 178)%N || (n =? 179)%N || (n =? 185)%N.

(** The class [\d] of the [re] module on [str] patterns. *)
Definition re_digit (c : ascii) : bool := between 48 57 (code c).

(** The class [\w] of the [re] module on [str] patterns. *)
Definition re_word (c : ascii) : bool :=
  let n := code c in
  between 48 57 n || between 65 90 n || between 97 122 n || (n =? 95)%N
  || (n =? 170)%N || (n =? 178)%N || (n =? 179)%N || (n =? 181)%N
  || (n =? 185)%N || (n =? 186)%N || between 188 190 n
  || between 192 214 n || between 216 246 n || between 248 255 n.

Definition eqb_char (a b : ascii) : bool := Ascii.eqb a b.

Fixpoint eqb_str (a b : str) : bool :=
  match a, b with
  | [], [] => true
  | x :: a', y :: b' => eqb_char x y && eqb_str a' b'
  | _, _ => false
  end.

(** [s.lower()] *)
Definition lower (s : str) : str := map lower_char s.

(** [s.startswith(p)] *)
Fixpoint startswith (s p : str) : bool :=
  match p, s with
  | [], _ => true
  | _ :: _, [] => false
  | x :: p', y :: s' => eqb_char x y && startswith s' p'
  end.

(** [s.startswith((p1, p2, ...))] *)
Definition startswith_any (s : str) (ps : list str) : bool :=
  existsb (startswith s) ps.

(** [s.endswith(p)] *)
Definition endswith (s p : str) : bool := startswith (rev s) (rev p).

Definition endswith_any (s : str) (ps : list str) : bool :=
  existsb (endswith s) ps.

(** [sub in s] *)
Fixpoint contains (s sub : str) : bool :=
  startswith s sub ||
  match s with
  | [] => false
  | _ :: s' => contains s' sub
  end.

(** [any(k in s for k in ks)] *)
Definition contains_any (s : str) (ks : list str) : bool :=
  existsb (contains s) ks.

Fixpoint lstrip (s : str) : str :=
  match s with
  | [] => []
  | c :: s' => if isspace_char c then lstrip s' else s
  end.

Definition rstrip (s : str) : str := rev (lstrip (rev s)).

(** [s.strip()] *)
Definition strip (s : str) : str := rstrip (lstrip s).

(** [s.split()]: the maximal runs of non-space characters.  [cur] is the
    run being read, most recent character first. *)
Fixpoint split_ws_from (cur : str) (s : str) : list str :=
  match s with
  | [] => match cur with [] => [] | _ => [rev cur] end
  | c :: s' =>
      if isspace_char c
      then match cur with
           | [] => split_ws_from [] s'
           | _ => rev cur :: split_ws_from [] s'
           end
      else split_ws_from (c :: cur) s'
  end.

Definition split_ws (s : str) : list str := split_ws_from [] s.

(** [s.split(sep)] for a non-empty [sep]: occurrences are found left to
    right and do not overlap.  [skip] counts the characters of a separator
    still to be passed over. *)
Fixpoint split_on_from (sep : str) (skip : nat) (cur : str) (s : str)
  : list str :=
  match s with
  | [] => [rev cur]
  | c :: s' =>
      match skip with
      | S k => split_on_from sep k cur s'
      | O =>
          if startswith s sep
          then rev cur :: split_on_from sep (length sep - 1) [] s'
          else split_on_from sep 0 (c :: cur) s'
      end
  end.

Definition split_on (s sep : str) : list str := split_on_from sep 0 [] s.

(** [s.replace(old, new)] for a non-empty [old]. *)
Fixpoint replace_from (old new : str) (skip : nat) (s : str) : str :=
  match s with
  | [] => []
  | c :: s' =>
      match skip with
      | S k => replace_from old new k s'
      | O =>
          if startswith s old
          then new ++ replace_from old new (length old - 1) s'
          else c :: replace_from old new 0 s'
      end
  end.

Definition replace (s old new : str) : str := replace_from old new 0 s.

(** [sep.join(parts)] *)
Fixpoint join (sep : str) (parts : list str) : str :=
  match parts with
  | [] => []
  | [p] => p
  | p :: ps => p ++ sep ++ join sep ps
  end.

(** [s[:n]] and [l[:n]] *)
Definition take {A} (n : nat) (l : list A) : list A := firstn n l.

(** [l[-n:]] for a positive [n] *)
Definition last_n {A} (n : nat) (l : list A) : list A :=
  skipn (length l - n) l.

(** [s.isdigit()] *)
Definition isdigit (s : str) : bool :=
  match s with [] => false | _ => forallb isdigit_char s end.

(** [int(s)] on a string that passed [isdigit]: the superscript digits
    are refused with a [ValueError]. *)
Fixpoint int_from (acc : Z) (s : str) : option Z :=
  match s with
  | [] => Some acc
  | c :: s' =>
      if re_digit c
      then int_from (10 * acc + (Z.of_N (code c) - 48))%Z s'
      else None
  end.

Definition int (s : str) : option Z :=
  match s with [] => None | _ => int_from 0%Z s end.

(** Exceptions raised by the modelled code. *)
Inductive exn : Type :=
| ZeroDivisionError
| IndexError
| KeyError
| ValueError
| AttributeError
| RuntimeError
| OSError.

Inductive result (A : Type) : Type :=
| Ok (a : A)
| Raise (e : exn).
Arguments Ok {A} a.
Arguments Raise {A} e.

Definition bind {A B} (r : result A) (k : A -> result B) : result B :=
  match r with
  | Ok a => k a
  | Raise e => Raise e
  end.

(** [l[0]] *)
Definition first_item {A} (l : list A) : result A :=
  match l with
  | [] => Raise IndexError
  | x :: _ => Ok x
  end.

(** [l[-1]] *)
Definition last_item {A} (l : list A) : result A :=
  match rev l with
  | [] => Raise IndexError
  | x :: _ => Ok x
  end.

(** [max(items, key=key)]: the first item whose key is maximal;
    [ValueError] on an empty sequence. *)
Fixpoint max_from {A} (key : A -> Z) (best : A) (l : list A) : A :=
  match l with
  | [] => best
  | x :: l' =>
      if (key best <? key x)%Z then max_from key x l' else max_from key best l'
  end.

Definition max_by {A} (key : A -> Z) (l : list A) : result A :=
  match l with
  | [] => Raise ValueError
  | x :: l' => Ok (max_from key x l')
  end.

(** [d.get(k)] / [k in d] / [d[k] = v] on an insertion-ordered dict. *)
Fixpoint dict_get {V} (d : list (str * V)) (k : str) : option V :=
  match d with
  | [] => None
  | (k', v) :: d' => if eqb_str k' k then Some v else dict_get d' k
  end.

Definition dict_mem {V} (d : list (str * V)) (k : str) : bool :=
  match dict_get d k with Some _ => true | None => false end.

Fixpoint dict_set {V} (d : list (str * V)) (k : str) (v : V)
  : list (str * V) :=
  match d with
  | [] => [(k, v)]
  | (k', v') :: d' =>
      if eqb_str k' k then (k', v) :: d' else (k', v') :: dict_set d' k v
  end.

(** [d[k]] *)
Definition dict_item {V} (d : list (str * V)) (k : str) : result V :=
  match dict_get d k with
  | Some v => Ok v
  | None => Raise KeyError
  end.

(** [sorted(l, key=key, reverse=True)]: the sort is stable, so items with
    equal keys keep their relative order. *)
Fixpoint insert_desc {A} (key : A -> Z) (x : A) (l : list A) : list A :=
  match l with
  | [] => [x]
  | y :: l' =>
      if (key y <=? key x)%Z then x :: y :: l' else y :: insert_desc key x l'
  end.

Fixpoint sorted_desc {A} (key : A -> Z) (l : list A) : list A :=
  match l with
  | [] => []
  | x :: l' => insert_desc key x (sorted_desc key l')
  end.

(** The newline character. *)
Definition nl : str := [ascii_of_nat 10].

End Py.

Import Py.

Declare Scope py_scope.
Notation "x <- r ;; k" := (bind r (fun x => k))
  (at level 61, r at next level, right associativity) : py_scope.
Open Scope py_scope.

(* ================================================================= *)
(** ** The random source and the wall clock *)

Module Random.

(** The generator is an unbounded supply of raw 53-bit draws with a
    cursor; nothing is assumed about the supply. *)
Record rng : Type := { draws : nat -> N; cursor : nat }.

Definition next (g : rng) : N * rng :=
  ((draws g (cursor g) mod 2 ^ 53)%N,
   {| draws := draws g; cursor := S (cursor g) |}).

(** [random.random() < num / den] *)
Definition random_lt (num den : N) (g : rng) : bool * rng :=
  let (x, g') := next g in ((x * den <? num * 2 ^ 53)%N, g').

(** [random.choice(seq)] *)
Definition choice {A} (seq : list A) (g : rng) : result A * rng :=
  let (x, g') := next g in
  match seq with
  | [] => (Raise IndexError, g')
  | _ =>
      match nth_error seq (N.to_nat (x mod N.of_nat (length seq))) with
      | Some a => (Ok a, g')
      | None => (Raise IndexError, g')
      end
  end.

End Random.

Module Clock.

(** One reading of [datetime.now()] with the renderings the sources use. *)
Record reading : Type := {
  micros : Z;          (* microseconds since the epoch *)
  isoformat : str;     (* .isoformat() *)
  session : str;       (* .strftime("%Y%m%d_%H") *)
  hour : nat;          (* .hour *)
  month : nat          (* .month *)
}.

End Clock.

(* ================================================================= *)
(** ** emotion_detector.py *)

Module EmotionDetector.

Definition emotion_keywords : list (str * list str) :=
  [ (lit "happy", map lit ["happy"; "joy"; "excited"; "great"; "awesome";
       "wonderful"; "amazing"; "fantastic"; "good"; "smile"; "laugh"]);
    (lit "sad", map lit ["sad"; "depressed"; "down"; "upset"; "cry";
       "terrible"; "awful"; "bad"; "disappointed"; "hurt"]);
    (lit "angry", map lit ["angry"; "mad"; "furious"; "annoyed";
       "frustrated"; "hate"; "stupid"; "idiot"; "damn"]);
    (lit "anxious", map lit ["worried"; "nervous"; "scared"; "afraid";
       "anxious"; "stress"; "panic"; "fear"]);
    (lit "confused", map lit ["confused"; "lost"; "dont understand";
       "don't get"; "unclear"; "what"; "how"; "why"]);
    (lit "tired", map lit ["tired"; "exhausted"; "sleepy"; "fatigue";
       "worn out"; "drained"]);
    (lit "excited", map lit ["excited"; "thrilled"; "pumped"; "eager";
       "cant wait"; "can't wait"]) ]%string.

(** [sum(1 for keyword in keywords if keyword in text_lower)] *)
Definition score (text_lower : str) (keywords : list str) : Z :=
  Z.of_nat (length (filter (contains text_lower) keywords)).

(** The dict [emotion_scores]: the categories that scored, in table order. *)
Fixpoint emotion_scores_of (table : list (str * list str)) (text_lower : str)
  : list (str * Z) :=
  match table with
  | [] => []
  | (emotion, keywords) :: table' =>
      let sc := score text_lower keywords in
      if (0 <? sc)%Z
      then (emotion, sc) :: emotion_scores_of table' text_lower
      else emotion_scores_of table' text_lower
  end.

Definition emotion_scores (text_lower : str) : list (str * Z) :=
  emotion_scores_of emotion_keywords text_lower.

(** [min(confidence, 1.0)] *)
Definition min_one (confidence : Q) : Q :=
  if Qle_bool confidence 1 then confidence else 1%Q.

(** [score / len(text.split()) * 10] *)
Definition confidence_of (sc : Z) (word_count : nat) : result Q :=
  match word_count with
  | O => Raise ZeroDivisionError
  | _ => Ok (inject_Z sc / inject_Z (Z.of_nat word_count) * 10)%Q
  end.

Definition detect_emotion (text : str) : result (str * Q) :=
  let text_lower := lower text in
  let scores := emotion_scores text_lower in
  match scores with
  | [] => Ok (lit "neutral", (1 # 2)%Q)
  | first :: rest =>
      let primary := max_from snd first rest in
      confidence <- confidence_of (snd primary) (length (split_ws text)) ;;
      Ok (fst primary, min_one confidence)
  end.

Definition responses : list (str * list str) :=
  [ (lit "happy", map lit [
       "That's wonderful to hear! I'm glad you're feeling good.";
       "Your happiness is contagious! What's making you so happy?";
       "I love your positive energy! Keep that smile going."]);
    (lit "sad", map lit [
       "I'm sorry you're feeling down. I'm here to listen if you want to talk.";
       "It sounds like you're going through a tough time. How can I help?";
       "I understand you're feeling sad. Sometimes talking helps."]);
    (lit "angry", map lit [
       "I can sense you're frustrated. Let's work through this together.";
       "It sounds like something really bothered you. Want to tell me about it?";
       "I hear your frustration. Let me try to help you with this."]);
    (lit "anxious", map lit [
       "I can tell you're feeling worried. Let's take this step by step.";
       "It's okay to feel anxious. I'm here to help you through this.";
       "Take a deep breath. We can figure this out together."]);
    (lit "confused", map lit [
       "I can see this is confusing. Let me try to explain it more clearly.";
       "No worries about being confused. Let's break this down together.";
       "I understand this might be unclear. Let me help clarify."]);
    (lit "tired", map lit [
       "You sound exhausted. Make sure you're getting enough rest.";
       "It seems like you need a break. Take care of yourself.";
       "Being tired can make everything harder. How can I help?"]);
    (lit "excited", map lit [
       "I can feel your excitement! That's amazing!";
       "Your enthusiasm is wonderful! Tell me more!";
       "I love your energy! What's got you so excited?"]) ]%string.

Definition get_empathetic_response (emotion : str) (confidence : Q)
  (g : Random.rng) : result str * Random.rng :=
  match dict_get responses emotion with
  | Some phrases => Random.choice phrases g
  | None => (Ok (lit "I'm here to help you with whatever you need."), g)
  end.

End EmotionDetector.

(* ================================================================= *)
(** ** personality_system.py *)

Module PersonalitySystem.

Record personality : Type := {
  greeting : list str;
  response_style : str;
  traits : list str;
  speech_patterns : list str
}.

Definition personalities : list (str * personality) :=
  [ (lit "friendly",
     {| greeting := map lit ["Hello there! How can I help you today?";
                             "Hi! Great to see you!";
                             "Hey! What's on your mind?"];
        response_style := lit "warm and welcoming";
        traits := map lit ["helpful"; "cheerful"; "supportive"];
        speech_patterns := map lit ["I'd love to help!";
                                    "That sounds interesting!";
                                    "Great question!"] |});
    (lit "professional",
     {| greeting := map lit ["Good day. How may I assist you?";
                             "Hello. What can I help you with?";
                             "Greetings. How can I be of service?"];
        response_style := lit "formal and efficient";
        traits := map lit ["precise"; "knowledgeable"; "reliable"];
        speech_patterns := map lit ["I can provide information on";
                                    "According to my analysis";
                                    "The optimal solution would be"] |});
    (lit "funny",
     {| greeting := map lit ["Hey there, human! Ready for some fun?";
                             "Hello! I promise not to make too many bad jokes... maybe.";
                             "Hi! Warning: Dad jokes may occur."];
        response_style := lit "humorous and playful";
        traits := map lit ["witty"; "playful"; "entertaining"];
        speech_patterns := map lit ["That reminds me of a joke...";
                                    "Funny you should ask!";
                                    "Here's a fun fact:"] |});
    (lit "wise",
     {| greeting := map lit ["Greetings, seeker of knowledge.";
                             "Hello. What wisdom do you seek today?";
                             "Welcome. I sense you have questions."];
        response_style := lit "thoughtful and philosophical";
        traits := map lit ["contemplative"; "insightful"; "patient"];
        speech_patterns := map lit ["Consider this perspective:";
                                    "In my experience,";
                                    "Wisdom suggests that"] |});
    (lit "energetic",
     {| greeting := map lit ["HEY THERE! Ready to tackle the day?";
                             "Hello! I'm super excited to help!";
                             "Hi! Let's make something awesome happen!"];
        response_style := lit "enthusiastic and motivating";
        traits := map lit ["energetic"; "motivational"; "optimistic"];
        speech_patterns := map lit ["That's AMAZING!"; "Let's do this!";
                                    "You've got this!"] |}) ]%string.

(** The instance: the table is fixed, the selector is the only field
    that changes. *)
Record t : Type := { current_personality : str }.

Definition init : t := {| current_personality := lit "friendly" |}.

Definition set_personality (self : t) (personality_name : str) : bool * t :=
  if dict_mem personalities (lower personality_name)
  then (true, {| current_personality := lower personality_name |})
  else (false, self).

Definition get_personality_greeting (self : t) (g : Random.rng)
  : result str * Random.rng :=
  match dict_item personalities (current_personality self) with
  | Raise e => (Raise e, g)
  | Ok p => Random.choice (greeting p) g
  end.

Definition jokes : list str :=
  map lit [
    " (No pun intended... okay, maybe a little intended!)";
    " Speaking of which, why don't scientists trust atoms? Because they make up everything!";
    " That's what I call a 'byte' of information! Get it? Byte? I'll see myself out..."
  ]%string.

Definition add_humor (response : str) (g : Random.rng)
  : result str * Random.rng :=
  let (joke, g) := Random.random_lt 2 10 g in
  let (r, g) :=
    if joke
    then let (c, g) := Random.choice jokes g in
         (j <- c ;; Ok (response ++ j), g)
    else (Ok response, g) in
  (response <- r ;;
   let response := replace response (lit "I think") (lit "I reckon") in
   let response := replace response (lit "However") (lit "But hey") in
   Ok response, g).

Definition professional_starters : list str :=
  map lit ["Based on available information, ";
           "According to current data, ";
           "From a professional standpoint, "]%string.

Definition make_professional (response : str) (g : Random.rng)
  : result str * Random.rng :=
  let response := replace response (lit "I think") (lit "I believe") in
  let response := replace response (lit "pretty good") (lit "quite effective") in
  let response := replace response (lit "really") (lit "particularly") in
  let (starter, g) := Random.random_lt 3 10 g in
  if starter
  then let (c, g) := Random.choice professional_starters g in
       (s <- c ;; Ok (s ++ lower response), g)
  else (Ok response, g).

Definition energetic_additions : list str :=
  map lit [" Let's make it happen!";
           " This is going to be great!";
           " I'm excited to help with this!"]%string.

Definition add_energy (response : str) (g : Random.rng)
  : result str * Random.rng :=
  let response :=
    if negb (endswith_any response (map lit ["!"; "?"; "."]%string))
    then response ++ lit "!" else response in
  let response := replace response (lit "good") (lit "AWESOME") in
  let response := replace response (lit "yes") (lit "ABSOLUTELY YES") in
  let response := replace response (lit "I can") (lit "I'd LOVE to") in
  let (more, g) := Random.random_lt 4 10 g in
  if more
  then let (c, g) := Random.choice energetic_additions g in
       (a <- c ;; Ok (response ++ a), g)
  else (Ok response, g).

Definition wise_starters : list str :=
  map lit ["In my contemplation, ";
           "Through careful consideration, ";
           "Reflecting on this matter, "]%string.

Definition wise_endings : list str :=
  map lit [" Such is the nature of knowledge.";
           " This requires thoughtful consideration.";
           " Wisdom comes through understanding."]%string.

Definition add_wisdom (response : str) (g : Random.rng)
  : result str * Random.rng :=
  let (starter, g) := Random.random_lt 3 10 g in
  let (r, g) :=
    if starter
    then let (c, g) := Random.choice wise_starters g in
         (s <- c ;; Ok (s ++ lower response), g)
    else (Ok response, g) in
  match r with
  | Raise e => (Raise e, g)
  | Ok response =>
      let (ending, g) := Random.random_lt 2 10 g in
      if ending
      then let (c, g) := Random.choice wise_endings g in
           (e <- c ;; Ok (response ++ e), g)
      else (Ok response, g)
  end.

Definition apply_personality_to_response (self : t) (response : str)
  (g : Random.rng) : result str * Random.rng :=
  match dict_item personalities (current_personality self) with
  | Raise e => (Raise e, g)
  | Ok p =>
      let (flair, g) := Random.random_lt 3 10 g in
      let (r, g) :=
        if flair
        then let (c, g) := Random.choice (speech_patterns p) g in
             (pattern <- c ;; Ok (pattern ++ lit " " ++ response), g)
        else (Ok response, g) in
      match r with
      | Raise e => (Raise e, g)
      | Ok response =>
          let cur := current_personality self in
          if eqb_str cur (lit "funny") then add_humor response g
          else if eqb_str cur (lit "professional") then make_professional response g
          else if eqb_str cur (lit "energetic") then add_energy response g
          else if eqb_str cur (lit "wise") then add_wisdom response g
          else (Ok response, g)
      end
  end.

Definition get_available_personalities : list str := map fst personalities.

Record personality_info : Type := {
  info_name : str;
  info_style : str;
  info_traits : list str
}.

Definition get_current_personality_info (self : t) : result personality_info :=
  p <- dict_item personalities (current_personality self) ;;
  Ok {| info_name := current_personality self;
        info_style := response_style p;
        info_traits := traits p |}.

End PersonalitySystem.

(* ================================================================= *)
(** ** context_memory.py *)

Module ContextMemory.

Record session_item : Type := {
  s_user_input : str;
  s_ai_response : str;
  s_timestamp : str;
  s_session_id : str
}.

(** An entry of [long_term_memory["conversations"]].  Entries read back
    from the memory file may lack the importance; [x.get("importance", 0)]
    then reads 0. *)
Record conversation : Type := {
  user_input : str;
  ai_response : str;
  timestamp : str;
  importance : option Z
}.

Record user_info_t : Type := {
  name : option str;
  location : option str;
  age : option Z;
  interests : option (list str)
}.

Record long_term : Type := {
  conversations : list conversation;
  user_info : user_info_t;
  topics : list (str * Z)
}.

Record t : Type := {
  session_memory : list session_item;
  long_term_memory : long_term
}.

Definition empty_user_info : user_info_t :=
  {| name := None; location := None; age := None; interests := None |}.

(** The structure [load_memory] falls back to. *)
Definition empty_long_term : long_term :=
  {| conversations := []; user_info := empty_user_info; topics := [] |}.

Definition init (loaded : option long_term) : t :=
  {| session_memory := [];
     long_term_memory :=
       match loaded with Some m => m | None => empty_long_term end |}.

Definition get_current_session_id (now : Clock.reading) : str :=
  Clock.session now.

Definition add_to_session_memory (self : t) (now : Clock.reading)
  (user_input ai_response : str) : t :=
  let memory_item :=
    {| s_user_input := user_input;
       s_ai_response := ai_response;
       s_timestamp := Clock.isoformat now;
       s_session_id := get_current_session_id now |} in
  let session := session_memory self ++ [memory_item] in
  {| session_memory :=
       if 20 <? length session then last_n 20 session else session;
     long_term_memory := long_term_memory self |}.

Definition personal_phrases : list str :=
  map lit ["my name"; "i am"; "i live"; "my age"; "my job"]%string.

Definition emotional_words : list str :=
  map lit ["love"; "hate"; "sad"; "happy"; "angry"; "excited"]%string.

Definition help_words : list str :=
  map lit ["help"; "please"; "can you"; "need"]%string.

Definition calculate_importance (user_input : str) : Z :=
  let text := lower user_input in
  let importance := 0%Z in
  let importance :=
    if contains_any text personal_phrases
    then (importance + 5)%Z else importance in
  let importance :=
    if contains text (lit "?") then (importance + 2)%Z else importance in
  let importance :=
    if contains_any text emotional_words
    then (importance + 3)%Z else importance in
  let importance :=
    if contains_any text help_words
    then (importance + 2)%Z else importance in
  let importance :=
    if 10 <? length (split_ws text) then (importance + 1)%Z else importance in
  importance.

Definition extract_user_info (info : user_info_t) (user_input : str)
  : result user_info_t :=
  let text := lower user_input in
  (* name: the first word after the last "my name is" *)
  info <-
    (if contains text (lit "my name is")
     then
       tail <- last_item (split_on text (lit "my name is")) ;;
       nm <- first_item (split_ws (strip tail)) ;;
       Ok {| name := Some nm; location := location info;
             age := age info; interests := interests info |}
     else Ok info) ;;
  (* location *)
  info <-
    (if contains text (lit "i live in") || contains text (lit "i am from")
     then
       let sep := if contains text (lit "in") then lit "in" else lit "from" in
       tail <- last_item (split_on text sep) ;;
       Ok {| name := name info; location := Some (strip tail);
             age := age info; interests := interests info |}
     else Ok info) ;;
  (* age: the conversion is guarded by try/except *)
  let info :=
    if contains text (lit "i am") && contains text (lit "years old")
    then
      match filter isdigit (split_ws text) with
      | [] => info
      | w :: _ =>
          match int w with
          | Some n => {| name := name info; location := location info;
                         age := Some n; interests := interests info |}
          | None => info
          end
      end
    else info in
  (* interests *)
  if contains text (lit "i like") || contains text (lit "i love")
  then
    let sep := if contains text (lit "like") then lit "like" else lit "love" in
    tail <- last_item (split_on text sep) ;;
    let old := match interests info with Some l => l | None => [] end in
    Ok {| name := name info; location := location info; age := age info;
          interests := Some (old ++ [strip tail]) |}
  else Ok info.

Definition topic_table : list (str * list str) :=
  [ (lit "technology", map lit ["computer"; "software"; "ai"; "robot"; "internet"; "phone"]);
    (lit "science", map lit ["physics"; "chemistry"; "biology"; "space"; "research"]);
    (lit "entertainment", map lit ["movie"; "music"; "game"; "book"; "tv"; "show"]);
    (lit "food", map lit ["eat"; "food"; "cook"; "recipe"; "restaurant"; "meal"]);
    (lit "travel", map lit ["travel"; "trip"; "vacation"; "country"; "city"; "visit"]);
    (lit "work", map lit ["job"; "work"; "career"; "office"; "business"; "company"]);
    (lit "health", map lit ["health"; "exercise"; "doctor"; "medicine"; "fitness"]);
    (lit "education", map lit ["school"; "study"; "learn"; "university"; "course"]) ]%string.

Definition extract_topics (counts : list (str * Z)) (user_input : str)
  : list (str * Z) :=
  let text := lower user_input in
  fold_left
    (fun counts (entry : str * list str) =>
       let (topic, keywords) := entry in
       if contains_any text keywords
       then
         let old := match dict_get counts topic with Some n => n | None => 0%Z end in
         dict_set counts topic (old + 1)%Z
       else counts)
    topic_table counts.

Definition importance_key (x : conversation) : Z :=
  match importance x with Some n => n | None => 0%Z end.

(** The mutation done so far is kept when [extract_user_info] raises:
    the entry has been appended, the pruning has not run. *)
Definition add_to_long_term_memory (self : t) (now : Clock.reading)
  (user_input ai_response : str) : t * result unit :=
  let memory_item :=
    {| user_input := user_input;
       ai_response := ai_response;
       timestamp := Clock.isoformat now;
       importance := Some (calculate_importance user_input) |} in
  let ltm := long_term_memory self in
  let convs := conversations ltm ++ [memory_item] in
  match extract_user_info (user_info ltm) user_input with
  | Raise e =>
      ({| session_memory := session_memory self;
          long_term_memory :=
            {| conversations := convs; user_info := user_info ltm;
               topics := topics ltm |} |},
       Raise e)
  | Ok info =>
      let counts := extract_topics (topics ltm) user_input in
      let convs :=
        if 100 <? length convs
        then take 100 (sorted_desc importance_key convs)
        else convs in
      ({| session_memory := session_memory self;
          long_term_memory :=
            {| conversations := convs; user_info := info;
               topics := counts |} |},
       Ok tt)
  end.

Definition user_info_nonempty (info : user_info_t) : bool :=
  match name info, location info, age info, interests info with
  | None, None, None, None => false
  | _, _, _, _ => true
  end.

Definition get_relevant_context (self : t) (current_input : str) : str :=
  let context :=
    match session_memory self with
    | [] => []
    | _ =>
        lit "Recent conversation:" ::
        flat_map (fun memory =>
                    [lit "You: " ++ s_user_input memory;
                     lit "AI: " ++ s_ai_response memory])
                 (last_n 3 (session_memory self))
    end in
  let info := user_info (long_term_memory self) in
  let context :=
    if user_info_nonempty info
    then
      let lines :=
        match name info with
        | Some n => [lit "User's name: " ++ n]
        | None => []
        end ++
        match location info with
        | Some l => [lit "Location: " ++ l]
        | None => []
        end in
      match lines with
      | [] => context
      | _ => context ++ [lit "User information: " ++ join (lit ", ") lines]
      end
    else context in
  match context with
  | [] => []
  | _ => join nl context
  end.

Definition search_memory (self : t) (query : str) : list conversation :=
  let query_lower := lower query in
  let results :=
    filter (fun conv =>
              contains (lower (user_input conv)) query_lower
              || contains (lower (ai_response conv)) query_lower)
           (conversations (long_term_memory self)) in
  last_n 5 results.

End ContextMemory.

(* ================================================================= *)
(** ** learning_system.py *)

Module LearningSystem.

Record learned : Type := {
  response : str;
  success_count : option Z;
  l_timestamp : str
}.

Record pattern : Type := {
  p_input : str;
  p_response : str;
  p_timestamp : str
}.

Record preferences_t : Type := {
  favorite_color : option str;
  favorite_food : option str;
  pref_name : option str;
  pref_location : option str
}.

Record t : Type := {
  learned_knowledge : list (str * list learned);
  preferences : preferences_t;
  patterns : list (str * list pattern)
}.

Definition empty_preferences : preferences_t :=
  {| favorite_color := None; favorite_food := None;
     pref_name := None; pref_location := None |}.

(** [load_learned_data]: each of the three documents falls back to an
    empty dict when its file cannot be read. *)
Definition init (knowledge : option (list (str * list learned)))
  (prefs : option preferences_t) (pats : option (list (str * list pattern)))
  : t :=
  {| learned_knowledge := match knowledge with Some k => k | None => [] end;
     preferences := match prefs with Some p => p | None => empty_preferences end;
     patterns := match pats with Some p => p | None => [] end |}.

Definition colors : list str :=
  map lit ["red"; "blue"; "green"; "yellow"; "purple"; "orange"; "black"; "white"]%string.

Definition foods : list str :=
  map lit ["pizza"; "burger"; "pasta"; "rice"; "chicken"; "fish"; "salad"]%string.

(** [for x in xs: if x in text: slot = x] *)
Definition last_match (text : str) (xs : list str) (slot : option str)
  : option str :=
  fold_left (fun slot x => if contains text x then Some x else slot) xs slot.

(** The favourites are written before the name is parsed, so they are
    kept when the name extraction raises. *)
Definition extract_preferences (prefs : preferences_t) (user_input : str)
  : preferences_t * result unit :=
  let text := lower user_input in
  let prefs :=
    if contains text (lit "my favorite") || contains text (lit "i like")
       || contains text (lit "i love")
    then
      let prefs :=
        if contains text (lit "color")
        then {| favorite_color := last_match text colors (favorite_color prefs);
                favorite_food := favorite_food prefs;
                pref_name := pref_name prefs;
                pref_location := pref_location prefs |}
        else prefs in
      if contains text (lit "food")
      then {| favorite_color := favorite_color prefs;
              favorite_food := last_match text foods (favorite_food prefs);
              pref_name := pref_name prefs;
              pref_location := pref_location prefs |}
      else prefs
    else prefs in
  let named :=
    if contains text (lit "my name is")
    then
      tail <- last_item (split_on text (lit "my name is")) ;;
      nm <- first_item (split_ws (strip tail)) ;;
      Ok {| favorite_color := favorite_color prefs;
            favorite_food := favorite_food prefs;
            pref_name := Some nm;
            pref_location := pref_location prefs |}
    else Ok prefs in
  match named with
  | Raise e => (prefs, Raise e)
  | Ok prefs =>
      if contains text (lit "i am from") || contains text (lit "i live in")
      then
        let sep := if contains text (lit "from") then lit "from" else lit "in" in
        match last_item (split_on text sep) with
        | Raise e => (prefs, Raise e)
        | Ok tail =>
            ({| favorite_color := favorite_color prefs;
                favorite_food := favorite_food prefs;
                pref_name := pref_name prefs;
                pref_location := Some (strip tail) |}, Ok tt)
        end
      else (prefs, Ok tt)
  end.

Definition classify_input_type (user_input : str) : str :=
  let text := lower user_input in
  if contains_any text (map lit ["hello"; "hi"; "hey"; "good morning"]%string)
  then lit "greeting"
  else if contains text (lit "?") then lit "question"
  else if contains_any text (map lit ["thanks"; "thank you"; "bye"; "goodbye"]%string)
  then lit "closing"
  else if contains_any text (map lit ["help"; "can you"; "please"]%string)
  then lit "request"
  else lit "general".

Definition analyze_conversation_pattern
  (pats : list (str * list pattern)) (now : Clock.reading)
  (user_input ai_response : str) : list (str * list pattern) :=
  let input_type := classify_input_type user_input in
  let old := match dict_get pats input_type with Some l => l | None => [] end in
  let entries :=
    old ++ [{| p_input := user_input; p_response := ai_response;
               p_timestamp := Clock.isoformat now |}] in
  dict_set pats input_type
    (if 10 <? length entries then last_n 10 entries else entries).

Definition store_successful_response
  (knowledge : list (str * list learned)) (now : Clock.reading)
  (user_input ai_response : str) : list (str * list learned) :=
  let key := take 50 (lower user_input) in
  let old := match dict_get knowledge key with Some l => l | None => [] end in
  dict_set knowledge key
    (old ++ [{| response := ai_response; success_count := Some 1%Z;
                l_timestamp := Clock.isoformat now |}]).

Definition praise_words : list str :=
  map lit ["thanks"; "good"; "great"; "perfect"]%string.

Definition learn_from_conversation (self : t) (now : Clock.reading)
  (user_input ai_response : str) (user_feedback : option str)
  : t * result unit :=
  let (prefs, r) := extract_preferences (preferences self) user_input in
  match r with
  | Raise e =>
      ({| learned_knowledge := learned_knowledge self;
          preferences := prefs;
          patterns := patterns self |}, Raise e)
  | Ok _ =>
      let pats := analyze_conversation_pattern (patterns self) now
                    user_input ai_response in
      let good :=
        match user_feedback with
        | Some f => eqb_str f (lit "good")
        | None => false
        end in
      let knowledge :=
        if good || contains_any (lower user_input) praise_words
        then store_successful_response (learned_knowledge self) now
               user_input ai_response
        else learned_knowledge self in
      ({| learned_knowledge := knowledge; preferences := prefs;
          patterns := pats |}, Ok tt)
  end.

Definition success_key (x : learned) : Z :=
  match success_count x with Some n => n | None => 0%Z end.

Definition get_contextual_response (self : t) (user_input : str) : str :=
  let input_type := classify_input_type user_input in
  match dict_get (patterns self) input_type with
  | Some entries =>
      match rev entries with
      | recent_pattern :: _ =>
          lit "Based on our previous conversations, " ++ p_response recent_pattern
      | [] => lit "Let me help you with that."
      end
  | None => lit "Let me help you with that."
  end.

(** [None] is Python's [None]: no personalisation is available. *)
Definition get_personalized_response (self : t) (user_input : str)
  : result (option str) :=
  let key := take 50 (lower user_input) in
  match dict_get (learned_knowledge self) key with
  | Some entries =>
      best_response <- max_by success_key entries ;;
      Ok (Some (response best_response))
  | None =>
      match pref_name (preferences self) with
      | Some (c :: nm) =>
          Ok (Some (lit "Hi " ++ (c :: nm) ++ lit "! "
                    ++ get_contextual_response self user_input))
      | _ => Ok None
      end
  end.

End LearningSystem.

(* ================================================================= *)
(** ** common_sense.py *)

Module CommonSense.

(** The instance keeps the last responses it has seen, each with the
    clock reading of its arrival. *)
Record t : Type := { context_memory : list (str * Z) }.

Definition init : t := {| context_memory := [] |}.

Definition get_realistic_alternative (query : str) : str :=
  let query_lower := lower query in
  if contains query_lower (lit "fly") && contains query_lower (lit "human")
  then lit "Humans can't fly naturally, but we can use airplanes, helicopters, or other aircraft to travel through the air."
  else if contains query_lower (lit "breathe underwater")
  then lit "Humans can't breathe underwater naturally, but we can use scuba gear or submarines to explore underwater."
  else lit "Let me provide a more realistic perspective on that.".

Definition check_logical_consistency (query response : str) : str :=
  let query_lower := lower query in
  let response_lower := lower response in
  if contains query_lower (lit "yesterday") && contains response_lower (lit "tomorrow")
  then lit "I think there might be some confusion about time. Let me clarify: " ++ response
  else
    if (contains response_lower (lit "water") && contains response_lower (lit "burn"))
       || (contains response_lower (lit "ice") && contains response_lower (lit "hot"))
       || (contains response_lower (lit "fly") && contains query_lower (lit "human")
           && negb (contains response_lower (lit "without")))
    then lit "That doesn't seem physically possible. Let me give you a more realistic answer: "
         ++ get_realistic_alternative query
    else response.

Definition add_practical_context (query response : str) : str :=
  let query_lower := lower query in
  let response :=
    if contains_any query_lower (map lit ["rain"; "cold"; "hot"; "snow"]%string)
    then
      if contains query_lower (lit "rain")
      then response ++ lit " By the way, if it's raining, don't forget an umbrella!"
      else if contains query_lower (lit "cold")
      then response ++ lit " In cold weather, make sure to dress warmly."
      else if contains query_lower (lit "hot")
      then response ++ lit " In hot weather, stay hydrated and seek shade."
      else response
    else response in
  let response :=
    if contains_any query_lower (map lit ["drive"; "driving"; "car"]%string)
    then response ++ lit " Remember to always drive safely and follow traffic rules."
    else response in
  let response :=
    if contains_any query_lower (map lit ["sick"; "illness"; "pain"; "hurt"]%string)
    then response ++ lit " If you're experiencing health issues, it's best to consult with a healthcare professional."
    else response in
  if contains_any query_lower (map lit ["busy"; "time"; "schedule"]%string)
  then response ++ lit " Good time management can help reduce stress and improve productivity."
  else response.

Definition apply_safety_filter (response : str) : str :=
  if contains_any (lower response)
       (map lit ["dangerous"; "illegal"; "harmful"; "unsafe"]%string)
  then lit "I want to make sure I give you safe and helpful advice. " ++ response
       ++ lit " Please prioritize your safety and follow local laws and guidelines."
  else response.

Definition apply_common_sense (query ai_response : str) : str :=
  let corrected_response := check_logical_consistency query ai_response in
  let enhanced_response := add_practical_context query corrected_response in
  apply_safety_filter enhanced_response.

Definition add_contextual_awareness (now : Clock.reading) (query response : str)
  : str :=
  let current_hour := Clock.hour now in
  let response :=
    if contains (lower query) (lit "good morning") && (12 <? current_hour)
    then lit "Actually, it's afternoon now, but good day to you too! " ++ response
    else if contains (lower query) (lit "good evening") && (current_hour <? 17)
    then lit "It's still daytime, but good day! " ++ response
    else response in
  let current_month := Clock.month now in
  if existsb (Nat.eqb current_month) [12; 1; 2]
     && contains (lower query) (lit "summer")
  then lit "Just to note, it's currently winter season. " ++ response
  else if existsb (Nat.eqb current_month) [6; 7; 8]
          && contains (lower query) (lit "winter")
  then lit "Just to note, it's currently summer season. " ++ response
  else response.

Definition check_contradictions (self : t) (now : Clock.reading)
  (new_response : str) : t * str :=
  let memory := context_memory self ++ [(new_response, Clock.micros now)] in
  ({| context_memory := if 5 <? length memory then last_n 5 memory else memory |},
   new_response).

Definition enhance_with_common_sense (self : t) (now : Clock.reading)
  (query ai_response : str) : t * str :=
  let enhanced := apply_common_sense query ai_response in
  let enhanced := add_contextual_awareness now query enhanced in
  check_contradictions self now enhanced.

End CommonSense.

(* ================================================================= *)
(** ** terminal_ai_fixed.py *)

Module TerminalAI.

(** What one turn sees of the outside: the chat backend, the search
    client, the clock and the time the calls took. *)
Record world : Type := {
  ollama_chat : str -> str -> result str;  (* system prompt, user prompt *)
  live_search : str -> result str;         (* LiveWebSearch.search_web *)
  now : Clock.reading;
  elapsed : Q                              (* time.time() - start_time *)
}.

Record stats : Type := {
  total_queries : nat;
  cache_hits : nat;
  search_requests : nat;
  average_response_time : Q
}.

Record qa : Type := { question : str; answer : str; qa_timestamp : str }.

Record knowledge_item : Type := {
  k_answer : str;
  k_timestamp : str;
  usage_count : option Z
}.

(** The instance.  A component is [None] (or [false]) when
    [_initialize_ai_components] gave up before creating it; reading the
    attribute then raises [AttributeError]. *)
Record t : Type := {
  conversation_context : list str;
  conversation_memory : list qa;
  debug_mode : bool;
  common_sense : option CommonSense.t;
  emotion_detector : bool;
  learning_system : option LearningSystem.t;
  personality_system : option PersonalitySystem.t;
  context_memory : option ContextMemory.t;
  web_search : bool;
  translation_language : option str;
  executor_open : bool;
  response_cache : list (str * str);
  search_cache : list (str * str);
  last_cache_clear : Z;
  performance_stats : stats;
  knowledge : list (str * knowledge_item)
}.

Definition cache_ttl : Z := 3600.
Definition max_cache_size : nat := 1000.

Definition with_conversation_context (v : list str) (s : t) : t :=
  {| conversation_context := v;
     conversation_memory := conversation_memory s; debug_mode := debug_mode s;
     common_sense := common_sense s; emotion_detector := emotion_detector s;
     learning_system := learning_system s;
     personality_system := personality_system s;
     context_memory := context_memory s; web_search := web_search s;
     translation_language := translation_language s;
     executor_open := executor_open s; response_cache := response_cache s;
     search_cache := search_cache s; last_cache_clear := last_cache_clear s;
     performance_stats := performance_stats s; knowledge := knowledge s |}.

Definition with_conversation_memory (v : list qa) (s : t) : t :=
  {| conversation_context := conversation_context s;
     conversation_memory := v; debug_mode := debug_mode s;
     common_sense := common_sense s; emotion_detector := emotion_detector s;
     learning_system := learning_system s;
     personality_system := personality_system s;
     context_memory := context_memory s; web_search := web_search s;
     translation_language := translation_language s;
     executor_open := executor_open s; response_cache := response_cache s;
     search_cache := search_cache s; last_cache_clear := last_cache_clear s;
     performance_stats := performance_stats s; knowledge := knowledge s |}.

Definition with_common_sense (v : option CommonSense.t) (s : t) : t :=
  {| conversation_context := conversation_context s;
     conversation_memory := conversation_memory s; debug_mode := debug_mode s;
     common_sense := v; emotion_detector := emotion_detector s;
     learning_system := learning_system s;
     personality_system := personality_system s;
     context_memory := context_memory s; web_search := web_search s;
     translation_language := translation_language s;
     executor_open := executor_open s; response_cache := response_cache s;
     search_cache := search_cache s; last_cache_clear := last_cache_clear s;
     performance_stats := performance_stats s; knowledge := knowledge s |}.

Definition with_learning_system (v : option LearningSystem.t) (s : t) : t :=
  {| conversation_context := conversation_context s;
     conversation_memory := conversation_memory s; debug_mode := debug_mode s;
     common_sense := common_sense s; emotion_detector := emotion_detector s;
     learning_system := v;
     personality_system := personality_system s;
     context_memory := context_memory s; web_search := web_search s;
     translation_language := translation_language s;
     executor_open := executor_open s; response_cache := response_cache s;
     search_cache := search_cache s; last_cache_clear := last_cache_clear s;
     performance_stats := performance_stats s; knowledge := knowledge s |}.

Definition with_personality_system (v : option PersonalitySystem.t) (s : t)
  : t :=
  {| conversation_context := conversation_context s;
     conversation_memory := conversation_memory s; debug_mode := debug_mode s;
     common_sense := common_sense s; emotion_detector := emotion_detector s;
     learning_system := learning_system s;
     personality_system := v;
     context_memory := context_memory s; web_search := web_search s;
     translation_language := translation_language s;
     executor_open := executor_open s; response_cache := response_cache s;
     search_cache := search_cache s; last_cache_clear := last_cache_clear s;
     performance_stats := performance_stats s; knowledge := knowledge s |}.

Definition with_context_memory (v : option ContextMemory.t) (s : t) : t :=
  {| conversation_context := conversation_context s;
     conversation_memory := conversation_memory s; debug_mode := debug_mode s;
     common_sense := common_sense s; emotion_detector := emotion_detector s;
     learning_system := learning_system s;
     personality_system := personality_system s;
     context_memory := v; web_search := web_search s;
     translation_language := translation_language s;
     executor_open := executor_open s; response_cache := response_cache s;
     search_cache := search_cache s; last_cache_clear := last_cache_clear s;
     performance_stats := performance_stats s; knowledge := knowledge s |}.

Definition with_response_cache (v : list (str * str)) (s : t) : t :=
  {| conversation_context := conversation_context s;
     conversation_memory := conversation_memory s; debug_mode := debug_mode s;
     common_sense := common_sense s; emotion_detector := emotion_detector s;
     learning_system := learning_system s;
     personality_system := personality_system s;
     context_memory := context_memory s; web_search := web_search s;
     translation_language := translation_language s;
     executor_open := executor_open s; response_cache := v;
     search_cache := search_cache s; last_cache_clear := last_cache_clear s;
     performance_stats := performance_stats s; knowledge := knowledge s |}.

Definition with_search_cache (v : list (str * str)) (s : t) : t :=
  {| conversation_context := conversation_context s;
     conversation_memory := conversation_memory s; debug_mode := debug_mode s;
     common_sense := common_sense s; emotion_detector := emotion_detector s;
     learning_system := learning_system s;
     personality_system := personality_system s;
     context_memory := context_memory s; web_search := web_search s;
     translation_language := translation_language s;
     executor_open := executor_open s; response_cache := response_cache s;
     search_cache := v; last_cache_clear := last_cache_clear s;
     performance_stats := performance_stats s; knowledge := knowledge s |}.

Definition with_last_cache_clear (v : Z) (s : t) : t :=
  {| conversation_context := conversation_context s;
     conversation_memory := conversation_memory s; debug_mode := debug_mode s;
     common_sense := common_sense s; emotion_detector := emotion_detector s;
     learning_system := learning_system s;
     personality_system := personality_system s;
     context_memory := context_memory s; web_search := web_search s;
     translation_language := translation_language s;
     executor_open := executor_open s; response_cache := response_cache s;
     search_cache := search_cache s; last_cache_clear := v;
     performance_stats := performance_stats s; knowledge := knowledge s |}.

Definition with_performance_stats (v : stats) (s : t) : t :=
  {| conversation_context := conversation_context s;
     conversation_memory := conversation_memory s; debug_mode := debug_mode s;
     common_sense := common_sense s; emotion_detector := emotion_detector s;
     learning_system := learning_system s;
     personality_system := personality_system s;
     context_memory := context_memory s; web_search := web_search s;
     translation_language := translation_language s;
     executor_open := executor_open s; response_cache := response_cache s;
     search_cache := search_cache s; last_cache_clear := last_cache_clear s;
     performance_stats := v; knowledge := knowledge s |}.

Definition with_knowledge (v : list (str * knowledge_item)) (s : t) : t :=
  {| conversation_context := conversation_context s;
     conversation_memory := conversation_memory s; debug_mode := debug_mode s;
     common_sense := common_sense s; emotion_detector := emotion_detector s;
     learning_system := learning_system s;
     personality_system := personality_system s;
     context_memory := context_memory s; web_search := web_search s;
     translation_language := translation_language s;
     executor_open := executor_open s; response_cache := response_cache s;
     search_cache := search_cache s; last_cache_clear := last_cache_clear s;
     performance_stats := performance_stats s; knowledge := v |}.

(** [getattr]: a missing component raises. *)
Definition attr {A} (component : option A) : result A :=
  match component with
  | Some a => Ok a
  | None => Raise AttributeError
  end.

Definition bump_total_queries (p : stats) : stats :=
  {| total_queries := S (total_queries p); cache_hits := cache_hits p;
     search_requests := search_requests p;
     average_response_time := average_response_time p |}.

Definition bump_cache_hits (p : stats) : stats :=
  {| total_queries := total_queries p; cache_hits := S (cache_hits p);
     search_requests := search_requests p;
     average_response_time := average_response_time p |}.

Definition bump_search_requests (p : stats) : stats :=
  {| total_queries := total_queries p; cache_hits := cache_hits p;
     search_requests := S (search_requests p);
     average_response_time := average_response_time p |}.

(** [_clear_old_cache]; it is called from [_load_initial_data] only. *)
Definition _clear_old_cache (self : t) (now : Clock.reading) : t :=
  let self :=
    if (cache_ttl * 1000000 <? Clock.micros now - last_cache_clear self)%Z
    then with_last_cache_clear (Clock.micros now)
           (with_search_cache [] (with_response_cache [] self))
    else self in
  if max_cache_size <? length (response_cache self)
  then
    (* items[-self.max_cache_size//2:], and (-1000)//2 = -500 *)
    with_response_cache
      (last_n ((max_cache_size + 1) / 2) (response_cache self)) self
  else self.

Definition _update_response_time (self : t) (response_time : Q) : t :=
  let p := performance_stats self in
  let current_avg := average_response_time p in
  let n := total_queries p in
  let avg :=
    match n with
    | O => response_time
    | _ => ((current_avg * inject_Z (Z.of_nat n) + response_time)
            / inject_Z (Z.of_nat (n + 1)))%Q
    end in
  with_performance_stats
    {| total_queries := total_queries p; cache_hits := cache_hits p;
       search_requests := search_requests p;
       average_response_time := avg |} self.

Definition _clean_search_query (query : str) : str :=
  let query :=
    if contains query (lit "Current question:")
    then match rev (split_on query (lit "Current question:")) with
         | tail :: _ => strip tail
         | [] => query
         end
    else query in
  let query :=
    if contains query (lit "Conversation context:")
    then match split_on query (lit "Conversation context:") with
         | head :: _ => strip head
         | [] => query
         end
    else query in
  let words := split_ws query in
  let query :=
    if 10 <? length words then join (lit " ") (take 10 words) else query in
  strip query.

Definition search_failure_message (clean_query : str) : str :=
  lit "I couldn't search for '" ++ clean_query
  ++ lit "' right now, but I can provide general information.".

Definition search_web (self : t) (w : world) (query : str) : t * str :=
  let clean_query := _clean_search_query query in
  let cache_key := take 100 (lower clean_query) in
  match dict_get (search_cache self) cache_key with
  | Some hit =>
      (with_performance_stats (bump_cache_hits (performance_stats self)) self,
       hit)
  | None =>
      let self :=
        with_performance_stats
          (bump_search_requests (performance_stats self)) self in
      if web_search self
      then
        match live_search w clean_query with
        | Ok result =>
            let self :=
              match result with
              | [] => self
              | _ =>
                  if negb (contains (lower result) (lit "error"))
                  then with_search_cache
                         (dict_set (search_cache self) cache_key result) self
                  else self
              end in
            (_update_response_time self (elapsed w), result)
        | Raise _ => (self, search_failure_message clean_query)
        end
      else (self, search_failure_message clean_query)
  end.

(** [f"{prompt}:{context}".lower()[:100]] *)
Definition _generate_cache_key (prompt context : str) : str :=
  let combined := prompt ++ lit ":" ++ context in
  take 100 (lower combined).

Definition _get_system_prompt (self : t) : result str :=
  ps <- attr (personality_system self) ;;
  personality_info <- PersonalitySystem.get_current_personality_info ps ;;
  let base_prompt :=
    lit "You are a helpful AI assistant. Respond naturally and conversationally. "
    ++ lit "For greetings, respond with simple greetings. For questions, provide clear and accurate answers. " in
  let personality_prompt :=
    lit "Your personality is " ++ PersonalitySystem.info_name personality_info
    ++ lit " - " ++ PersonalitySystem.info_style personality_info ++ lit ". " in
  Ok (base_prompt ++ personality_prompt).

Definition _prepare_full_prompt (prompt context : str) : str :=
  match strip context with
  | [] => prompt
  | _ =>
      let context :=
        if 1000 <? length context
        then take 1000 context ++ lit "..." else context in
      lit "Based on this information: " ++ context ++ nl ++ nl
      ++ lit "Question: " ++ prompt ++ nl ++ nl
      ++ lit "Provide a helpful response in 2-3 sentences."
  end.

(** [None] when the chat call raises. *)
Definition _call_ollama_with_timeout (w : world) (system_prompt full_prompt : str)
  : option str :=
  match ollama_chat w system_prompt full_prompt with
  | Ok content => Some (strip content)
  | Raise _ => None
  end.

Definition fallback_responses : list (str * str) :=
  [ (lit "hello", lit "Hello! How can I help you today?");
    (lit "hi", lit "Hi there! What can I do for you?");
    (lit "how are you", lit "I'm doing well, thank you! How are you?");
    (lit "thanks", lit "You're welcome! Happy to help!");
    (lit "bye", lit "Goodbye! Have a great day!") ]%string.

Definition _get_fallback_response (prompt : str) : str :=
  let prompt_lower := strip (lower prompt) in
  match find (fun entry => contains prompt_lower (fst entry)) fallback_responses with
  | Some entry => snd entry
  | None =>
      lit "I'm having trouble processing that right now. Could you please try again or rephrase your question?"
  end.

Definition get_ai_response (self : t) (w : world) (prompt context : str)
  : t * str :=
  let self :=
    with_performance_stats (bump_total_queries (performance_stats self)) self in
  let cache_key := _generate_cache_key prompt context in
  match dict_get (response_cache self) cache_key with
  | Some hit =>
      (with_performance_stats (bump_cache_hits (performance_stats self)) self,
       hit)
  | None =>
      match _get_system_prompt self with
      | Raise _ => (self, _get_fallback_response prompt)
      | Ok system_prompt =>
          let full_prompt := _prepare_full_prompt prompt context in
          match _call_ollama_with_timeout w system_prompt full_prompt with
          | Some (c :: response) =>
              let self :=
                with_response_cache
                  (dict_set (response_cache self) cache_key (c :: response))
                  self in
              (_update_response_time self (elapsed w), c :: response)
          | _ => (self, _get_fallback_response prompt)
          end
      end
  end.

Definition immediate_skip : list str :=
  map lit ["hello"; "hi"; "hey"; "thanks"; "thank you"; "bye"; "goodbye";
           "how are you"; "what can you do"; "who are you"; "good morning";
           "good evening"; "nice"; "great"; "okay"; "yes"; "no"; "sure";
           "alright"; "fine"; "cool"; "awesome"; "perfect"]%string.

Definition command_patterns : list str :=
  map lit ["personality"; "memory stats"; "voice test"; "breaking news";
           "news"; "search live"; "ask me a question"; "quiz me"]%string.

Definition priority_triggers : list str :=
  map lit ["current"; "latest"; "recent"; "today"; "now"; "2024"; "2025";
           "breaking"; "live"; "real-time"; "up-to-date"]%string.

Definition info_requests : list str :=
  map lit ["price of"; "cost of"; "statistics"; "population"; "rate";
           "weather in"; "temperature"; "forecast"; "news about";
           "best colleges"; "best hospitals"; "best restaurants";
           "deaths in"; "mortality"; "crime rate"; "happened in"]%string.

Definition location_indicators : list str :=
  map lit ["near me"; "in my area"; "pincode"; "pin code"]%string.

Definition basic_knowledge : list str :=
  map lit ["what is love"; "what is life"; "what is happiness";
           "what is water"; "what is fire"; "what is human";
           "bones in human"; "human bones"]%string.

Definition interrogatives : list str :=
  map lit ["what"; "how"; "when"; "where"; "why"; "who"]%string.

Definition needs_search (query : str) : bool :=
  let query_lower := strip (lower query) in
  if contains_any query_lower immediate_skip then false
  else if contains_any query_lower command_patterns then false
  else if contains_any query_lower priority_triggers then true
  else if contains_any query_lower info_requests then true
  else if contains_any query_lower location_indicators then true
  else if contains_any query_lower basic_knowledge then false
  else contains query (lit "?") || startswith_any query_lower interrogatives.

(** [re.search(r'\b\d{6}\b', query)]: the leftmost run of exactly six
    decimal digits with a word boundary on either side.  [prev_word] tells
    whether the character before the current position is a word character. *)
Fixpoint search_six_digits (prev_word : bool) (s : str) : option str :=
  match s with
  | [] => None
  | c :: s' =>
      let digits := take 6 s in
      let after :=
        match skipn 6 s with
        | [] => true
        | d :: _ => negb (re_word d)
        end in
      if negb prev_word && (length digits =? 6) && forallb re_digit digits
         && after
      then Some digits
      else search_six_digits (re_word c) s'
  end.

Definition extract_pincode_from_query (query : str) : option str :=
  match search_six_digits false query with
  | Some pincode =>
      if startswith_any pincode
           (map lit ["1"; "2"; "3"; "4"; "5"; "6"; "7"; "8"; "9"]%string)
      then Some pincode else None
  | None => None
  end.

(** The second component is the pincode of [location_info], if any. *)
Definition enhance_query_with_location (query : str) : str * option str :=
  match extract_pincode_from_query query with
  | Some pincode =>
      let base_query := replace query (lit "pin code " ++ pincode) [] in
      let base_query := replace base_query (lit "pincode " ++ pincode) [] in
      let base_query := strip (replace base_query (lit "near me") []) in
      (base_query ++ lit " near " ++ pincode ++ lit " India", Some pincode)
  | None => (query, None)
  end.

Definition _create_search_prompt (query : str) (location_info : option str)
  : str :=
  let base_prompt :=
    lit "Using the latest search results provided, give current 2025 information about: "
    ++ query ++ lit ". "
    ++ lit "Focus on recent data and current trends. Avoid outdated information." in
  match location_info with
  | Some pincode => base_prompt ++ lit " Location context: " ++ pincode
  | None => base_prompt
  end.

(** [SimpleTranslation.translate_response] *)
Definition translate_response (text target_lang : str) : str := text.

(** A missing translation service raises inside the [try]; the response
    is returned as it is. *)
Definition _apply_translation (self : t) (response : str) : str :=
  match translation_language self with
  | Some language =>
      if negb (eqb_str language (lit "english"))
      then translate_response response language
      else response
  | None => response
  end.

Definition _update_conversation_context (self : t) (query response : str) : t :=
  let context :=
    conversation_context self
    ++ [lit "Q: " ++ query ++ lit " A: " ++ response] in
  with_conversation_context
    (if 20 <? length context then last_n 15 context else context) self.

Definition safety_keywords : list str :=
  map lit ["dangerous"; "harmful"; "illegal"; "unsafe"; "hurt"; "damage"]%string.

Definition impossible_queries : list str :=
  map lit ["fly without"; "breathe underwater"; "time travel"; "live forever"]%string.

Definition _needs_common_sense_check (query response : str) : bool :=
  let query_lower := lower query in
  let response_lower := lower response in
  if contains_any response_lower safety_keywords then true
  else if contains_any query_lower impossible_queries then true
  else false.

Definition memory_triggers : list str :=
  map lit ["remember"; "earlier"; "before"; "previous"; "last time";
           "you said"; "we talked"; "mentioned"; "discussed"]%string.

Definition _should_add_memory_context (query : str) : bool :=
  contains_any (lower query) memory_triggers.

(** Stages 3 to 6 of [enhance_ai_response], up to the final [strip]. *)
Definition enhance_stages (self : t) (w : world) (g : Random.rng)
  (query raw_response : str) : t * Random.rng * result str :=
  match attr (personality_system self) with
  | Raise e => (self, g, Raise e)
  | Ok ps =>
      let (styled, g) :=
        PersonalitySystem.apply_personality_to_response ps raw_response g in
      match styled with
      | Raise e => (self, g, Raise e)
      | Ok response =>
          let checked :=
            if _needs_common_sense_check query response
            then
              match attr (common_sense self) with
              | Raise e => (self, Raise e)
              | Ok cs =>
                  let (cs, response) :=
                    CommonSense.enhance_with_common_sense cs (now w)
                      query response in
                  (with_common_sense (Some cs) self, Ok response)
              end
            else (self, Ok response) in
          match checked with
          | (self, Raise e) => (self, g, Raise e)
          | (self, Ok response) =>
              let framed :=
                if _should_add_memory_context query
                then
                  cm <- attr (context_memory self) ;;
                  match ContextMemory.get_relevant_context cm query with
                  | [] => Ok response
                  | _ => Ok (lit "Based on our conversation, " ++ response)
                  end
                else Ok response in
              let final :=
                response <- framed ;;
                ls <- attr (learning_system self) ;;
                personalized <- LearningSystem.get_personalized_response ls query ;;
                match personalized with
                | Some (c :: p) =>
                    if length (c :: p) <? length response
                    then Ok (c :: p) else Ok response
                | _ => Ok response
                end in
              (self, g, final)
          end
      end
  end.

(** [enhance_ai_response]: whatever is raised is answered with the raw
    response, which by then may carry the empathetic sentence. *)
Definition enhance_ai_response (self : t) (w : world) (g : Random.rng)
  (query raw_response : str) : t * Random.rng * str :=
  if negb (emotion_detector self) then (self, g, raw_response)
  else
    match EmotionDetector.detect_emotion query with
    | Raise _ => (self, g, raw_response)
    | Ok (emotion, confidence) =>
        let (prefixed, g) :=
          if negb (Qle_bool confidence (85 # 100))
          then
            let (e, g) :=
              EmotionDetector.get_empathetic_response emotion confidence g in
            (empathy <- e ;; Ok (empathy ++ lit " " ++ raw_response), g)
          else (Ok raw_response, g) in
        match prefixed with
        | Raise _ => (self, g, raw_response)
        | Ok raw_response =>
            match enhance_stages self w g query raw_response with
            | (self, g, Ok response) => (self, g, strip response)
            | (self, g, Raise _) => (self, g, raw_response)
            end
        end
    end.

(** The jobs handed to the worker pool. *)
Inductive task : Type :=
| SaveToMemory (query response : str)
| SaveKnowledge (query response : str)
| AddToSessionMemory (query response : str)
| AddToLongTermMemory (query response : str)
| LearnFromConversation (query response : str).

(** [save_enhanced_memory]: the submissions are made in order, and the
    first one that raises ends the list; nothing is awaited. *)
Definition save_enhanced_memory (self : t) (query response : str) : list task :=
  if executor_open self
  then
    [SaveToMemory query response; SaveKnowledge query response]
    ++ match context_memory self with
       | None => []
       | Some _ =>
           [AddToSessionMemory query response;
            AddToLongTermMemory query response]
           ++ match learning_system self with
              | None => []
              | Some _ => [LearnFromConversation query response]
              end
       end
  else [].

Definition save_to_memory (self : t) (now : Clock.reading)
  (query response : str) : t :=
  let memory :=
    conversation_memory self
    ++ [{| question := query; answer := response;
           qa_timestamp := Clock.isoformat now |}] in
  with_conversation_memory
    (if 15 <? length memory then last_n 10 memory else memory) self.

Definition save_knowledge (self : t) (now : Clock.reading)
  (query answer : str) : t :=
  let key := take 100 (lower query) in
  let used :=
    match dict_get (knowledge self) key with
    | Some item => match usage_count item with Some n => n | None => 0%Z end
    | None => 0%Z
    end in
  with_knowledge
    (dict_set (knowledge self) key
       {| k_answer := answer; k_timestamp := Clock.isoformat now;
          usage_count := Some (used + 1)%Z |}) self.

(** One job run to completion; what it raises stays in its future. *)
Definition run_task (self : t) (now : Clock.reading) (job : task) : t :=
  match job with
  | SaveToMemory q r => save_to_memory self now q r
  | SaveKnowledge q r => save_knowledge self now q r
  | AddToSessionMemory q r =>
      match context_memory self with
      | Some cm =>
          with_context_memory
            (Some (ContextMemory.add_to_session_memory cm now q r)) self
      | None => self
      end
  | AddToLongTermMemory q r =>
      match context_memory self with
      | Some cm =>
          with_context_memory
            (Some (fst (ContextMemory.add_to_long_term_memory cm now q r))) self
      | None => self
      end
  | LearnFromConversation q r =>
      match learning_system self with
      | Some ls =>
          with_learning_system
            (Some (fst (LearningSystem.learn_from_conversation ls now q r None)))
            self
      | None => self
      end
  end.

(** The common tail of both handlers, from the raw response on. *)
Definition finish_response (self : t) (w : world) (g : Random.rng)
  (query raw_response : str) : t * Random.rng * list task * str :=
  match enhance_ai_response self w g query raw_response with
  | (self, g, response) =>
      let response := _apply_translation self response in
      let jobs := save_enhanced_memory self query response in
      let self := _update_conversation_context self query response in
      (self, g, jobs, response)
  end.

Definition _handle_direct_response (self : t) (w : world) (g : Random.rng)
  (query : str) : t * Random.rng * list task * result str :=
  match attr (context_memory self) with
  | Raise e => (self, g, [], Raise e)
  | Ok cm =>
      let memory_context := ContextMemory.get_relevant_context cm query in
      let context_prompt :=
        match memory_context with
        | [] => query
        | _ =>
            if _should_add_memory_context query
            then lit "Conversation context: " ++ memory_context ++ nl
                 ++ lit "Current question: " ++ query
            else query
        end in
      let (self, raw_response) := get_ai_response self w context_prompt [] in
      match finish_response self w g query raw_response with
      | (self, g, jobs, response) => (self, g, jobs, Ok response)
      end
  end.

Definition _handle_search_response (self : t) (w : world) (g : Random.rng)
  (query : str) : t * Random.rng * list task * result str :=
  let (enhanced_query, location_info) := enhance_query_with_location query in
  let (self, search_results) := search_web self w enhanced_query in
  let failed :=
    match search_results with
    | [] => true
    | _ => contains (lower search_results) (lit "error")
    end in
  if failed then _handle_direct_response self w g query
  else
    let enhanced_prompt := _create_search_prompt query location_info in
    let (self, raw_response) :=
      get_ai_response self w enhanced_prompt (take 1200 search_results) in
    match finish_response self w g query raw_response with
    | (self, g, jobs, response) => (self, g, jobs, Ok response)
    end.

(** [smart_response]: the reply, with the instance, the random source and
    the jobs left to the worker pool. *)
Definition smart_response (self : t) (w : world) (g : Random.rng)
  (query : str) : t * Random.rng * list task * str :=
  let outcome :=
    if needs_search query
    then _handle_search_response self w g query
    else _handle_direct_response self w g query in
  match outcome with
  | (self, g, jobs, Ok response) => (self, g, jobs, response)
  | (self, g, jobs, Raise _) => (self, g, jobs, _get_fallback_response query)
  end.

(** The instance [__init__] builds when every component comes up, given
    what the persisted documents held. *)
Definition init (now : Clock.reading)
  (memory : option ContextMemory.long_term)
  (learned : option (list (str * list LearningSystem.learned)))
  (prefs : option LearningSystem.preferences_t)
  (pats : option (list (str * list LearningSystem.pattern)))
  (known : option (list (str * knowledge_item))) : t :=
  _clear_old_cache
    {| conversation_context := [];
       conversation_memory := [];
       debug_mode := false;
       common_sense := Some CommonSense.init;
       emotion_detector := true;
       learning_system := Some (LearningSystem.init learned prefs pats);
       personality_system := Some PersonalitySystem.init;
       context_memory := Some (ContextMemory.init memory);
       web_search := true;
       translation_language := Some (lit "english");
       executor_open := true;
       response_cache := [];
       search_cache := [];
       last_cache_clear := Clock.micros now;
       performance_stats :=
         {| total_queries := 0; cache_hits := 0; search_requests := 0;
            average_response_time := 0%Q |};
       knowledge := match known with Some k => k | None => [] end |}
    now.

End TerminalAI.

(* ================================================================= *)
(** ** Vocabulary of the statements *)

Module Spec.

(** The string has a character that is not white space. *)
Definition nonblank (s : str) : bool :=
  existsb (fun c => negb (isspace_char c)) s.

Definition starts_nonspace (k : str) : bool :=
  match k with
  | c :: _ => negb (isspace_char c)
  | [] => false
  end.

(** The keyword neither starts nor ends with white space. *)
Definition tight (k : str) : bool :=
  starts_nonspace k && starts_nonspace (rev k).

(** The score of one row of the emotion table on a text. *)
Definition category_score (text : str) (entry : str * list str) : Z :=
  EmotionDetector.score (lower text) (snd entry).

(** A family of pairwise different prompts: "q0", "q1", ... *)
Definition numbered (i : nat) : str :=
  lit "q" ++ list_ascii_of_string (NilEmpty.string_of_uint (Nat.to_uint i)).

(** A clock reading [seconds] after the epoch. *)
Definition at_second (seconds : Z) : Clock.reading :=
  {| Clock.micros := seconds * 1000000;
     Clock.isoformat := lit "1970-01-01T00:00:00";
     Clock.session := lit "19700101_00";
     Clock.hour := 0;
     Clock.month := 1 |}.

(** A world whose backend and search client always answer. *)
Definition answering_world (seconds : Z) : TerminalAI.world :=
  {| TerminalAI.ollama_chat := fun _ _ => Ok (lit "Sure.");
     TerminalAI.live_search := fun _ => Ok (lit "Here's what I found.");
     TerminalAI.now := at_second seconds;
     TerminalAI.elapsed := 1%Q |}.

(** A world whose backend and search client always raise. *)
Definition failing_world (seconds : Z) : TerminalAI.world :=
  {| TerminalAI.ollama_chat := fun _ _ => Raise OSError;
     TerminalAI.live_search := fun _ => Raise OSError;
     TerminalAI.now := at_second seconds;
     TerminalAI.elapsed := 1%Q |}.

(** The instance of a first start: no persisted document exists. *)
Definition fresh (seconds : Z) : TerminalAI.t :=
  TerminalAI.init (at_second seconds) None None None None None.

(** [n] different prompts answered one after the other. *)
Definition after_prompts (n : nat) (w : TerminalAI.world) (self : TerminalAI.t)
  : TerminalAI.t :=
  fold_left (fun self i => fst (TerminalAI.get_ai_response self w (numbered i) []))
    (seq 0 n) self.

(** [n] different queries searched one after the other. *)
Definition after_searches (n : nat) (w : TerminalAI.world) (self : TerminalAI.t)
  : TerminalAI.t :=
  fold_left (fun self i => fst (TerminalAI.search_web self w (numbered i)))
    (seq 0 n) self.

(** The memory after the inputs have been recorded one after the other,
    each with the same reply. *)
Definition after_inserts (inputs : list str) (self : ContextMemory.t)
  : ContextMemory.t :=
  fold_left
    (fun self q =>
       fst (ContextMemory.add_to_long_term_memory self (at_second 0) q
              (lit "Sure.")))
    inputs self.

(** Descending order of the sort key. *)
Definition desc {A} (key : A -> Z) (x y : A) : Prop := (key y <= key x)%Z.

(** The items whose key is [k], in their order. *)
Definition with_key {A} (key : A -> Z) (k : Z) (l : list A) : list A :=
  filter (fun x => (key x =? k)%Z) l.

(** No response kept in the learned-knowledge store is blank. *)
Definition learned_ok (ls : LearningSystem.t) : Prop :=
  forall key entries e,
    In (key, entries) (LearningSystem.learned_knowledge ls) ->
    In e entries ->
    nonblank (LearningSystem.response e) = true.

(** No cached response is blank. *)
Definition cache_ok (cache : list (str * str)) : Prop :=
  forall k v, In (k, v) cache -> nonblank v = true.

(** The invariant of the orchestrator that the reply depends on. *)
Definition sound (self : TerminalAI.t) : Prop :=
  cache_ok (TerminalAI.response_cache self)
  /\ (forall ls, TerminalAI.learning_system self = Some ls -> learned_ok ls).

Definition job_response (job : TerminalAI.task) : str :=
  match job with
  | TerminalAI.SaveToMemory _ r
  | TerminalAI.SaveKnowledge _ r
  | TerminalAI.AddToSessionMemory _ r
  | TerminalAI.AddToLongTermMemory _ r
  | TerminalAI.LearnFromConversation _ r => r
  end.

Definition jobs_ok (jobs : list TerminalAI.task) : Prop :=
  forall job, In job jobs -> nonblank (job_response job) = true.

(** A random source whose draws are all 0. *)
Definition steady : Random.rng :=
  {| Random.draws := fun _ => 0%N; Random.cursor := 0 |}.

(** A learned-knowledge document whose only response, stored for the
    query "x", is a single space. *)
Definition blank_knowledge : list (str * list LearningSystem.learned) :=
  [ (lit "x",
     [ {| LearningSystem.response := lit " ";
          LearningSystem.success_count := Some 1%Z;
          LearningSystem.l_timestamp := lit "1970-01-01T00:00:00" |} ]) ].

(** The parts of what a turn returns. *)
Definition reply (o : TerminalAI.t * Random.rng * list TerminalAI.task * str)
  : str := snd o.

Definition instance_after
  (o : TerminalAI.t * Random.rng * list TerminalAI.task * str)
  : TerminalAI.t := fst (fst (fst o)).

Definition jobs_of (o : TerminalAI.t * Random.rng * list TerminalAI.task * str)
  : list TerminalAI.task := snd (fst o).

(** The configurations the program reaches by itself: it starts with an
    empty response cache and a learned-knowledge store without blank
    response; a turn answers a query under any behaviour of the
    collaborators and hands its jobs to the pool; a pending job runs at
    any later time.  A turn and a job are each one step: the interleaving
    of a job with the statements of a turn is not modelled. *)
Inductive reachable : TerminalAI.t * list TerminalAI.task -> Prop :=
| reach_start (self : TerminalAI.t) :
    TerminalAI.response_cache self = [] ->
    (forall ls, TerminalAI.learning_system self = Some ls -> learned_ok ls) ->
    reachable (self, [])
| reach_turn (self : TerminalAI.t) (pending : list TerminalAI.task)
    (w : TerminalAI.world) (g : Random.rng) (query : str) :
    reachable (self, pending) ->
    reachable
      (instance_after (TerminalAI.smart_response self w g query),
       pending ++ jobs_of (TerminalAI.smart_response self w g query))
| reach_job (self : TerminalAI.t) (before after : list TerminalAI.task)
    (job : TerminalAI.task) (now : Clock.reading) :
    reachable (self, before ++ job :: after) ->
    reachable (TerminalAI.run_task self now job, before ++ after).

(** The instance after a sequence of [set_personality] calls. *)
Definition after_set_personality (names : list str) : PersonalitySystem.t :=
  fold_left (fun self name => snd (PersonalitySystem.set_personality self name))
    names PersonalitySystem.init.

End Spec.

Import Spec.

(* ================================================================= *)
(** ** Vocabulary of the further statements *)

Module Histories.

(** One exchange as it reaches the memory writers: the clock reading of
    the write, the user input and the reply. *)
Definition turn : Type := (Clock.reading * str * str)%type.

(** The entry [add_to_session_memory] builds for a turn. *)
Definition session_entry (t : turn) : ContextMemory.session_item :=
  let '(now, q, a) := t in
  {| ContextMemory.s_user_input := q;
     ContextMemory.s_ai_response := a;
     ContextMemory.s_timestamp := Clock.isoformat now;
     ContextMemory.s_session_id := Clock.session now |}.

(** The memory after the turns have been added to the session. *)
Definition after_session_turns (turns : list turn) (self : ContextMemory.t)
  : ContextMemory.t :=
  fold_left
    (fun self (t : turn) =>
       let '(now, q, a) := t in
       ContextMemory.add_to_session_memory self now q a)
    turns self.

(** The line [_update_conversation_context] appends for an exchange. *)
Definition context_line (qa : str * str) : str :=
  lit "Q: " ++ fst qa ++ lit " A: " ++ snd qa.

(** The instance after the exchanges have been put into the rolling
    context. *)
Definition after_context_updates (exchanges : list (str * str))
  (self : TerminalAI.t) : TerminalAI.t :=
  fold_left
    (fun self (qa : str * str) =>
       TerminalAI._update_conversation_context self (fst qa) (snd qa))
    exchanges self.

(** The instance after the exchanges have been saved by [save_to_memory]. *)
Definition after_memory_saves (exchanges : list turn) (self : TerminalAI.t)
  : TerminalAI.t :=
  fold_left
    (fun self (t : turn) =>
       let '(now, q, a) := t in TerminalAI.save_to_memory self now q a)
    exchanges self.

(** The entry [save_to_memory] builds for a turn. *)
Definition memory_entry (t : turn) : TerminalAI.qa :=
  let '(now, q, a) := t in
  {| TerminalAI.question := q; TerminalAI.answer := a;
     TerminalAI.qa_timestamp := Clock.isoformat now |}.

(** The instance after the exchanges have been saved by [save_knowledge]. *)
Definition after_knowledge_saves (exchanges : list turn) (self : TerminalAI.t)
  : TerminalAI.t :=
  fold_left
    (fun self (t : turn) =>
       let '(now, q, a) := t in TerminalAI.save_knowledge self now q a)
    exchanges self.

(** [knowledge.get(key, {}).get('usage_count', 0)] *)
Definition usage_of (known : list (str * TerminalAI.knowledge_item))
  (key : str) : Z :=
  match dict_get known key with
  | Some item =>
      match TerminalAI.usage_count item with Some n => n | None => 0%Z end
  | None => 0%Z
  end.

(** Append, and keep the last [keep] items once there are more than
    [cap]: the shape shared by the buffers that are cut back on overflow. *)
Definition push_cut {A} (cap keep : nat) (l : list A) (x : A) : list A :=
  if cap <? length (l ++ [x]) then last_n keep (l ++ [x]) else l ++ [x].

(** [l] ends with [tail]. *)
Definition suffix_of {A} (tail l : list A) : Prop :=
  exists dropped, l = dropped ++ tail.

End Histories.

Module Words.

(** A word as [str.split()] yields it: not empty and free of white
    space. *)
Definition spaceless (w : str) : bool :=
  match w with
  | [] => false
  | _ => forallb (fun c => negb (isspace_char c)) w
  end.

End Words.

Module Learned.

(** The knowledge table after further successful turns have been stored. *)
Definition after_stores (stores : list Histories.turn)
  (knowledge : list (str * list LearningSystem.learned))
  : list (str * list LearningSystem.learned) :=
  fold_left
    (fun knowledge (t : Histories.turn) =>
       let '(now, q, a) := t in
       LearningSystem.store_successful_response knowledge now q a)
    stores knowledge.

(** The learning system with another knowledge table. *)
Definition with_knowledge_table
  (knowledge : list (str * list LearningSystem.learned))
  (ls : LearningSystem.t) : LearningSystem.t :=
  {| LearningSystem.learned_knowledge := knowledge;
     LearningSystem.preferences := LearningSystem.preferences ls;
     LearningSystem.patterns := LearningSystem.patterns ls |}.

End Learned.

Module Views.

(** The test [search_memory] applies to a stored conversation. *)
Definition mentions (query : str) (conv : ContextMemory.conversation) : bool :=
  contains (lower (ContextMemory.user_input conv)) (lower query)
  || contains (lower (ContextMemory.ai_response conv)) (lower query).

(** What the search path owns of the instance: its cache and its
    counter. *)
Definition search_side (self : TerminalAI.t) : list (str * str) * nat :=
  (TerminalAI.search_cache self,
   TerminalAI.search_requests (TerminalAI.performance_stats self)).

(** One round of the loop of [extract_topics]. *)
Definition count_topic (text : str) (counts : list (str * Z))
  (entry : str * list str) : list (str * Z) :=
  let (topic, keywords) := entry in
  if contains_any text keywords
  then
    let old := match dict_get counts topic with Some n => n | None => 0%Z end in
    dict_set counts topic (old + 1)%Z
  else counts.

(** What [save_enhanced_memory] reads of the instance. *)
Definition savers (self : TerminalAI.t)
  : bool * option ContextMemory.t * option LearningSystem.t :=
  (TerminalAI.executor_open self, TerminalAI.context_memory self,
   TerminalAI.learning_system self).

Definition job_query (job : TerminalAI.task) : str :=
  match job with
  | TerminalAI.SaveToMemory q _
  | TerminalAI.SaveKnowledge q _
  | TerminalAI.AddToSessionMemory q _
  | TerminalAI.AddToLongTermMemory q _
  | TerminalAI.LearnFromConversation q _ => q
  end.

(** The world with another search client. *)
Definition with_live_search (client : str -> result str)
  (w : TerminalAI.world) : TerminalAI.world :=
  {| TerminalAI.ollama_chat := TerminalAI.ollama_chat w;
     TerminalAI.live_search := client;
     TerminalAI.now := TerminalAI.now w;
     TerminalAI.elapsed := TerminalAI.elapsed w |}.

End Views.

(* ================================================================= *)
(** ** Occurrences, runs of the instance and postal codes *)

Module Occurrences.




End Occurrences.

Module Runs.

(** Every entry of [old] is still in [new], with the same value. *)
Definition keeps (old new : list (str * str)) : Prop :=
  forall k v, dict_get old k = Some v -> dict_get new k = Some v.

(** One use of the instance after its start: an answer asked of the
    backend, a search, a whole turn, or a job of the worker pool run to
    completion. *)
Inductive step : TerminalAI.t -> TerminalAI.t -> Prop :=
| step_ask (self : TerminalAI.t) (w : TerminalAI.world)
    (prompt context : str) :
    step self (fst (TerminalAI.get_ai_response self w prompt context))
| step_search (self : TerminalAI.t) (w : TerminalAI.world) (query : str) :
    step self (fst (TerminalAI.search_web self w query))
| step_turn (self : TerminalAI.t) (w : TerminalAI.world) (g : Random.rng)
    (query : str) :
    step self (instance_after (TerminalAI.smart_response self w g query))
| step_job (self : TerminalAI.t) (now : Clock.reading)
    (job : TerminalAI.task) :
    step self (TerminalAI.run_task self now job).

(** [self'] is [self] after any number of such uses. *)
Inductive later (self : TerminalAI.t) : TerminalAI.t -> Prop :=
| later_now : later self self
| later_step (mid self' : TerminalAI.t) :
    later self mid -> step mid self' -> later self self'.

End Runs.

Module Pincodes.




End Pincodes.

(* ================================================================= *)
(** * Lemmas and theorems *)

(** ** Facts about the built-ins *)

Unset Implicit Arguments.

Module PyFacts.

Lemma eqb_char_true (a b : ascii) : eqb_char a b = true <-> a = b.
Proof. apply Ascii.eqb_eq. Qed.

Lemma eqb_char_refl (a : ascii) : eqb_char a a = true.
Proof. apply Ascii.eqb_refl. Qed.

Lemma eqb_str_true (a b : str) : eqb_str a b = true <-> a = b.
Proof.
  revert b; induction a as [|x a IH]; intros [|y b]; simpl; split;
    try congruence; try reflexivity.
  - intros H. apply andb_true_iff in H as [Hx Hab].
    apply eqb_char_true in Hx. apply IH in Hab. congruence.
  - intros H. injection H as -> ->.
    rewrite eqb_char_refl. simpl. now apply IH.
Qed.

Lemma eqb_str_refl (a : str) : eqb_str a a = true.
Proof. now apply eqb_str_true. Qed.

(** *** Characters *)

Lemma lower_char_isspace (c : ascii) :
  isspace_char (lower_char c) = isspace_char c.
Proof. destruct c as [[] [] [] [] [] [] [] []]; reflexivity. Qed.

(** *** [lower] *)

Lemma lower_app (a b : str) : lower (a ++ b) = lower a ++ lower b.
Proof. apply map_app. Qed.

Lemma lower_length (s : str) : length (lower s) = length s.
Proof. apply length_map. Qed.

Lemma lower_take (n : nat) (s : str) : take n (lower s) = lower (take n s).
Proof. unfold take, lower. apply firstn_map. Qed.

(** *** [startswith] and [contains] *)

Lemma startswith_iff (s p : str) :
  startswith s p = true <-> exists t, s = p ++ t.
Proof.
  revert s; induction p as [|x p IH]; intros s; simpl.
  - split; [intros _; now exists s | intros _; now destruct s].
  - destruct s as [|y s]; simpl.
    + split; [discriminate | intros [t Ht]; discriminate].
    + rewrite andb_true_iff, eqb_char_true, IH. split.
      * intros [-> [t ->]]. now exists t.
      * intros [t Ht]. injection Ht as -> ->. split; [reflexivity | now exists t].
Qed.

Lemma contains_iff (s sub : str) :
  contains s sub = true <-> exists a b, s = a ++ sub ++ b.
Proof.
  induction s as [|c s IH]; cbn [contains].
  - rewrite orb_false_r, startswith_iff. split.
    + intros [t Ht]. now exists [], t.
    + intros [a [b H]]. destruct a; [now exists b | discriminate].
  - rewrite orb_true_iff, startswith_iff, IH. split.
    + intros [[t Ht] | [a [b H]]].
      * now exists [], t.
      * exists (c :: a), b. now rewrite H.
    + intros [[|x a] [b H]].
      * left. now exists b.
      * right. injection H as -> ->. now exists a, b.
Qed.

Lemma contains_app_l (s t sub : str) :
  contains s sub = true -> contains (s ++ t) sub = true.
Proof.
  rewrite !contains_iff. intros [a [b ->]].
  exists a, (b ++ t). now rewrite <- !app_assoc.
Qed.

Lemma contains_app_r (s t sub : str) :
  contains t sub = true -> contains (s ++ t) sub = true.
Proof.
  rewrite !contains_iff. intros [a [b ->]].
  exists (s ++ a), b. now rewrite <- !app_assoc.
Qed.

Lemma contains_any_iff (s : str) (ks : list str) :
  contains_any s ks = true <-> exists k, In k ks /\ contains s k = true.
Proof. unfold contains_any. apply existsb_exists. Qed.

Lemma contains_any_app_l (s t : str) (ks : list str) :
  contains_any s ks = true -> contains_any (s ++ t) ks = true.
Proof.
  rewrite !contains_any_iff. intros [k [Hk H]].
  exists k. split; [assumption | now apply contains_app_l].
Qed.

Lemma contains_any_app_r (s t : str) (ks : list str) :
  contains_any t ks = true -> contains_any (s ++ t) ks = true.
Proof.
  rewrite !contains_any_iff. intros [k [Hk H]].
  exists k. split; [assumption | now apply contains_app_r].
Qed.

Lemma contains_rev (s sub : str) :
  contains (rev s) (rev sub) = contains s sub.
Proof.
  apply eq_true_iff_eq. rewrite !contains_iff. split.
  - intros [a [b H]]. exists (rev b), (rev a).
    apply (f_equal (@rev ascii)) in H.
    rewrite rev_involutive, !rev_app_distr, rev_involutive in H.
    now rewrite H, <- app_assoc.
  - intros [a [b ->]]. exists (rev b), (rev a).
    now rewrite !rev_app_distr, <- app_assoc.
Qed.


(** *** [strip] *)

Lemma nonblank_app (a b : str) : nonblank (a ++ b) = nonblank a || nonblank b.
Proof. apply existsb_app. Qed.

Lemma nonblank_rev (s : str) : nonblank (rev s) = nonblank s.
Proof.
  induction s as [|c s IH]; [reflexivity|].
  simpl. rewrite nonblank_app, IH. simpl.
  rewrite orb_false_r. apply orb_comm.
Qed.

Lemma nonblank_lower (s : str) : nonblank (lower s) = nonblank s.
Proof.
  induction s as [|c s IH]; [reflexivity|].
  simpl. now rewrite lower_char_isspace, IH.
Qed.

Lemma nonblank_lstrip (s : str) : nonblank (lstrip s) = nonblank s.
Proof.
  induction s as [|c s IH]; [reflexivity|].
  simpl. destruct (isspace_char c) eqn:E; simpl; [exact IH | now rewrite E].
Qed.

Lemma lstrip_nil (s : str) : lstrip s = [] <-> nonblank s = false.
Proof.
  induction s as [|c s IH]; simpl; [tauto|].
  destruct (isspace_char c); simpl; [exact IH | split; discriminate].
Qed.

Lemma nonblank_strip (s : str) : nonblank (strip s) = nonblank s.
Proof.
  unfold strip, rstrip.
  now rewrite nonblank_rev, nonblank_lstrip, nonblank_rev, nonblank_lstrip.
Qed.

Lemma strip_nil (s : str) : strip s = [] <-> nonblank s = false.
Proof.
  unfold strip, rstrip. split.
  - intros H. apply (f_equal (@rev ascii)) in H.
    rewrite rev_involutive in H. simpl in H.
    apply lstrip_nil in H. now rewrite nonblank_rev, nonblank_lstrip in H.
  - intros H.
    assert (E : lstrip (rev (lstrip s)) = []).
    { apply lstrip_nil. now rewrite nonblank_rev, nonblank_lstrip. }
    now rewrite E.
Qed.

Lemma strip_nonempty (s : str) : nonblank s = true -> strip s <> [].
Proof. intros H E. apply strip_nil in E. congruence. Qed.

Lemma nonempty_nonblank_strip (s : str) (c : ascii) (r : str) :
  strip s = c :: r -> nonblank (c :: r) = true.
Proof.
  intros E. rewrite <- E, nonblank_strip.
  destruct (nonblank s) eqn:N; [reflexivity|].
  apply strip_nil in N. congruence.
Qed.

Lemma contains_nonblank (s k : str) :
  contains s k = true -> nonblank k = true -> nonblank s = true.
Proof.
  rewrite contains_iff. intros [a [b ->]] H.
  now rewrite !nonblank_app, H, orb_true_r.
Qed.

Lemma contains_lstrip (s k : str) (c : ascii) (k' : str) :
  k = c :: k' -> isspace_char c = false ->
  contains (lstrip s) k = contains s k.
Proof.
  intros -> Hc. induction s as [|x s IH]; [reflexivity|].
  cbn [lstrip]. destruct (isspace_char x) eqn:Ex; [|reflexivity].
  rewrite IH. cbn [contains startswith].
  destruct (eqb_char c x) eqn:Ecx; [|reflexivity].
  apply eqb_char_true in Ecx. congruence.
Qed.

Lemma tight_first (k : str) :
  tight k = true -> exists c k', k = c :: k' /\ isspace_char c = false.
Proof.
  unfold tight. destruct k as [|c k']; [discriminate|].
  intros H. apply andb_true_iff in H as [H _].
  exists c, k'. split; [reflexivity | now apply negb_true_iff].
Qed.

Lemma tight_rev (k : str) : tight (rev k) = tight k.
Proof. unfold tight. rewrite rev_involutive. apply andb_comm. Qed.

Lemma contains_strip (s k : str) :
  tight k = true -> contains (strip s) k = contains s k.
Proof.
  intros Hk. unfold strip, rstrip.
  destruct (tight_first k Hk) as [c [k' [Ek Hc]]].
  assert (Hr : tight (rev k) = true) by now rewrite tight_rev.
  destruct (tight_first (rev k) Hr) as [d [r [Er Hd]]].
  rewrite <- (rev_involutive k) at 1.
  rewrite contains_rev, (contains_lstrip _ _ _ _ Er Hd), contains_rev.
  exact (contains_lstrip s _ _ _ Ek Hc).
Qed.

Lemma contains_any_strip (s : str) (ks : list str) :
  forallb tight ks = true ->
  contains_any (strip s) ks = contains_any s ks.
Proof.
  intros H. unfold contains_any.
  induction ks as [|k ks IH]; [reflexivity|].
  simpl in H. apply andb_true_iff in H as [Hk Hks].
  simpl. now rewrite contains_strip, IH.
Qed.

(** *** [split] on white space *)

Lemma split_ws_from_pending (cur s : str) :
  cur <> [] -> 1 <= length (split_ws_from cur s).
Proof.
  revert cur; induction s as [|c s IH]; intros cur Hcur; simpl.
  - destruct cur; [congruence | simpl; lia].
  - destruct (isspace_char c).
    + destruct cur; [congruence | simpl; lia].
    + apply IH. discriminate.
Qed.

Lemma split_ws_from_nonblank (cur s : str) :
  nonblank s = true -> 1 <= length (split_ws_from cur s).
Proof.
  revert cur; induction s as [|c s IH]; intros cur H; simpl in *.
  - discriminate.
  - destruct (isspace_char c); simpl in H.
    + destruct cur; [now apply IH | simpl; lia].
    + apply split_ws_from_pending. discriminate.
Qed.

Lemma split_ws_nonblank (s : str) :
  nonblank s = true -> 1 <= length (split_ws s).
Proof. apply split_ws_from_nonblank. Qed.

Lemma split_ws_from_app (cur a b : str) :
  length (split_ws_from cur a) <= length (split_ws_from cur (a ++ b)).
Proof.
  revert cur; induction a as [|c a IH]; intros cur; simpl.
  - destruct cur as [|x cur]; simpl; [lia|].
    apply split_ws_from_pending. discriminate.
  - destruct (isspace_char c).
    + destruct cur; simpl; [apply IH | apply le_n_S, IH].
    + apply IH.
Qed.

Lemma split_ws_app (a b : str) :
  length (split_ws a) <= length (split_ws (a ++ b)).
Proof. apply split_ws_from_app. Qed.

(** *** [replace] *)

Lemma nonblank_replace (s old new : str) :
  nonblank new = true -> nonblank s = true ->
  nonblank (replace s old new) = true.
Proof.
  intros Hnew. unfold replace.
  induction s as [|c s IH]; intros H; [discriminate|].
  cbn [replace_from].
  destruct (startswith (c :: s) old).
  - now rewrite nonblank_app, Hnew.
  - simpl in *. destruct (negb (isspace_char c)); [reflexivity|].
    now apply IH.
Qed.

End PyFacts.

Import PyFacts.

(* ================================================================= *)
(** ** The search-need decision *)

Module SearchNeedFacts.

Import TerminalAI.

(** No phrase of the rule tables starts or ends with white space, so the
    [strip] applied to the query does not change which phrases occur. *)
Lemma rule_tables_tight :
  forallb tight immediate_skip = true
  /\ forallb tight command_patterns = true
  /\ forallb tight priority_triggers = true.
Proof. repeat split; reflexivity. Qed.

Lemma needs_search_skip (q : str) :
  contains_any (lower q) immediate_skip = true -> needs_search q = false.
Proof.
  intros H. unfold needs_search.
  destruct rule_tables_tight as [T _].
  now rewrite (contains_any_strip _ _ T), H.
Qed.

Lemma needs_search_command (q : str) :
  contains_any (lower q) command_patterns = true -> needs_search q = false.
Proof.
  intros H. unfold needs_search.
  destruct rule_tables_tight as [T1 [T2 _]].
  rewrite (contains_any_strip _ _ T1), (contains_any_strip _ _ T2), H.
  now destruct (contains_any (lower q) immediate_skip).
Qed.

(** C1, the claim as written fails: the query "hello latest" contains the
    priority trigger "latest" and the skip phrase "hello", and the answer
    is false, because the skip tier is consulted first. *)
Lemma needs_search_hello_latest :
  contains (lower (lit "hello latest")) (lit "latest") = true
  /\ contains (lower (lit "hello latest")) (lit "hello") = true
  /\ needs_search (lit "hello latest") = false
  /\ ~ (forall q : str,
          contains_any (lower q) priority_triggers = true ->
          needs_search q = true).
Proof.
  repeat split; try reflexivity.
  intros H. specialize (H (lit "hello latest") eq_refl).
  vm_compute in H. discriminate.
Qed.

(** C1, amended: for a query that contains a priority trigger (matched
    in the lowercased query), [needs_search] answers true exactly when the
    query contains neither an immediate-skip phrase nor a command keyword;
    with a skip phrase such as "hello" next to "latest" it answers false. *)
Theorem needs_search_priority_trigger (q : str)
  (Htrigger : contains_any (lower q) priority_triggers = true) :
  needs_search q
  = negb (contains_any (lower q) immediate_skip
          || contains_any (lower q) command_patterns).
Proof.
  unfold needs_search.
  destruct rule_tables_tight as [T1 [T2 T3]].
  rewrite (contains_any_strip _ _ T1), (contains_any_strip _ _ T2),
    (contains_any_strip _ _ T3), Htrigger.
  destruct (contains_any (lower q) immediate_skip); [reflexivity|].
  now destruct (contains_any (lower q) command_patterns).
Qed.

Lemma needs_search_priority_trigger_witness :
  contains_any (lower (lit "latest prices")) priority_triggers = true
  /\ needs_search (lit "latest prices") = true.
Proof.
  split; [reflexivity|].
  exact (eq_trans
           (needs_search_priority_trigger (lit "latest prices") eq_refl)
           eq_refl).
Defined.

End SearchNeedFacts.

(* ================================================================= *)
(** ** The response-cache key *)

Module CacheKeyFacts.

Import TerminalAI.

Lemma take_app_exact (A : Type) (n : nat) (a b : list A) :
  length a = n -> take n (a ++ b) = a.
Proof.
  intros <-. unfold take.
  rewrite firstn_app, Nat.sub_diag, firstn_all. simpl. apply app_nil_r.
Qed.

(** C7: when the lowercased "prompt:context" is longer than 100
    characters the key has exactly 100 characters, and they are the first
    100 characters of that lowercased string; any combination whose
    lowercased concatenation starts with the same 100 characters gets the
    same key. *)
Theorem generate_cache_key_truncation (prompt context : str)
  (Hlong : 100 < length (lower (prompt ++ lit ":" ++ context))) :
  length (_generate_cache_key prompt context) = 100
  /\ (exists rest,
        lower (prompt ++ lit ":" ++ context)
        = _generate_cache_key prompt context ++ rest)
  /\ (forall prompt' context' head rest rest' : str,
        length head = 100 ->
        lower (prompt ++ lit ":" ++ context) = head ++ rest ->
        lower (prompt' ++ lit ":" ++ context') = head ++ rest' ->
        _generate_cache_key prompt context = head
        /\ _generate_cache_key prompt' context' = head).
Proof.
  unfold _generate_cache_key. split; [|split].
  - unfold take. rewrite length_firstn. lia.
  - exists (skipn 100 (lower (prompt ++ lit ":" ++ context))).
    unfold take. now rewrite firstn_skipn.
  - intros prompt' context' head rest rest' Hhead E E'.
    rewrite E, E'. split; now apply take_app_exact.
Qed.

Lemma generate_cache_key_truncation_witness :
  100 < length (lower ((repeat "a"%char 100 ++ lit "bc") ++ lit ":" ++ lit "ctx"))
  /\ length (_generate_cache_key (repeat "a"%char 100 ++ lit "bc") (lit "ctx")) = 100
  /\ _generate_cache_key (repeat "A"%char 100 ++ lit "zzz") (lit "other")
     = _generate_cache_key (repeat "a"%char 100 ++ lit "bc") (lit "ctx").
Proof.
  assert (H : 100 < length (lower ((repeat "a"%char 100 ++ lit "bc") ++ lit ":" ++ lit "ctx")))
    by (vm_compute; lia).
  destruct (generate_cache_key_truncation (repeat "a"%char 100 ++ lit "bc") (lit "ctx") H)
    as [Hlen [_ Hcollide]].
  split; [exact H|]. split; [exact Hlen|].
  destruct (Hcollide (repeat "A"%char 100 ++ lit "zzz") (lit "other")
              (repeat "a"%char 100) (lit "bc:ctx") (lit "zzz:other")
              (repeat_length _ _) eq_refl eq_refl) as [K K'].
  now rewrite K, K'.
Defined.

End CacheKeyFacts.

(* ================================================================= *)
(** ** The personality selector *)

Module PersonalityFacts.

Import PersonalitySystem.

Lemma dict_get_in (V : Type) (d : list (str * V)) (k : str) (v : V) :
  dict_get d k = Some v -> In (k, v) d.
Proof.
  induction d as [|[k' v'] d IH]; simpl; [discriminate|].
  destruct (eqb_str k' k) eqn:E.
  - apply eqb_str_true in E. intros H. injection H as ->. left. congruence.
  - intros H. right. now apply IH.
Qed.

Lemma dict_mem_keys (V : Type) (d : list (str * V)) (k : str) :
  dict_mem d k = true <-> In k (map fst d).
Proof.
  unfold dict_mem. induction d as [|[k' v'] d IH]; simpl.
  - split; [discriminate | tauto].
  - destruct (eqb_str k' k) eqn:E.
    + apply eqb_str_true in E. split; [now left | reflexivity].
    + rewrite IH. split; [now right|].
      intros [H | H]; [|exact H].
      subst k'. now rewrite eqb_str_refl in E.
Qed.

Lemma dict_mem_item (V : Type) (d : list (str * V)) (k : str) :
  dict_mem d k = true -> exists v, dict_item d k = Ok v /\ In (k, v) d.
Proof.
  unfold dict_mem, dict_item. destruct (dict_get d k) as [v|] eqn:E.
  - intros _. exists v. split; [reflexivity | now apply dict_get_in].
  - discriminate.
Qed.

(** A draw from a non-empty sequence succeeds. *)
Lemma choice_ok (A : Type) (seq : list A) (g : Random.rng) :
  seq <> [] -> exists a,
    Random.choice seq g = (Ok a, snd (Random.next g)) /\ In a seq.
Proof.
  intros H. unfold Random.choice.
  destruct (Random.next g) as [x g'] eqn:E. simpl.
  destruct seq as [|a0 seq']; [congruence|].
  set (seq := a0 :: seq') in *.
  destruct (nth_error seq (N.to_nat (x mod N.of_nat (length seq)))) as [a|] eqn:Hn.
  - exists a. split; [reflexivity | now apply nth_error_In in Hn].
  - exfalso. apply nth_error_None in Hn.
    assert (L : (N.of_nat (length seq) <> 0)%N) by (subst seq; simpl; lia).
    pose proof (N.mod_lt x _ L). lia.
Qed.

Ltac draw :=
  repeat match goal with
    | |- context [Random.random_lt ?a ?b ?g] =>
        let flag := fresh "flag" in
        let g' := fresh "g" in
        destruct (Random.random_lt a b g) as [flag g']; destruct flag
    | |- context [Random.choice ?l ?g] =>
        let a := fresh "pick" in
        let E := fresh "E" in
        destruct (choice_ok _ l g ltac:(discriminate)) as [a [E _]];
        rewrite E; clear E
    | |- _ => progress cbn [bind fst snd]
    end.

Lemma add_humor_ok (response : str) (g : Random.rng) :
  exists out, fst (add_humor response g) = Ok out.
Proof. unfold add_humor. draw; eexists; reflexivity. Qed.

Lemma make_professional_ok (response : str) (g : Random.rng) :
  exists out, fst (make_professional response g) = Ok out.
Proof. unfold make_professional. draw; eexists; reflexivity. Qed.

Lemma add_energy_ok (response : str) (g : Random.rng) :
  exists out, fst (add_energy response g) = Ok out.
Proof. unfold add_energy. draw; eexists; reflexivity. Qed.

Lemma add_wisdom_ok (response : str) (g : Random.rng) :
  exists out, fst (add_wisdom response g) = Ok out.
Proof. unfold add_wisdom. draw; eexists; reflexivity. Qed.

Lemma table_entries (k : str) (p : personality) :
  In (k, p) personalities -> speech_patterns p <> [] /\ greeting p <> [].
Proof.
  intros H. simpl in H.
  repeat (destruct H as [H | H]; [injection H as <- <-; split; discriminate|]).
  contradiction.
Qed.

Lemma apply_personality_ok (self : t) (response : str) (g : Random.rng) :
  dict_mem personalities (current_personality self) = true ->
  exists out, fst (apply_personality_to_response self response g) = Ok out.
Proof.
  intros H. unfold apply_personality_to_response.
  destruct (dict_mem_item _ _ _ H) as [p [-> Hin]].
  destruct (table_entries _ _ Hin) as [Hsp _].
  destruct (Random.random_lt 3 10 g) as [[] g1].
  - destruct (choice_ok _ _ g1 Hsp) as [a [-> _]]. cbn [bind].
    repeat match goal with
      | |- context [if ?b then _ else _] => destruct b
      end;
      auto using add_humor_ok, make_professional_ok, add_energy_ok, add_wisdom_ok.
    eexists; reflexivity.
  - repeat match goal with
      | |- context [if ?b then _ else _] => destruct b
      end;
      auto using add_humor_ok, make_professional_ok, add_energy_ok, add_wisdom_ok.
    eexists; reflexivity.
Qed.

Lemma set_personality_cases (self : t) (name : str) :
  set_personality self name = (false, self)
  \/ (set_personality self name
      = (true, {| current_personality := lower name |})
      /\ dict_mem personalities (lower name) = true).
Proof.
  unfold set_personality.
  destruct (dict_mem personalities (lower name)); [right | left]; auto.
Qed.

Lemma set_personality_keeps_key (self : t) (name : str) :
  dict_mem personalities (current_personality self) = true ->
  dict_mem personalities
    (current_personality (snd (set_personality self name))) = true.
Proof.
  intros H. destruct (set_personality_cases self name) as [-> | [-> Hk]];
    assumption.
Qed.

Lemma after_set_personality_key (names : list str) :
  dict_mem personalities
    (current_personality (after_set_personality names)) = true.
Proof.
  unfold after_set_personality.
  assert (G : forall self,
             dict_mem personalities (current_personality self) = true ->
             dict_mem personalities
               (current_personality
                  (fold_left (fun s n => snd (set_personality s n)) names self))
             = true).
  { induction names as [|n names IH]; intros self H; simpl; [exact H|].
    apply IH. now apply set_personality_keeps_key. }
  apply G. reflexivity.
Qed.

(** C8, the claim as written fails: "Funny" is not a key of the table,
    yet the call succeeds, because the name is lowercased before it is
    looked up. *)
Lemma set_personality_mixed_case :
  dict_mem personalities (lit "Funny") = false
  /\ set_personality init (lit "Funny")
     = (true, {| current_personality := lit "funny" |})
  /\ ~ (forall (self : t) (name : str),
          dict_mem personalities name = false ->
          set_personality self name = (false, self)).
Proof.
  repeat split; try reflexivity.
  intros H. specialize (H init (lit "Funny") eq_refl).
  vm_compute in H. discriminate.
Qed.

(** C8, amended: for every name whose lowercased form is not a key of the
    personality table, [set_personality] returns false and leaves the
    instance unchanged; after [set_personality("energetic")] has
    succeeded, [set_personality("bogus")] returns false and the active
    personality is still "energetic". *)
Theorem set_personality_rejects_unknown (self : t) (name : str)
  (Hunknown : dict_mem personalities (lower name) = false) :
  set_personality self name = (false, self)
  /\ (let energetic := snd (set_personality init (lit "energetic")) in
      fst (set_personality init (lit "energetic")) = true
      /\ set_personality energetic (lit "bogus") = (false, energetic)
      /\ current_personality energetic = lit "energetic").
Proof.
  split.
  - unfold set_personality. now rewrite Hunknown.
  - repeat split.
Qed.

Lemma set_personality_rejects_unknown_witness :
  dict_mem personalities (lower (lit "Bogus")) = false
  /\ set_personality init (lit "Bogus") = (false, init).
Proof.
  split; [reflexivity|].
  exact (proj1 (set_personality_rejects_unknown init (lit "Bogus") eq_refl)).
Defined.

(** C9: after any sequence of [set_personality] calls on a fresh
    instance the active personality is a key of the five-entry table;
    each call either rejects the name or stores its lowercased form, which
    is a key; so [get_current_personality_info],
    [apply_personality_to_response] and [get_personality_greeting] never
    raise on the table lookup, whatever the random draws are. *)
Theorem current_personality_always_in_table (names : list str) :
  let self := after_set_personality names in
  length personalities = 5
  /\ current_personality init = lit "friendly"
  /\ dict_mem personalities (current_personality self) = true
  /\ (forall name : str,
        set_personality self name = (false, self)
        \/ (set_personality self name
            = (true, {| current_personality := lower name |})
            /\ dict_mem personalities (lower name) = true))
  /\ (exists info,
        get_current_personality_info self = Ok info
        /\ info_name info = current_personality self)
  /\ (forall (response : str) (g : Random.rng),
        exists out,
          fst (apply_personality_to_response self response g) = Ok out)
  /\ (forall g : Random.rng,
        exists out, fst (get_personality_greeting self g) = Ok out).
Proof.
  intros self.
  pose proof (after_set_personality_key names) as Hkey. fold self in Hkey.
  split; [reflexivity|]. split; [reflexivity|]. split; [exact Hkey|].
  split; [intros name; apply set_personality_cases|].
  split; [|split].
  - unfold get_current_personality_info.
    destruct (dict_mem_item _ _ _ Hkey) as [p [-> _]]. cbn [bind].
    eexists. split; reflexivity.
  - intros response g. now apply apply_personality_ok.
  - intros g. unfold get_personality_greeting.
    destruct (dict_mem_item _ _ _ Hkey) as [p [-> Hin]].
    destruct (table_entries _ _ Hin) as [_ Hgr].
    destruct (choice_ok _ _ g Hgr) as [a [-> _]]. now exists a.
Qed.

End PersonalityFacts.

(* ================================================================= *)
(** ** The emotion classifier *)

Module EmotionFacts.

Import EmotionDetector.

(** [max_from] returns the first item of maximal key. *)
Lemma max_from_first_max (A : Type) (key : A -> Z) (l : list A) (b : A) :
  exists pre post,
    b :: l = pre ++ max_from key b l :: post
    /\ (forall x, In x pre -> (key x < key (max_from key b l))%Z)
    /\ (forall x, In x post -> (key x <= key (max_from key b l))%Z).
Proof.
  revert b; induction l as [|x l IH]; intros b; simpl.
  - exists [], []. repeat split; simpl; intros; contradiction.
  - destruct (key b <? key x)%Z eqn:E.
    + apply Z.ltb_lt in E.
      destruct (IH x) as [pre [post [Hsplit [Hpre Hpost]]]].
      set (r := max_from key x l) in *.
      assert (Hx : (key x <= key r)%Z).
      { destruct pre as [|y pre].
        - injection Hsplit as Hr _. rewrite <- Hr. lia.
        - injection Hsplit as Hy _. subst y.
          specialize (Hpre x (or_introl eq_refl)). lia. }
      exists (b :: pre), post. repeat split.
      * simpl. now rewrite Hsplit.
      * intros y [<- | Hy]; [lia | now apply Hpre].
      * exact Hpost.
    + apply Z.ltb_ge in E.
      destruct (IH b) as [pre [post [Hsplit [Hpre Hpost]]]].
      set (r := max_from key b l) in *.
      destruct pre as [|y pre].
      * injection Hsplit as Hr Hl. exists [], (x :: post). repeat split.
        -- simpl. rewrite <- Hr. now rewrite Hl.
        -- intros ? [].
        -- intros z [<- | Hz]; [rewrite <- Hr; lia | now apply Hpost].
      * injection Hsplit as Hy Hl. subst y.
        exists (b :: x :: pre), post. repeat split.
        -- simpl. now rewrite Hl.
        -- intros z [<- | [<- | Hz]].
           ++ apply Hpre. now left.
           ++ specialize (Hpre b (or_introl eq_refl)). lia.
           ++ apply Hpre. now right.
        -- exact Hpost.
Qed.

(** A split of the kept part of a filtered, mapped list comes from a
    split of the list itself. *)
Lemma map_filter_split (A B : Type) (f : A -> B) (keep : A -> bool)
  (t : list A) (pre : list B) (y : B) (post : list B) :
  map f (filter keep t) = pre ++ y :: post ->
  exists before e after,
    t = before ++ e :: after /\ keep e = true /\ f e = y
    /\ map f (filter keep before) = pre
    /\ map f (filter keep after) = post.
Proof.
  revert pre; induction t as [|a t IH]; intros pre H; simpl in H.
  - destruct pre; discriminate.
  - destruct (keep a) eqn:Ka.
    + destruct pre as [|p pre]; simpl in H.
      * injection H as Hy Hpost.
        exists [], a, t. repeat split; assumption.
      * injection H as Hp Hrest.
        destruct (IH pre Hrest) as [before [e [after [-> [Ke [Fe [Hb Ha]]]]]]].
        exists (a :: before), e, after. repeat split; try assumption.
        simpl. rewrite Ka. simpl. now rewrite Hp, Hb.
    + destruct (IH pre H) as [before [e [after [-> [Ke [Fe [Hb Ha]]]]]]].
      exists (a :: before), e, after. repeat split; try assumption.
      simpl. now rewrite Ka.
Qed.

Lemma emotion_scores_of_filter (table : list (str * list str)) (tl : str) :
  emotion_scores_of table tl
  = map (fun e => (fst e, score tl (snd e)))
        (filter (fun e => (0 <? score tl (snd e))%Z) table).
Proof.
  induction table as [|[emotion keywords] table IH]; simpl; [reflexivity|].
  destruct (0 <? score tl keywords)%Z; simpl; now rewrite IH.
Qed.

Lemma keywords_nonblank :
  forallb (fun e => forallb nonblank (snd e)) emotion_keywords = true.
Proof. reflexivity. Qed.

(** A keyword that occurs in the lowercased text witnesses a word. *)
Lemma keyword_gives_word (text : str) (entry : str * list str) (kw : str) :
  In entry emotion_keywords -> In kw (snd entry) ->
  contains (lower text) kw = true -> 1 <= length (split_ws text).
Proof.
  intros He Hk Hc. apply split_ws_nonblank.
  rewrite <- nonblank_lower. apply (contains_nonblank _ _ Hc).
  pose proof keywords_nonblank as H.
  rewrite forallb_forall in H. specialize (H entry He).
  rewrite forallb_forall in H. now apply H.
Qed.

Lemma score_positive (tl : str) (keywords : list str) :
  (0 < score tl keywords)%Z ->
  exists kw, In kw keywords /\ contains tl kw = true.
Proof.
  unfold score. intros H.
  destruct (filter (contains tl) keywords) as [|kw r] eqn:E;
    [simpl in H; lia|].
  assert (Hin : In kw (filter (contains tl) keywords))
    by (rewrite E; now left).
  apply filter_In in Hin. now exists kw.
Qed.


Lemma scored_row_gives_word (text : str) (entry : str * list str) :
  In entry emotion_keywords -> (0 < category_score text entry)%Z ->
  1 <= length (split_ws text).
Proof.
  intros He Hs. destruct (score_positive _ _ Hs) as [kw [Hk Hc]].
  exact (keyword_gives_word text entry kw He Hk Hc).
Qed.

Lemma min_one_bounds (c : Q) : (0 <= c)%Q -> (0 <= min_one c)%Q /\ (min_one c <= 1)%Q.
Proof.
  intros H. unfold min_one. destruct (Qle_bool c 1) eqn:E.
  - split; [exact H | now apply Qle_bool_iff].
  - split; [discriminate | apply Qle_refl].
Qed.

Lemma ratio_nonneg (sc : Z) (wc : nat) :
  (0 <= sc)%Z ->
  (0 <= inject_Z sc / inject_Z (Z.of_nat wc) * 10)%Q.
Proof.
  intros H. apply Qmult_le_0_compat; [|discriminate].
  unfold Qdiv. apply Qmult_le_0_compat.
  - change 0%Q with (inject_Z 0). now rewrite <- Zle_Qle.
  - apply Qinv_le_0_compat.
    change 0%Q with (inject_Z 0). rewrite <- Zle_Qle. lia.
Qed.

(** The shape of every answer: either no row scores, or the answer is
    built from the first row of maximal score. *)
Lemma detect_emotion_cases (text : str) :
  ((forall entry, In entry emotion_keywords ->
                  (category_score text entry <= 0)%Z)
   /\ detect_emotion text = Ok (lit "neutral", (1 # 2)%Q))
  \/ (exists before entry after,
        emotion_keywords = before ++ entry :: after
        /\ (0 < category_score text entry)%Z
        /\ (forall x, In x before ->
                      (category_score text x < category_score text entry)%Z)
        /\ (forall x, In x after ->
                      (category_score text x <= category_score text entry)%Z)
        /\ detect_emotion text
           = Ok (fst entry,
                 min_one (inject_Z (category_score text entry)
                          / inject_Z (Z.of_nat (length (split_ws text)))
                          * 10)%Q)).
Proof.
  unfold detect_emotion, emotion_scores.
  rewrite emotion_scores_of_filter.
  set (tl := lower text).
  set (f := fun e : str * list str => (fst e, score tl (snd e))).
  set (keep := fun e : str * list str => (0 <? score tl (snd e))%Z).
  destruct (map f (filter keep emotion_keywords)) as [|first rest] eqn:E.
  - left. split; [|reflexivity].
    intros entry He. unfold category_score. fold tl.
    destruct (keep entry) eqn:K.
    + assert (Hin : In (f entry) (map f (filter keep emotion_keywords))).
      { apply in_map, filter_In. now split. }
      rewrite E in Hin. contradiction.
    + unfold keep in K. apply Z.ltb_ge in K. exact K.
  - right.
    destruct (max_from_first_max _ snd rest first)
      as [pre [post [Hsplit [Hpre Hpost]]]].
    set (primary := max_from snd first rest) in *.
    rewrite <- E in Hsplit.
    destruct (map_filter_split _ _ f keep _ _ _ _ Hsplit)
      as [before [entry [after [Htable [Ke [Fe [Hb Ha]]]]]]].
    assert (Hs : (0 < category_score text entry)%Z)
      by (unfold keep in Ke; now apply Z.ltb_lt in Ke).
    assert (Hsnd : snd primary = category_score text entry)
      by (rewrite <- Fe; reflexivity).
    assert (Hfst : fst primary = fst entry)
      by (rewrite <- Fe; reflexivity).
    exists before, entry, after. split; [exact Htable|]. split; [exact Hs|].
    split; [|split].
    + intros x Hx. destruct (keep x) eqn:K.
      * rewrite <- Hsnd. change (category_score text x) with (snd (f x)).
        apply Hpre. rewrite <- Hb. apply in_map, filter_In. now split.
      * unfold keep in K. apply Z.ltb_ge in K.
        unfold category_score at 1. fold tl. lia.
    + intros x Hx. destruct (keep x) eqn:K.
      * rewrite <- Hsnd. change (category_score text x) with (snd (f x)).
        apply Hpost. rewrite <- Ha. apply in_map, filter_In. now split.
      * unfold keep in K. apply Z.ltb_ge in K.
        unfold category_score at 1. fold tl. lia.
    + assert (Hin : In entry emotion_keywords)
        by (rewrite Htable; apply in_elt).
      pose proof (scored_row_gives_word text entry Hin Hs) as Hw.
      unfold confidence_of.
      destruct (length (split_ws text)) as [|n] eqn:W; [lia|].
      cbn [bind]. now rewrite Hsnd, Hfst.
Qed.

Import Occurrences.







(** C10: [detect_emotion] never raises: a keyword that occurs in the
    lowercased text forces at least one white-space separated word, so the
    division is never by zero, and the confidence returned lies in the
    closed interval from 0 to 1. *)
Theorem detect_emotion_total (text : str) :
  (forall entry kw, In entry emotion_keywords -> In kw (snd entry) ->
                    contains (lower text) kw = true ->
                    1 <= length (split_ws text))
  /\ exists label confidence,
       detect_emotion text = Ok (label, confidence)
       /\ (0 <= confidence)%Q /\ (confidence <= 1)%Q.
Proof.
  split; [intros entry kw; apply keyword_gives_word|].
  destruct (detect_emotion_cases text)
    as [[_ Hneutral] | [before [entry [after [_ [Hs [_ [_ Hd]]]]]]]].
  - exists (lit "neutral"), (1 # 2)%Q. repeat split; [exact Hneutral | |];
      discriminate.
  - eexists _, _. split; [exact Hd|].
    apply min_one_bounds, ratio_nonneg. lia.
Qed.

End EmotionFacts.

(* ================================================================= *)
(** ** The importance score *)

Module ImportanceFacts.

Import ContextMemory.

Lemma word_count_app (a b : str) :
  (10 <? length (split_ws (lower a))) = true ->
  (10 <? length (split_ws (lower (a ++ b)))) = true.
Proof.
  rewrite !Nat.ltb_lt, lower_app.
  pose proof (split_ws_app (lower a) (lower b)). lia.
Qed.

(** C6, the claim as written fails: the personal-information bonus is
    granted once, so a text that already holds such a phrase gains nothing
    from another one. *)
Lemma calculate_importance_saturates :
  In (lit "my name") personal_phrases
  /\ calculate_importance (lit "i am") = 5%Z
  /\ calculate_importance (lit "i am" ++ lit "my name") = 5%Z
  /\ ~ (forall text phrase : str,
          In phrase personal_phrases ->
          (calculate_importance text
           < calculate_importance (text ++ phrase))%Z).
Proof.
  split; [now left|]. split; [reflexivity|]. split; [reflexivity|].
  intros H.
  specialize (H (lit "i am") (lit "my name") (or_introl eq_refl)).
  vm_compute in H. discriminate.
Qed.

(** C6, amended: appending a text that contains a personal-information
    phrase never lowers the importance score, and when the original text
    contains no personal-information phrase the score grows strictly, by
    at least 5. *)
Theorem calculate_importance_personal_suffix (text suffix : str)
  (Hsuffix : contains_any (lower suffix) personal_phrases = true) :
  (calculate_importance text <= calculate_importance (text ++ suffix))%Z
  /\ (contains_any (lower text) personal_phrases = false ->
      (calculate_importance text + 5
       <= calculate_importance (text ++ suffix))%Z
      /\ (calculate_importance text
          < calculate_importance (text ++ suffix))%Z).
Proof.
  unfold calculate_importance.
  assert (P : contains_any (lower (text ++ suffix)) personal_phrases = true)
    by (rewrite lower_app; now apply contains_any_app_r).
  assert (Q : contains (lower text) (lit "?") = true ->
              contains (lower (text ++ suffix)) (lit "?") = true)
    by (rewrite lower_app; apply contains_app_l).
  assert (E : contains_any (lower text) emotional_words = true ->
              contains_any (lower (text ++ suffix)) emotional_words = true)
    by (rewrite lower_app; apply contains_any_app_l).
  assert (H : contains_any (lower text) help_words = true ->
              contains_any (lower (text ++ suffix)) help_words = true)
    by (rewrite lower_app; apply contains_any_app_l).
  pose proof (word_count_app text suffix) as W.
  rewrite P.
  destruct (contains_any (lower text) personal_phrases);
    destruct (contains (lower text) (lit "?"));
    try rewrite (Q eq_refl);
    destruct (contains_any (lower text) emotional_words);
    try rewrite (E eq_refl);
    destruct (contains_any (lower text) help_words);
    try rewrite (H eq_refl);
    destruct (10 <? length (split_ws (lower text)));
    try rewrite (W eq_refl);
    clear;
    repeat match goal with
      | |- context [if ?b then _ else _] => destruct b
      end;
    (split; [lia | intros; try discriminate; split; lia]).
Qed.

Lemma calculate_importance_personal_suffix_witness :
  contains_any (lower (lit " My Name is Ann")) personal_phrases = true
  /\ contains_any (lower (lit "what is up?")) personal_phrases = false
  /\ (calculate_importance (lit "what is up?")
      < calculate_importance (lit "what is up?" ++ lit " My Name is Ann"))%Z.
Proof.
  split; [reflexivity|]. split; [reflexivity|].
  exact (proj2
           (proj2 (calculate_importance_personal_suffix
                     (lit "what is up?") (lit " My Name is Ann") eq_refl)
                  eq_refl)).
Defined.

End ImportanceFacts.

(* ================================================================= *)
(** ** Cache maintenance *)

(** Reading a field through the setters, and nothing else. *)
Ltac fields :=
  cbn [fst snd
       TerminalAI.conversation_context TerminalAI.conversation_memory
       TerminalAI.debug_mode TerminalAI.common_sense
       TerminalAI.emotion_detector TerminalAI.learning_system
       TerminalAI.personality_system TerminalAI.context_memory
       TerminalAI.web_search TerminalAI.translation_language
       TerminalAI.executor_open TerminalAI.response_cache
       TerminalAI.search_cache TerminalAI.last_cache_clear
       TerminalAI.performance_stats TerminalAI.knowledge
       TerminalAI.with_conversation_context
       TerminalAI.with_conversation_memory TerminalAI.with_common_sense
       TerminalAI.with_learning_system TerminalAI.with_personality_system
       TerminalAI.with_context_memory TerminalAI.with_response_cache
       TerminalAI.with_search_cache TerminalAI.with_last_cache_clear
       TerminalAI.with_performance_stats TerminalAI.with_knowledge
       TerminalAI._update_response_time] in *.

Module CacheFacts.

Import TerminalAI.

Lemma dict_set_length (V : Type) (d : list (str * V)) (k : str) (v : V) :
  length (dict_set d k v)
  = if dict_mem d k then length d else S (length d).
Proof.
  unfold dict_mem. induction d as [|[k' v'] d IH]; simpl; [reflexivity|].
  destruct (eqb_str k' k); simpl; [reflexivity|].
  rewrite IH. now destruct (dict_get d k).
Qed.

Lemma dict_set_grows (V : Type) (d : list (str * V)) (k : str) (v : V) :
  length d <= length (dict_set d k v) <= S (length d).
Proof. rewrite dict_set_length. destruct (dict_mem d k); lia. Qed.

(** A look-up or insert through [get_ai_response] never removes an
    entry: the response cache keeps its size or gains one entry and the
    search cache is not touched. *)
Lemma get_ai_response_caches (self : t) (w : world) (prompt context : str) :
  let self' := fst (get_ai_response self w prompt context) in
  length (response_cache self) <= length (response_cache self')
  /\ length (response_cache self') <= S (length (response_cache self))
  /\ search_cache self' = search_cache self
  /\ last_cache_clear self' = last_cache_clear self.
Proof.
  unfold get_ai_response. fields.
  destruct (dict_get (response_cache self) (_generate_cache_key prompt context));
    [fields; repeat split; lia|].
  destruct (_get_system_prompt _); [|fields; repeat split; lia].
  destruct (_call_ollama_with_timeout w a (_prepare_full_prompt prompt context))
    as [[|c r]|]; try (fields; repeat split; lia).
  fields.
  pose proof (dict_set_grows _ (response_cache self)
                (_generate_cache_key prompt context) (c :: r)).
  repeat split; lia.
Qed.

(** The same for [search_web] and the search cache. *)
Lemma search_web_caches (self : t) (w : world) (query : str) :
  let self' := fst (search_web self w query) in
  length (search_cache self) <= length (search_cache self')
  /\ length (search_cache self') <= S (length (search_cache self))
  /\ response_cache self' = response_cache self
  /\ last_cache_clear self' = last_cache_clear self.
Proof.
  unfold search_web.
  destruct (dict_get (search_cache self) _); [fields; repeat split; lia|].
  fields.
  destruct (web_search self); [|fields; repeat split; lia].
  destruct (live_search w (_clean_search_query query)) as [result|];
    [|fields; repeat split; lia].
  destruct result as [|c r]; [fields; repeat split; lia|].
  destruct (negb (contains (lower (c :: r)) (lit "error")));
    [|fields; repeat split; lia].
  fields.
  pose proof (dict_set_grows _ (search_cache self)
                (take 100 (lower (_clean_search_query query))) (c :: r)).
  repeat split; lia.
Qed.

(** C3: the caches are not bounded.  [_clear_old_cache], which holds the
    expiry after 3600 seconds and the size limit of 1000, runs once, at
    load time, on caches that are still empty; [get_ai_response] and
    [search_web] never call it and never remove an entry.  Started at
    second 0 and used two hours later, the instance answers 1001
    different prompts (or runs 1001 different searches) and ends with
    1001 entries in the cache, none of them cleared or trimmed, and a
    further cache-touching call leaves more than 1000. *)
Theorem caches_grow_past_the_cap :
  let w := answering_world 7200 in
  let answered := after_prompts 1001 w (fresh 0) in
  let searched := after_searches 1001 w (fresh 0) in
  (cache_ttl * 1000000
   < Clock.micros (now w) - last_cache_clear (fresh 0))%Z
  /\ length (response_cache answered) = 1001
  /\ length (search_cache searched) = 1001
  /\ 1000 < length (response_cache
                      (fst (get_ai_response answered w (numbered 0) [])))
  /\ 1000 < length (search_cache
                      (fst (search_web searched w (numbered 0)))).
Proof.
  cbv zeta.
  assert (R : length (response_cache
                        (after_prompts 1001 (answering_world 7200) (fresh 0)))
              = 1001) by (vm_compute; reflexivity).
  assert (S : length (search_cache
                        (after_searches 1001 (answering_world 7200) (fresh 0)))
              = 1001) by (vm_compute; reflexivity).
  split; [vm_compute; reflexivity|].
  split; [exact R|]. split; [exact S|]. split.
  - pose proof (get_ai_response_caches
                  (after_prompts 1001 (answering_world 7200) (fresh 0))
                  (answering_world 7200) (numbered 0) []) as [H _].
    rewrite R in H. exact H.
  - pose proof (search_web_caches
                  (after_searches 1001 (answering_world 7200) (fresh 0))
                  (answering_world 7200) (numbered 0)) as [H _].
    rewrite S in H. exact H.
Qed.

End CacheFacts.

(* ================================================================= *)
(** ** Long-term memory retention *)

Module RetentionFacts.

Import ContextMemory.

(** *** The stable descending sort *)

Section Sort.

Context {A : Type} (key : A -> Z).

Lemma insert_desc_perm (x : A) (l : list A) :
  Permutation (insert_desc key x l) (x :: l).
Proof.
  induction l as [|y l IH]; simpl; [reflexivity|].
  destruct (key y <=? key x)%Z; [reflexivity|].
  rewrite IH. apply perm_swap.
Qed.

Lemma sorted_desc_perm (l : list A) : Permutation (sorted_desc key l) l.
Proof.
  induction l as [|x l IH]; simpl; [reflexivity|].
  rewrite insert_desc_perm. now constructor.
Qed.

Lemma sorted_desc_length (l : list A) : length (sorted_desc key l) = length l.
Proof. apply Permutation_length, sorted_desc_perm. Qed.

Lemma insert_desc_sorted (x : A) (l : list A) :
  StronglySorted (desc key) l -> StronglySorted (desc key) (insert_desc key x l).
Proof.
  induction l as [|y l IH]; intros H; simpl.
  - constructor; constructor.
  - inversion H as [|? ? Hl Hy]; subst.
    destruct (key y <=? key x)%Z eqn:E.
    + apply Z.leb_le in E. constructor; [exact H|].
      constructor; [exact E|].
      rewrite Forall_forall in *. intros z Hz.
      specialize (Hy z Hz). unfold desc in *. lia.
    + apply Z.leb_gt in E. constructor; [now apply IH|].
      rewrite Forall_forall in *. intros z Hz.
      apply (Permutation_in _ (insert_desc_perm x l)) in Hz.
      destruct Hz as [<- | Hz]; [unfold desc; lia | now apply Hy].
Qed.

Lemma sorted_desc_sorted (l : list A) :
  StronglySorted (desc key) (sorted_desc key l).
Proof.
  induction l as [|x l IH]; simpl; [constructor|].
  now apply insert_desc_sorted.
Qed.

(** Stability: the items of one key keep their order. *)
Lemma insert_desc_with_key (k : Z) (x : A) (l : list A) :
  StronglySorted (desc key) l ->
  with_key key k (insert_desc key x l) = with_key key k (x :: l).
Proof.
  induction l as [|y l IH]; intros H; [reflexivity|].
  inversion H as [|? ? Hl Hy]; subst.
  cbn [insert_desc]. destruct (key y <=? key x)%Z eqn:E; [reflexivity|].
  apply Z.leb_gt in E.
  unfold with_key in *. cbn [filter] in *. rewrite (IH Hl).
  destruct (key x =? k)%Z eqn:Ex; [|reflexivity].
  destruct (key y =? k)%Z eqn:Ey; [|reflexivity].
  apply Z.eqb_eq in Ex, Ey. lia.
Qed.

Lemma sorted_desc_with_key (k : Z) (l : list A) :
  with_key key k (sorted_desc key l) = with_key key k l.
Proof.
  induction l as [|x l IH]; [reflexivity|].
  cbn [sorted_desc].
  rewrite insert_desc_with_key by apply sorted_desc_sorted.
  unfold with_key in *. cbn [filter]. now rewrite IH.
Qed.

Lemma sorted_split (n : nat) (l : list A) :
  StronglySorted (desc key) l ->
  forall x y, In x (firstn n l) -> In y (skipn n l) -> desc key x y.
Proof.
  revert n; induction l as [|a l IH]; intros n H x y Hx Hy.
  - rewrite firstn_nil in Hx. contradiction.
  - inversion H as [|? ? Hl Ha]; subst.
    destruct n as [|n]; [contradiction|].
    cbn [firstn skipn] in *. destruct Hx as [<- | Hx].
    + rewrite Forall_forall in Ha. apply Ha.
      rewrite <- (firstn_skipn n l). apply in_or_app. now right.
    + now apply (IH n Hl).
Qed.

(** What pruning to the first [n] items of the sorted list keeps. *)
Lemma top_of_sorted (n : nat) (l : list A) :
  let kept := take n (sorted_desc key l) in
  let dropped := skipn n (sorted_desc key l) in
  Permutation (kept ++ dropped) l
  /\ StronglySorted (desc key) kept
  /\ (forall x y, In x kept -> In y dropped -> (key y <= key x)%Z)
  /\ (forall k, with_key key k l
                = with_key key k kept ++ with_key key k dropped).
Proof.
  cbv zeta. unfold take. split; [|split; [|split]].
  - rewrite firstn_skipn. apply sorted_desc_perm.
  - pose proof (sorted_desc_sorted l) as H.
    rewrite <- (firstn_skipn n (sorted_desc key l)) in H.
    clear -H. induction (firstn n (sorted_desc key l)) as [|a f IH];
      [constructor|].
    simpl in H. inversion H as [|? ? Hl Ha]; subst.
    constructor; [now apply IH|].
    rewrite Forall_app in Ha. tauto.
  - intros x y Hx Hy.
    exact (sorted_split n _ (sorted_desc_sorted l) x y Hx Hy).
  - intros k. rewrite <- (sorted_desc_with_key k l).
    unfold with_key. rewrite <- filter_app. now rewrite firstn_skipn.
Qed.

End Sort.

(** *** [add_to_long_term_memory] *)

(** The entry the call appends. *)
Lemma add_appends (self : t) (now : Clock.reading) (q a : str) :
  exists item,
    importance item = Some (calculate_importance q)
    /\ user_input item = q /\ ai_response item = a
    /\ match extract_user_info (user_info (long_term_memory self)) q with
       | Raise e =>
           add_to_long_term_memory self now q a
           = ({| session_memory := session_memory self;
                 long_term_memory :=
                   {| conversations :=
                        conversations (long_term_memory self) ++ [item];
                      user_info := user_info (long_term_memory self);
                      topics := topics (long_term_memory self) |} |},
              Raise e)
       | Ok _ =>
           conversations
             (long_term_memory (fst (add_to_long_term_memory self now q a)))
           = (let convs := conversations (long_term_memory self) ++ [item] in
              if 100 <? length convs
              then take 100 (sorted_desc importance_key convs)
              else convs)
           /\ snd (add_to_long_term_memory self now q a) = Ok tt
       end.
Proof.
  eexists. split; [|split; [|split]]; cycle 3.
  - unfold add_to_long_term_memory.
    destruct (extract_user_info (user_info (long_term_memory self)) q);
      cbn [fst snd long_term_memory conversations];
      [split; reflexivity | reflexivity].
  - reflexivity.
  - reflexivity.
  - reflexivity.
Qed.

(** When the user-information extraction does not raise, the list holds
    at most 100 entries after the call, whatever it held before. *)
Lemma add_bounded_when_ok (self : t) (now : Clock.reading) (q a : str) :
  snd (add_to_long_term_memory self now q a) = Ok tt ->
  length (conversations
            (long_term_memory (fst (add_to_long_term_memory self now q a))))
  <= 100.
Proof.
  destruct (add_appends self now q a) as [item [_ [_ [_ H]]]].
  destruct (extract_user_info (user_info (long_term_memory self)) q).
  - destruct H as [-> _]. intros _. cbv zeta.
    destruct (100 <? length (conversations (long_term_memory self) ++ [item]))
      eqn:E.
    + unfold take. rewrite length_firstn. lia.
    + now apply Nat.ltb_ge in E.
  - rewrite H. discriminate.
Qed.

(** When the call overflows the list without raising, exactly the 100
    first entries of the stable descending sort are kept: they are the
    entries of highest importance, and among entries of equal importance
    the earlier ones of the list are kept, in their order. *)
Lemma add_keeps_top_100 (self : t) (now : Clock.reading) (q a : str) :
  snd (add_to_long_term_memory self now q a) = Ok tt ->
  100 <= length (conversations (long_term_memory self)) ->
  exists item dropped,
    let before := conversations (long_term_memory self) ++ [item] in
    let kept :=
      conversations
        (long_term_memory (fst (add_to_long_term_memory self now q a))) in
    user_input item = q
    /\ length kept = 100
    /\ Permutation (kept ++ dropped) before
    /\ StronglySorted (desc importance_key) kept
    /\ (forall x y, In x kept -> In y dropped ->
                    (importance_key y <= importance_key x)%Z)
    /\ (forall k, with_key importance_key k before
                  = with_key importance_key k kept
                    ++ with_key importance_key k dropped).
Proof.
  intros Hok Hfull.
  destruct (add_appends self now q a) as [item [_ [Hq [_ H]]]].
  destruct (extract_user_info (user_info (long_term_memory self)) q);
    [|rewrite H in Hok; discriminate].
  destruct H as [Hkept _]. cbv zeta in Hkept.
  set (before := conversations (long_term_memory self) ++ [item]) in *.
  assert (L : 100 < length before)
    by (subst before; rewrite length_app; simpl; lia).
  apply Nat.ltb_lt in L. rewrite L in Hkept. apply Nat.ltb_lt in L.
  exists item, (skipn 100 (sorted_desc importance_key before)).
  cbv zeta. fold before. rewrite Hkept.
  destruct (top_of_sorted importance_key 100 before) as [P [S [T K]]].
  split; [exact Hq|]. split.
  - unfold take. rewrite length_firstn, sorted_desc_length. lia.
  - repeat split; assumption.
Qed.

Lemma add_raises_on_bare_name_phrase (info : user_info_t) :
  extract_user_info info (lit "my name is") = Raise IndexError.
Proof. reflexivity. Qed.

(** C4, the code at the failing input: the memory holds 100 entries after
    100 recorded turns; recording the input "my name is" appends the entry,
    raises [IndexError] while parsing the name, and leaves 101 entries
    because the pruning step is never reached; a second such input leaves
    102. *)
Theorem add_to_long_term_memory_skips_pruning :
  let full := after_inserts (map numbered (seq 0 100)) (init None) in
  let once := add_to_long_term_memory full (at_second 0)
                (lit "my name is") (lit "Sure.") in
  let twice := add_to_long_term_memory (fst once) (at_second 0)
                 (lit "my name is") (lit "Sure.") in
  length (conversations (long_term_memory full)) = 100
  /\ snd once = Raise IndexError
  /\ length (conversations (long_term_memory (fst once))) = 101
  /\ snd twice = Raise IndexError
  /\ length (conversations (long_term_memory (fst twice))) = 102.
Proof.
  cbv zeta.
  split; [vm_compute; reflexivity|].
  split; [vm_compute; reflexivity|].
  split; [vm_compute; reflexivity|].
  split; vm_compute; reflexivity.
Qed.

End RetentionFacts.

(* ================================================================= *)
(** ** The reply of the orchestrator *)

Module TransformFacts.

(** Every rewriting stage keeps a reply that has a non-space character
    in that state. *)

Lemma nonblank_prefix (p s : str) :
  nonblank s = true -> nonblank (p ++ s) = true.
Proof. intros H. now rewrite nonblank_app, H, orb_true_r. Qed.

Lemma nonblank_suffix (s p : str) :
  nonblank s = true -> nonblank (s ++ p) = true.
Proof. intros H. now rewrite nonblank_app, H. Qed.

Ltac keep_nonblank :=
  solve
    [ assumption
    | reflexivity
    | apply nonblank_replace; [reflexivity | keep_nonblank]
    | apply nonblank_suffix; keep_nonblank
    | apply nonblank_prefix; keep_nonblank
    | rewrite nonblank_lower; keep_nonblank ].

Import PersonalitySystem.
Import PersonalityFacts.

Lemma add_humor_nonblank (response out : str) (g : Random.rng) :
  fst (add_humor response g) = Ok out ->
  nonblank response = true -> nonblank out = true.
Proof.
  unfold add_humor. intros H N. revert H.
  draw; intros H; injection H as <-; keep_nonblank.
Qed.

Lemma make_professional_nonblank (response out : str) (g : Random.rng) :
  fst (make_professional response g) = Ok out ->
  nonblank response = true -> nonblank out = true.
Proof.
  unfold make_professional. intros H N. revert H.
  draw; intros H; injection H as <-; keep_nonblank.
Qed.

Lemma add_energy_nonblank (response out : str) (g : Random.rng) :
  fst (add_energy response g) = Ok out ->
  nonblank response = true -> nonblank out = true.
Proof.
  unfold add_energy. intros H N. revert H.
  destruct (negb (endswith_any response (map lit ["!"%string; "?"%string; "."%string])));
    draw; intros H; injection H as <-; keep_nonblank.
Qed.

Lemma add_wisdom_nonblank (response out : str) (g : Random.rng) :
  fst (add_wisdom response g) = Ok out ->
  nonblank response = true -> nonblank out = true.
Proof.
  unfold add_wisdom. intros H N. revert H.
  draw; intros H; injection H as <-; keep_nonblank.
Qed.

Lemma apply_personality_nonblank (self : t) (response out : str)
  (g : Random.rng) :
  fst (apply_personality_to_response self response g) = Ok out ->
  nonblank response = true -> nonblank out = true.
Proof.
  unfold apply_personality_to_response. intros H N. revert H.
  destruct (dict_item personalities (current_personality self)) as [p|];
    [|discriminate].
  destruct (Random.random_lt 3 10 g) as [[] g1].
  - destruct (Random.choice (speech_patterns p) g1) as [[pattern|] g2];
      cbn [bind]; [|discriminate].
    assert (N' : nonblank (pattern ++ lit " " ++ response) = true)
      by keep_nonblank.
    repeat match goal with
      | |- context [if ?b then _ else _] => destruct b
      end;
      eauto using add_humor_nonblank, make_professional_nonblank,
        add_energy_nonblank, add_wisdom_nonblank.
    intros H. now injection H as <-.
  - repeat match goal with
      | |- context [if ?b then _ else _] => destruct b
      end;
      eauto using add_humor_nonblank, make_professional_nonblank,
        add_energy_nonblank, add_wisdom_nonblank.
    intros H. now injection H as <-.
Qed.

Import CommonSense.

Lemma check_logical_consistency_nonblank (query response : str) :
  nonblank response = true ->
  nonblank (check_logical_consistency query response) = true.
Proof.
  intros N. unfold check_logical_consistency.
  destruct (_ && _); [keep_nonblank|].
  destruct (_ || _); [|exact N].
  apply nonblank_suffix. reflexivity.
Qed.

Lemma add_practical_context_nonblank (query response : str) :
  nonblank response = true ->
  nonblank (add_practical_context query response) = true.
Proof.
  intros N. unfold add_practical_context.
  repeat match goal with
    | |- nonblank (if ?b then _ else _) = true => destruct b
    | |- nonblank (_ ++ lit _) = true => apply nonblank_suffix
    end; exact N.
Qed.

Lemma apply_safety_filter_nonblank (response : str) :
  nonblank response = true -> nonblank (apply_safety_filter response) = true.
Proof.
  intros N. unfold apply_safety_filter.
  destruct (contains_any _ _); [|exact N].
  apply nonblank_prefix, nonblank_suffix, N.
Qed.

Lemma add_contextual_awareness_nonblank (now : Clock.reading)
  (query response : str) :
  nonblank response = true ->
  nonblank (add_contextual_awareness now query response) = true.
Proof.
  intros N. unfold add_contextual_awareness.
  repeat match goal with
    | |- nonblank (if ?b then _ else _) = true => destruct b
    | |- nonblank (lit _ ++ _) = true => apply nonblank_prefix
    end; exact N.
Qed.

Lemma enhance_with_common_sense_nonblank (self : CommonSense.t)
  (now : Clock.reading) (query response : str) :
  nonblank response = true ->
  nonblank (snd (enhance_with_common_sense self now query response)) = true.
Proof.
  intros N.
  unfold enhance_with_common_sense, check_contradictions, apply_common_sense.
  cbn [snd].
  apply add_contextual_awareness_nonblank, apply_safety_filter_nonblank,
    add_practical_context_nonblank, check_logical_consistency_nonblank, N.
Qed.

End TransformFacts.

Module ResponseFacts.

Import TerminalAI.
Import TransformFacts.

Lemma dict_set_in (V : Type) (d : list (str * V)) (k k' : str) (v v' : V) :
  In (k', v') (dict_set d k v) -> In (k', v') d \/ v' = v.
Proof.
  induction d as [|[k0 v0] d IH]; simpl.
  - intros [H | []]. right. congruence.
  - destruct (eqb_str k0 k); simpl.
    + intros [H | H]; [right; congruence | left; now right].
    + intros [H | H]; [left; now left|].
      destruct (IH H); [left; now right | now right].
Qed.

Lemma cache_ok_set (cache : list (str * str)) (k v : str) :
  cache_ok cache -> nonblank v = true -> cache_ok (dict_set cache k v).
Proof.
  intros C N k' v' H. destruct (dict_set_in _ _ _ _ _ _ H) as [H' | ->].
  - exact (C k' v' H').
  - exact N.
Qed.

Lemma fallback_nonblank (prompt : str) :
  nonblank (_get_fallback_response prompt) = true.
Proof.
  unfold _get_fallback_response.
  destruct (find _ fallback_responses) as [entry|] eqn:E; [|reflexivity].
  apply find_some in E. destruct E as [E _]. simpl in E.
  repeat (destruct E as [<- | E]; [reflexivity|]). contradiction.
Qed.

(** *** The backend call *)

Lemma get_ai_response_sound (self : t) (w : world) (prompt context : str) :
  sound self ->
  nonblank (snd (get_ai_response self w prompt context)) = true
  /\ sound (fst (get_ai_response self w prompt context)).
Proof.
  intros [C L]. unfold get_ai_response. fields.
  destruct (dict_get (response_cache self) (_generate_cache_key prompt context))
    as [hit|] eqn:G.
  - fields. split; [|split; assumption].
    apply PersonalityFacts.dict_get_in in G. exact (C _ _ G).
  - destruct (_get_system_prompt _) as [system_prompt|].
    + unfold _call_ollama_with_timeout.
      destruct (ollama_chat w system_prompt (_prepare_full_prompt prompt context))
        as [content|].
      * destruct (strip content) as [|c r] eqn:S.
        -- fields. split; [apply fallback_nonblank | split; assumption].
        -- pose proof (nonempty_nonblank_strip _ _ _ S) as N.
           fields. split; [exact N|]. split; [|exact L].
           fields. now apply cache_ok_set.
      * fields. split; [apply fallback_nonblank | split; assumption].
    + fields. split; [apply fallback_nonblank | split; assumption].
Qed.

Lemma search_web_sound (self : t) (w : world) (query : str) :
  sound self -> sound (fst (search_web self w query)).
Proof.
  intros [C L]. unfold search_web.
  destruct (dict_get (search_cache self) _); [split; assumption|].
  fields. destruct (web_search self); [|split; assumption].
  destruct (live_search w (_clean_search_query query)) as [[|c r]|];
    try (split; assumption).
  destruct (negb _); split; assumption.
Qed.

(** *** The enhancement pipeline *)

Lemma max_by_in (A : Type) (key : A -> Z) (l : list A) (best : A) :
  max_by key l = Ok best -> In best l.
Proof.
  destruct l as [|x l]; [discriminate|]. unfold max_by.
  intros H. injection H as <-.
  destruct (EmotionFacts.max_from_first_max A key l x) as [pre [post [E _]]].
  rewrite E. apply in_elt.
Qed.

Lemma personalized_nonblank (ls : LearningSystem.t) (query : str)
  (c : ascii) (p : str) :
  learned_ok ls ->
  LearningSystem.get_personalized_response ls query = Ok (Some (c :: p)) ->
  nonblank (c :: p) = true.
Proof.
  intros L. unfold LearningSystem.get_personalized_response.
  destruct (dict_get _ _) as [entries|] eqn:G.
  - destruct (max_by LearningSystem.success_key entries) as [best|] eqn:M;
      cbn [bind]; [|discriminate].
    intros H. injection H as H. rewrite <- H.
    apply PersonalityFacts.dict_get_in in G. apply max_by_in in M.
    exact (L _ _ _ G M).
  - destruct (LearningSystem.pref_name _) as [[|c0 nm]|]; try discriminate.
    intros H. injection H as <- <-. reflexivity.
Qed.

Lemma enhance_stages_sound (self : t) (w : world) (g : Random.rng)
  (query raw_response : str) :
  sound self -> nonblank raw_response = true ->
  sound (fst (fst (enhance_stages self w g query raw_response)))
  /\ (forall response,
        snd (enhance_stages self w g query raw_response) = Ok response ->
        nonblank response = true).
Proof.
  intros [C L] N. unfold enhance_stages, attr.
  destruct (personality_system self) as [ps|];
    [|split; [split; assumption | discriminate]].
  destruct (PersonalitySystem.apply_personality_to_response ps raw_response g)
    as [[styled|] g1] eqn:P;
    [|split; [split; assumption | discriminate]].
  assert (N1 : nonblank styled = true).
  { apply (apply_personality_nonblank ps raw_response styled g);
      [now rewrite P | exact N]. }
  assert (F : forall (s : t) (response : str),
             sound s -> nonblank response = true ->
             forall out,
               (response <-
                  (if _should_add_memory_context query
                   then
                     cm <- match context_memory s with
                           | Some a => Ok a
                           | None => Raise AttributeError
                           end ;;
                     match ContextMemory.get_relevant_context cm query with
                     | [] => Ok response
                     | _ => Ok (lit "Based on our conversation, " ++ response)
                     end
                   else Ok response) ;;
                ls <- match learning_system s with
                      | Some a => Ok a
                      | None => Raise AttributeError
                      end ;;
                personalized <-
                  LearningSystem.get_personalized_response ls query ;;
                match personalized with
                | Some (c :: p) =>
                    if length (c :: p) <? length response
                    then Ok (c :: p) else Ok response
                | _ => Ok response
                end) = Ok out ->
               nonblank out = true).
  { intros s response [Cs Ls] Nr out.
    assert (Nf : forall framed,
               (if _should_add_memory_context query
                then
                  cm <- match context_memory s with
                        | Some a => Ok a
                        | None => Raise AttributeError
                        end ;;
                  match ContextMemory.get_relevant_context cm query with
                  | [] => Ok response
                  | _ => Ok (lit "Based on our conversation, " ++ response)
                  end
                else Ok response) = Ok framed ->
               nonblank framed = true).
    { intros framed. destruct (_should_add_memory_context query).
      - destruct (context_memory s) as [cm|]; cbn [bind]; [|discriminate].
        destruct (ContextMemory.get_relevant_context cm query);
          intros H; injection H as <-; [exact Nr | reflexivity].
      - intros H. now injection H as <-. }
    destruct (if _should_add_memory_context query then _ else _)
      as [framed|]; cbn [bind]; [|discriminate].
    specialize (Nf framed eq_refl).
    destruct (learning_system s) as [ls|] eqn:Els; cbn [bind]; [|discriminate].
    destruct (LearningSystem.get_personalized_response ls query)
      as [personalized|] eqn:G; cbn [bind]; [|discriminate].
    destruct personalized as [[|c p]|];
      try (intros H; now injection H as <-).
    pose proof (personalized_nonblank ls query c p (Ls ls eq_refl) G) as Np.
    destruct (length (c :: p) <? length framed);
      intros H; now injection H as <-. }
  destruct (_needs_common_sense_check query styled).
  - destruct (common_sense self) as [cs|];
      [|split; [split; assumption | discriminate]].
    destruct (CommonSense.enhance_with_common_sense cs (now w) query styled)
      as [cs' checked] eqn:E.
    assert (N2 : nonblank checked = true).
    { pose proof (enhance_with_common_sense_nonblank cs (now w) query styled N1)
        as H. now rewrite E in H. }
    cbn [fst snd]. split; [split; assumption|].
    intros response. apply F; [split; assumption | exact N2].
  - cbn [fst snd]. split; [split; assumption|].
    intros response. apply F; [split; assumption | exact N1].
Qed.

Lemma enhance_ai_response_sound (self : t) (w : world) (g : Random.rng)
  (query raw_response : str) :
  sound self -> nonblank raw_response = true ->
  sound (fst (fst (enhance_ai_response self w g query raw_response)))
  /\ nonblank (snd (enhance_ai_response self w g query raw_response)) = true.
Proof.
  intros S N. unfold enhance_ai_response.
  destruct (negb (emotion_detector self)); [split; assumption|].
  destruct (EmotionDetector.detect_emotion query) as [[emotion confidence]|];
    [|split; assumption].
  assert (K : forall (g0 : Random.rng) (raw : str),
             nonblank raw = true ->
             sound (fst (fst match enhance_stages self w g0 query raw with
                             | (self0, g1, Ok response) =>
                                 (self0, g1, strip response)
                             | (self0, g1, Raise _) => (self0, g1, raw)
                             end))
             /\ nonblank (snd match enhance_stages self w g0 query raw with
                              | (self0, g1, Ok response) =>
                                  (self0, g1, strip response)
                              | (self0, g1, Raise _) => (self0, g1, raw)
                              end) = true).
  { intros g0 raw Nraw.
    destruct (enhance_stages_sound self w g0 query raw S Nraw) as [S' R].
    destruct (enhance_stages self w g0 query raw) as [[s1 g1] [response|]];
      cbn [fst snd] in *; split; try assumption.
    rewrite nonblank_strip. now apply R. }
  destruct (negb (Qle_bool confidence (85 # 100))).
  - destruct (EmotionDetector.get_empathetic_response emotion confidence g)
      as [[empathy|] g1]; cbn [bind]; [|split; assumption].
    apply K. now apply nonblank_prefix, nonblank_prefix.
  - apply K. exact N.
Qed.

(** *** One turn *)

Lemma apply_translation_id (self : t) (response : str) :
  _apply_translation self response = response.
Proof.
  unfold _apply_translation, translate_response.
  destruct (translation_language self) as [language|]; [|reflexivity].
  now destruct (negb _).
Qed.

Lemma save_enhanced_memory_jobs (self : t) (query response : str) :
  nonblank response = true ->
  jobs_ok (save_enhanced_memory self query response).
Proof.
  intros N job. unfold save_enhanced_memory.
  destruct (executor_open self); [|intros []].
  destruct (context_memory self); [destruct (learning_system self)|];
    simpl; intros H;
    repeat (destruct H as [<- | H]; [exact N|]); contradiction.
Qed.

Lemma finish_response_sound (self : t) (w : world) (g : Random.rng)
  (query raw_response : str) :
  sound self -> nonblank raw_response = true ->
  sound (instance_after (finish_response self w g query raw_response))
  /\ jobs_ok (jobs_of (finish_response self w g query raw_response))
  /\ nonblank (reply (finish_response self w g query raw_response)) = true.
Proof.
  intros S N. unfold finish_response, instance_after, jobs_of, reply.
  destruct (enhance_ai_response_sound self w g query raw_response S N)
    as [S' N'].
  destruct (enhance_ai_response self w g query raw_response)
    as [[self' g'] response].
  cbn [fst snd] in *. rewrite apply_translation_id.
  split; [|split].
  - destruct S' as [C L]. split; assumption.
  - now apply save_enhanced_memory_jobs.
  - exact N'.
Qed.

Lemma handle_direct_response_sound (self : t) (w : world) (g : Random.rng)
  (query : str) :
  sound self ->
  sound (fst (fst (fst (_handle_direct_response self w g query))))
  /\ jobs_ok (snd (fst (_handle_direct_response self w g query)))
  /\ (forall response,
        snd (_handle_direct_response self w g query) = Ok response ->
        nonblank response = true).
Proof.
  intros S. unfold _handle_direct_response, attr.
  destruct (context_memory self) as [cm|];
    [|cbn [fst snd]; split; [exact S | split; [intros ? [] | discriminate]]].
  match goal with
  | |- context [get_ai_response self w ?p ?c] =>
      destruct (get_ai_response_sound self w p c S) as [N S'];
      destruct (get_ai_response self w p c) as [self' raw]
  end.
  cbn [fst snd] in *.
  destruct (finish_response_sound self' w g query raw S' N) as [S2 [J2 N2]].
  unfold instance_after, jobs_of, reply in *.
  destruct (finish_response self' w g query raw) as [[[s2 g2] jobs] response].
  cbn [fst snd] in *. split; [exact S2|]. split; [exact J2|].
  intros r H. now injection H as <-.
Qed.

Lemma handle_search_response_sound (self : t) (w : world) (g : Random.rng)
  (query : str) :
  sound self ->
  sound (fst (fst (fst (_handle_search_response self w g query))))
  /\ jobs_ok (snd (fst (_handle_search_response self w g query)))
  /\ (forall response,
        snd (_handle_search_response self w g query) = Ok response ->
        nonblank response = true).
Proof.
  intros S. unfold _handle_search_response.
  destruct (enhance_query_with_location query) as [enhanced_query location_info].
  pose proof (search_web_sound self w enhanced_query S) as S1.
  destruct (search_web self w enhanced_query) as [self1 search_results].
  cbn [fst] in S1.
  match goal with
  | |- context [if ?b then _ else _] => destruct b
  end; [now apply handle_direct_response_sound|].
  match goal with
  | |- context [get_ai_response self1 w ?p ?c] =>
      destruct (get_ai_response_sound self1 w p c S1) as [N S'];
      destruct (get_ai_response self1 w p c) as [self' raw]
  end.
  cbn [fst snd] in *.
  destruct (finish_response_sound self' w g query raw S' N) as [S2 [J2 N2]].
  unfold instance_after, jobs_of, reply in *.
  destruct (finish_response self' w g query raw) as [[[s2 g2] jobs] response].
  cbn [fst snd] in *. split; [exact S2|]. split; [exact J2|].
  intros r H. now injection H as <-.
Qed.

Lemma smart_response_sound (self : t) (w : world) (g : Random.rng)
  (query : str) :
  sound self ->
  sound (instance_after (smart_response self w g query))
  /\ jobs_ok (jobs_of (smart_response self w g query))
  /\ nonblank (reply (smart_response self w g query)) = true.
Proof.
  intros S. unfold smart_response, instance_after, jobs_of, reply.
  assert (H : sound (fst (fst (fst
                (if needs_search query
                 then _handle_search_response self w g query
                 else _handle_direct_response self w g query))))
              /\ jobs_ok (snd (fst
                   (if needs_search query
                    then _handle_search_response self w g query
                    else _handle_direct_response self w g query)))
              /\ (forall response,
                    snd (if needs_search query
                         then _handle_search_response self w g query
                         else _handle_direct_response self w g query)
                    = Ok response ->
                    nonblank response = true)).
  { destruct (needs_search query);
      [now apply handle_search_response_sound
      | now apply handle_direct_response_sound]. }
  destruct (if needs_search query then _ else _)
    as [[[s1 g1] jobs] [response|]];
    cbn [fst snd] in *; destruct H as [S1 [J1 N1]];
    (split; [exact S1|]; split; [exact J1|]).
  - now apply N1.
  - apply fallback_nonblank.
Qed.

(** *** The background jobs *)

Lemma learn_from_conversation_ok (ls : LearningSystem.t) (now : Clock.reading)
  (q r : str) (feedback : option str) :
  learned_ok ls -> nonblank r = true ->
  learned_ok (fst (LearningSystem.learn_from_conversation ls now q r feedback)).
Proof.
  intros L N. unfold LearningSystem.learn_from_conversation.
  destruct (LearningSystem.extract_preferences _ q) as [prefs [[]|]];
    cbn [fst]; [|exact L].
  destruct (_ || _); [|exact L].
  unfold LearningSystem.store_successful_response.
  intros key entries e Hin He.
  cbn [LearningSystem.learned_knowledge] in Hin.
  apply dict_set_in in Hin. destruct Hin as [Hin | ->].
  - exact (L key entries e Hin He).
  - apply in_app_or in He. destruct He as [He | [<- | []]]; [|exact N].
    destruct (dict_get (LearningSystem.learned_knowledge ls)
                (take 50 (lower q))) as [old|] eqn:G; [|contradiction].
    apply PersonalityFacts.dict_get_in in G. exact (L _ _ e G He).
Qed.

Lemma run_task_sound (self : t) (now : Clock.reading) (job : task) :
  sound self -> nonblank (job_response job) = true ->
  sound (run_task self now job).
Proof.
  intros [C L] N. destruct job as [q r|q r|q r|q r|q r]; cbn [run_task].
  - split; assumption.
  - split; assumption.
  - destruct (context_memory self); split; assumption.
  - destruct (context_memory self); split; assumption.
  - destruct (learning_system self) as [ls|] eqn:E.
    + split; [exact C|]. fields. intros ls' H. injection H as <-.
      apply learn_from_conversation_ok; [exact (L ls eq_refl) | exact N].
    + split; [exact C|]. intros ls H. rewrite E in H. discriminate.
Qed.

Lemma reachable_sound (c : t * list task) :
  reachable c -> sound (fst c) /\ jobs_ok (snd c).
Proof.
  induction 1 as [self Hcache Hlearned
                 | self pending w g query _ [S J]
                 | self before after job now _ [S J]]; cbn [fst snd] in *.
  - split; [split; [|exact Hlearned] | intros ? []].
    rewrite Hcache. intros ? ? [].
  - destruct (smart_response_sound self w g query S) as [S' [J' _]].
    split; [exact S'|].
    intros job Hin. apply in_app_or in Hin.
    destruct Hin; [now apply J | now apply J'].
  - split.
    + apply run_task_sound; [exact S|]. apply J, in_elt.
    + intros j Hin. apply J. apply in_app_or in Hin.
      apply in_or_app. destruct Hin; [now left | right; now right].
Qed.

(** C2, the claim as written fails: with a learned-knowledge document
    whose response for "x" is a single space, the query "x" is answered
    with the empty string, whether the backend answers or fails: the
    stored response replaces the reply because it is shorter, and the
    final [strip] empties it. *)
Lemma smart_response_empty_reply :
  let self :=
    init (at_second 0) None (Some blank_knowledge) None None None in
  reply (smart_response self (answering_world 0) steady (lit "x")) = []
  /\ reply (smart_response self (failing_world 0) steady (lit "x")) = [].
Proof. split; vm_compute; reflexivity. Qed.

(** C2, amended: in every configuration the program reaches by itself
    from a start with an empty response cache and a learned-knowledge
    store that holds no blank response (in particular from a first start
    without persisted documents), [smart_response] returns a non-empty
    text, one that has a non-space character, for every query, whatever
    the backend, the search client and the random source do; what a
    collaborator or an enhancement step raises is caught and answered with
    the raw or the fallback response. *)
Theorem smart_response_never_empty (self : t) (pending : list task)
  (Hreach : reachable (self, pending))
  (w : world) (g : Random.rng) (query : str) :
  reply (smart_response self w g query) <> []
  /\ nonblank (reply (smart_response self w g query)) = true.
Proof.
  destruct (reachable_sound _ Hreach) as [S _]. cbn [fst] in S.
  destruct (smart_response_sound self w g query S) as [_ [_ N]].
  split; [|exact N].
  intros E. rewrite E in N. discriminate.
Qed.

Lemma fresh_unfold (seconds : Z) :
  response_cache (fresh seconds) = []
  /\ learning_system (fresh seconds)
     = Some (LearningSystem.init None None None).
Proof.
  unfold fresh, init, _clear_old_cache. fields.
  cbn [Clock.micros at_second]. rewrite Z.sub_diag. split; reflexivity.
Qed.

Lemma fresh_reachable (seconds : Z) : reachable (fresh seconds, []).
Proof.
  destruct (fresh_unfold seconds) as [C L].
  apply reach_start; [exact C|].
  intros ls H. rewrite L in H. injection H as <-. intros key entries e [].
Qed.

Lemma smart_response_never_empty_witness :
  reachable (fresh 0, [])
  /\ reply (smart_response (fresh 0) (failing_world 0) steady
              (lit "latest news today")) <> [].
Proof.
  split; [apply fresh_reachable|].
  exact (proj1 (smart_response_never_empty (fresh 0) [] (fresh_reachable 0)
                  (failing_world 0) steady (lit "latest news today"))).
Defined.

End ResponseFacts.

(* ================================================================= *)
(** ** Dictionaries *)

Module DictFacts.

Lemma dict_get_set_same (V : Type) (d : list (str * V)) (k : str) (v : V) :
  dict_get (dict_set d k v) k = Some v.
Proof.
  induction d as [|[k0 v0] d IH]; simpl.
  - now rewrite eqb_str_refl.
  - destruct (eqb_str k0 k) eqn:E; simpl; now rewrite E.
Qed.

Lemma dict_get_set_other (V : Type) (d : list (str * V)) (k k' : str) (v : V) :
  k' <> k -> dict_get (dict_set d k v) k' = dict_get d k'.
Proof.
  intros N. induction d as [|[k0 v0] d IH]; simpl.
  - destruct (eqb_str k k') eqn:E; [|reflexivity].
    apply eqb_str_true in E. congruence.
  - destruct (eqb_str k0 k) eqn:E; simpl.
    + apply eqb_str_true in E. subst k0.
      destruct (eqb_str k k') eqn:E'; [|reflexivity].
      apply eqb_str_true in E'. congruence.
    + now rewrite IH.
Qed.

End DictFacts.

Import DictFacts.


(* ================================================================= *)
(** ** Bounded buffers *)

Module BufferFacts.

Import Histories.

Lemma last_n_all (A : Type) (n : nat) (l : list A) :
  length l <= n -> last_n n l = l.
Proof.
  intros H. unfold last_n.
  replace (length l - n) with 0 by lia. reflexivity.
Qed.

Lemma last_n_length (A : Type) (n : nat) (l : list A) :
  length (last_n n l) = Nat.min n (length l).
Proof. unfold last_n. rewrite length_skipn. lia. Qed.

Lemma last_n_suffix (A : Type) (n : nat) (l : list A) :
  suffix_of (last_n n l) l.
Proof.
  exists (firstn (length l - n) l). unfold last_n.
  now rewrite firstn_skipn.
Qed.

Lemma last_n_app_r (A : Type) (n : nat) (a b : list A) :
  n <= length b -> last_n n (a ++ b) = last_n n b.
Proof.
  intros H. unfold last_n. rewrite length_app.
  replace (length a + length b - n) with (length a + (length b - n)) by lia.
  rewrite skipn_app.
  replace (length a + (length b - n) - length a) with (length b - n) by lia.
  rewrite skipn_all2 by lia. reflexivity.
Qed.

Lemma last_n_push (A : Type) (n : nat) (l : list A) (x : A) :
  1 <= n -> last_n n (last_n n l ++ [x]) = last_n n (l ++ [x]).
Proof.
  intros Hn. destruct (Nat.le_gt_cases (length l) n) as [H | H].
  - now rewrite (last_n_all _ n l H).
  - rewrite <- (firstn_skipn (length l - n) l) at 2.
    rewrite <- app_assoc. symmetry. apply last_n_app_r.
    rewrite length_app, last_n_length. simpl. lia.
Qed.

Lemma suffix_of_trans (A : Type) (a b c : list A) :
  suffix_of a b -> suffix_of b c -> suffix_of a c.
Proof.
  intros [d1 ->] [d2 ->]. exists (d2 ++ d1). now rewrite app_assoc.
Qed.

Lemma suffix_of_push (A : Type) (a b : list A) (x : A) :
  suffix_of a b -> suffix_of (a ++ [x]) (b ++ [x]).
Proof. intros [d ->]. exists d. now rewrite app_assoc. Qed.

(** *** The session memory *)

Lemma add_to_session_memory_last_20 (self : ContextMemory.t) (t : turn) :
  ContextMemory.session_memory
    (after_session_turns [t] self)
  = last_n 20 (ContextMemory.session_memory self ++ [session_entry t]).
Proof.
  destruct t as [[now q] a].
  unfold after_session_turns, ContextMemory.add_to_session_memory, session_entry.
  cbn [fold_left ContextMemory.session_memory
       ContextMemory.get_current_session_id].
  match goal with
  | |- (if 20 <? length ?l then _ else _) = _ =>
      destruct (20 <? length l) eqn:E; [reflexivity|]
  end.
  apply Nat.ltb_ge in E. symmetry. now apply last_n_all.
Qed.

Lemma after_session_turns_history (turns : list turn) (self : ContextMemory.t)
  (history : list ContextMemory.session_item) :
  ContextMemory.session_memory self = last_n 20 history ->
  ContextMemory.session_memory (after_session_turns turns self)
  = last_n 20 (history ++ map session_entry turns).
Proof.
  revert self history; induction turns as [|t turns IH]; intros self history H.
  - simpl. now rewrite app_nil_r.
  - change (after_session_turns (t :: turns) self)
      with (after_session_turns turns (after_session_turns [t] self)).
    rewrite (IH _ (history ++ [session_entry t])).
    + now rewrite <- app_assoc.
    + rewrite add_to_session_memory_last_20, H. apply last_n_push. lia.
Qed.

(** X1: After any sequence of turns added to a session that starts empty, the
    session memory holds exactly the entries of the 20 most recent turns,
    in their order; so it never holds more than 20 entries, and the
    long-term store is not touched. *)
Theorem session_memory_keeps_last_20
  (loaded : option ContextMemory.long_term) (turns : list turn) :
  let self := after_session_turns turns (ContextMemory.init loaded) in
  ContextMemory.session_memory self = last_n 20 (map session_entry turns)
  /\ length (ContextMemory.session_memory self) = Nat.min 20 (length turns)
  /\ ContextMemory.long_term_memory self
     = ContextMemory.long_term_memory (ContextMemory.init loaded).
Proof.
  cbv zeta.
  assert (H : ContextMemory.session_memory
                (after_session_turns turns (ContextMemory.init loaded))
              = last_n 20 (map session_entry turns)).
  { apply (after_session_turns_history turns (ContextMemory.init loaded) []).
    reflexivity. }
  split; [exact H|]. split.
  - now rewrite H, last_n_length, length_map.
  - generalize (ContextMemory.init loaded). clear H.
    induction turns as [|[[now q] a] turns IH]; intros self; [reflexivity|].
    simpl. now rewrite IH.
Qed.

(** *** Buffers that are cut back when they overflow *)

Section Cut.

Context {A : Type} (cap keep : nat).

Lemma push_suffix (l : list A) (x : A) : suffix_of (push_cut cap keep l x) (l ++ [x]).
Proof.
  unfold push_cut. destruct (cap <? length (l ++ [x]));
    [apply last_n_suffix | now exists []].
Qed.

Lemma push_bound (l : list A) (x : A) :
  keep <= cap -> length (push_cut cap keep l x) <= cap.
Proof.
  intros H. unfold push_cut. destruct (cap <? length (l ++ [x])) eqn:E.
  - rewrite last_n_length. lia.
  - now apply Nat.ltb_ge in E.
Qed.

Lemma push_newest (l : list A) (x : A) :
  1 <= keep -> exists kept, push_cut cap keep l x = kept ++ [x].
Proof.
  intros H. unfold push_cut. destruct (cap <? length (l ++ [x])).
  - unfold last_n. rewrite length_app. simpl.
    replace (length l + 1 - keep) with (length l - (keep - 1)) by lia.
    rewrite skipn_app.
    replace (length l - (keep - 1) - length l) with 0 by lia.
    now exists (skipn (length l - (keep - 1)) l).
  - now exists l.
Qed.

Lemma fold_push_suffix (xs : list A) (l : list A) :
  suffix_of (fold_left (push_cut cap keep) xs l) (l ++ xs).
Proof.
  revert l; induction xs as [|x xs IH]; intros l; simpl.
  - exists []. now rewrite app_nil_r.
  - apply (suffix_of_trans _ _ (push_cut cap keep l x ++ xs)); [apply IH|].
    destruct (push_suffix l x) as [d E].
    exists d. rewrite app_assoc, <- E. now rewrite <- app_assoc.
Qed.

Lemma fold_push_last (front : list A) (x : A) (l : list A) :
  keep <= cap -> 1 <= keep ->
  length (fold_left (push_cut cap keep) (front ++ [x]) l) <= cap
  /\ exists kept, fold_left (push_cut cap keep) (front ++ [x]) l = kept ++ [x].
Proof.
  intros H1 H2. rewrite fold_left_app. simpl.
  split; [now apply push_bound | now apply push_newest].
Qed.

End Cut.

Lemma after_context_updates_fold (exchanges : list (str * str))
  (self : TerminalAI.t) :
  TerminalAI.conversation_context (after_context_updates exchanges self)
  = fold_left (push_cut 20 15)
      (map context_line exchanges) (TerminalAI.conversation_context self).
Proof.
  revert self; induction exchanges as [|[q r] exchanges IH]; intros self;
    [reflexivity|].
  simpl. rewrite IH. reflexivity.
Qed.

(** X2: The rolling conversation context is a tail of the history of "Q/A"
    lines: after any sequence of updates it is a suffix of the old context
    followed by the new lines, and once an update has been made it holds
    at most 20 lines and ends with the line of the latest exchange. *)
Theorem conversation_context_is_recent_tail (self : TerminalAI.t)
  (exchanges : list (str * str)) :
  let context :=
    TerminalAI.conversation_context (after_context_updates exchanges self) in
  suffix_of context
    (TerminalAI.conversation_context self ++ map context_line exchanges)
  /\ (forall front latest,
        exchanges = front ++ [latest] ->
        length context <= 20
        /\ exists kept, context = kept ++ [context_line latest]).
Proof.
  cbv zeta. rewrite after_context_updates_fold. split.
  - apply (fold_push_suffix 20 15).
  - intros front latest ->. rewrite map_app. simpl.
    apply (fold_push_last 20 15); lia.
Qed.

Lemma after_memory_saves_fold (exchanges : list turn) (self : TerminalAI.t) :
  TerminalAI.conversation_memory (after_memory_saves exchanges self)
  = fold_left (push_cut 15 10)
      (map memory_entry exchanges) (TerminalAI.conversation_memory self).
Proof.
  revert self; induction exchanges as [|[[now q] a] exchanges IH]; intros self;
    [reflexivity|].
  simpl. rewrite IH. reflexivity.
Qed.

(** X3: The conversation memory written by [save_to_memory] is a tail of the
    history of exchanges as well: a suffix of the old memory followed by
    the new entries, at most 15 entries once a save has been made, the
    latest exchange last. *)
Theorem conversation_memory_is_recent_tail (self : TerminalAI.t)
  (exchanges : list turn) :
  let memory :=
    TerminalAI.conversation_memory (after_memory_saves exchanges self) in
  suffix_of memory
    (TerminalAI.conversation_memory self ++ map memory_entry exchanges)
  /\ (forall front latest,
        exchanges = front ++ [latest] ->
        length memory <= 15
        /\ exists kept, memory = kept ++ [memory_entry latest]).
Proof.
  cbv zeta. rewrite after_memory_saves_fold. split.
  - apply (fold_push_suffix 15 10).
  - intros front latest ->. rewrite map_app. simpl.
    apply (fold_push_last 15 10); lia.
Qed.

End BufferFacts.

(* ================================================================= *)
(** ** The search-need decision, further *)

Module SearchNeedMoreFacts.

Import TerminalAI.

Lemma lower_char_idem (c : ascii) : lower_char (lower_char c) = lower_char c.
Proof. destruct c as [[] [] [] [] [] [] [] []]; reflexivity. Qed.

Lemma lower_idem (s : str) : lower (lower s) = lower s.
Proof.
  unfold lower. rewrite map_map. apply map_ext. apply lower_char_idem.
Qed.

Lemma contains_char (s : str) (c : ascii) :
  contains s [c] = existsb (eqb_char c) s.
Proof.
  induction s as [|x s IH]; [reflexivity|].
  cbn [contains startswith existsb]. rewrite IH.
  destruct s; now rewrite andb_true_r.
Qed.

Lemma question_mark_lower (c : ascii) :
  eqb_char "?"%char (lower_char c) = eqb_char "?"%char c.
Proof. destruct c as [[] [] [] [] [] [] [] []]; reflexivity. Qed.

Lemma contains_question_lower (s : str) :
  contains (lower s) (lit "?") = contains s (lit "?").
Proof.
  change (lit "?") with ["?"%char]. rewrite !contains_char.
  unfold lower. induction s as [|c s IH]; [reflexivity|].
  cbn [map existsb]. now rewrite question_mark_lower, IH.
Qed.

Lemma lstrip_blank_prefix (p s : str) :
  nonblank p = false -> lstrip (p ++ s) = lstrip s.
Proof.
  induction p as [|c p IH]; intros H; [reflexivity|].
  simpl in H. apply orb_false_iff in H as [Hc Hp].
  apply negb_false_iff in Hc. simpl. rewrite Hc. now apply IH.
Qed.

Lemma lstrip_app_nonblank (s t : str) :
  nonblank s = true -> lstrip (s ++ t) = lstrip s ++ t.
Proof.
  induction s as [|c s IH]; intros H; [discriminate|].
  simpl in *. destruct (isspace_char c); [now apply IH | reflexivity].
Qed.

Lemma strip_blank_padding (before s after : str) :
  nonblank before = false -> nonblank after = false ->
  strip (before ++ s ++ after) = strip s.
Proof.
  intros Hb Ha. unfold strip, rstrip.
  rewrite (lstrip_blank_prefix before _ Hb).
  destruct (nonblank s) eqn:N.
  - rewrite (lstrip_app_nonblank s after N), rev_app_distr.
    rewrite lstrip_blank_prefix; [reflexivity|].
    now rewrite nonblank_rev.
  - assert (E1 : lstrip (s ++ after) = []).
    { apply lstrip_nil. now rewrite nonblank_app, N, Ha. }
    assert (E2 : lstrip s = []) by now apply lstrip_nil.
    now rewrite E1, E2.
Qed.

(** X4: The decision ignores white space around the query and the case of
    its letters: padding the query with white space on either side, or
    changing the case of its letters, never changes what [needs_search]
    answers. *)
Theorem needs_search_ignores_padding_and_case (before query after : str)
  (Hbefore : nonblank before = false) (Hafter : nonblank after = false) :
  needs_search (before ++ query ++ after) = needs_search query
  /\ (forall other, lower other = lower query ->
                    needs_search other = needs_search query).
Proof.
  split; [|intros other H; unfold needs_search;
           now rewrite H, <- (contains_question_lower other), H,
             contains_question_lower].
  - unfold needs_search.
    rewrite !lower_app, strip_blank_padding by now rewrite nonblank_lower.
    rewrite <- (contains_strip (before ++ query ++ after) (lit "?"))
      by reflexivity.
    rewrite (strip_blank_padding before query after Hbefore Hafter).
    now rewrite (contains_strip query (lit "?")) by reflexivity.
Qed.

Lemma needs_search_ignores_padding_and_case_witness :
  nonblank (lit "  ") = false
  /\ needs_search (lit "  " ++ lit "Weather in Paris" ++ lit "  ")
     = needs_search (lit "Weather in Paris")
  /\ needs_search (lit "WEATHER IN paris")
     = needs_search (lit "Weather in Paris").
Proof.
  split; [reflexivity|].
  destruct (needs_search_ignores_padding_and_case
              (lit "  ") (lit "Weather in Paris") (lit "  ")
              eq_refl eq_refl) as [H1 H2].
  split; [exact H1 | exact (H2 (lit "WEATHER IN paris") eq_refl)].
Defined.

End SearchNeedMoreFacts.

(* ================================================================= *)
(** ** What the uses of the instance leave in the caches *)

Module CacheFrameFacts.

Import TerminalAI.
Import Runs.

Lemma keeps_refl (d : list (str * str)) : keeps d d.
Proof. intros k v H. exact H. Qed.

Lemma keeps_trans (a b c : list (str * str)) :
  keeps a b -> keeps b c -> keeps a c.
Proof. intros H1 H2 k v H. now apply H2, H1. Qed.

Lemma keeps_set_new (d : list (str * str)) (k v : str) :
  dict_get d k = None -> keeps d (dict_set d k v).
Proof.
  intros Hmiss k' v' H. rewrite dict_get_set_other; [exact H|].
  intros ->. congruence.
Qed.

Lemma get_ai_response_keeps (self : t) (w : world) (prompt context : str) :
  keeps (response_cache self)
    (response_cache (fst (get_ai_response self w prompt context)))
  /\ search_cache (fst (get_ai_response self w prompt context))
     = search_cache self.
Proof.
  unfold get_ai_response. fields.
  destruct (dict_get (response_cache self) (_generate_cache_key prompt context))
    eqn:Hget; [split; [apply keeps_refl | reflexivity]|].
  destruct (_get_system_prompt _); [|split; [apply keeps_refl | reflexivity]].
  destruct (_call_ollama_with_timeout w a _) as [[|c r]|];
    try (split; [apply keeps_refl | reflexivity]).
  fields. split; [now apply keeps_set_new | reflexivity].
Qed.

Lemma search_web_keeps (self : t) (w : world) (query : str) :
  keeps (search_cache self) (search_cache (fst (search_web self w query)))
  /\ response_cache (fst (search_web self w query)) = response_cache self.
Proof.
  unfold search_web.
  destruct (dict_get (search_cache self) _) eqn:Hget;
    [split; [apply keeps_refl | reflexivity]|].
  fields.
  destruct (web_search self); [|split; [apply keeps_refl | reflexivity]].
  destruct (live_search w (_clean_search_query query)) as [result|];
    [|split; [apply keeps_refl | reflexivity]].
  destruct result as [|c r]; [split; [apply keeps_refl | reflexivity]|].
  destruct (negb (contains (lower (c :: r)) (lit "error")));
    [|split; [apply keeps_refl | reflexivity]].
  fields. split; [now apply keeps_set_new | reflexivity].
Qed.

Lemma enhance_stages_caches (self : t) (w : world) (g : Random.rng)
  (query raw_response : str) :
  let self' := fst (fst (enhance_stages self w g query raw_response)) in
  response_cache self' = response_cache self
  /\ search_cache self' = search_cache self.
Proof.
  cbv zeta. unfold enhance_stages.
  destruct (attr (personality_system self)) as [ps|]; [|now split].
  destruct (PersonalitySystem.apply_personality_to_response ps raw_response g)
    as [[response|] g1]; [|now split].
  destruct (_needs_common_sense_check query response); [|now split].
  destruct (attr (common_sense self)) as [cs|]; [|now split].
  now destruct (CommonSense.enhance_with_common_sense cs (now w) query response).
Qed.

Lemma enhance_ai_response_caches (self : t) (w : world) (g : Random.rng)
  (query raw_response : str) :
  let self' := fst (fst (enhance_ai_response self w g query raw_response)) in
  response_cache self' = response_cache self
  /\ search_cache self' = search_cache self.
Proof.
  cbv zeta. unfold enhance_ai_response.
  destruct (negb (emotion_detector self)); [now split|].
  destruct (EmotionDetector.detect_emotion query) as [[emotion confidence]|];
    [|now split].
  destruct (negb (Qle_bool confidence (85 # 100))).
  - destruct (EmotionDetector.get_empathetic_response emotion confidence g)
      as [[empathy|] g1]; cbn [bind]; [|now split].
    pose proof (enhance_stages_caches self w g1 query
                  (empathy ++ lit " " ++ raw_response)) as H.
    destruct (enhance_stages self w g1 query _) as [[self1 g2] [r|]];
      exact H.
  - pose proof (enhance_stages_caches self w g query raw_response) as H.
    destruct (enhance_stages self w g query raw_response)
      as [[self1 g2] [r|]]; exact H.
Qed.

Lemma finish_response_caches (self : t) (w : world) (g : Random.rng)
  (query raw_response : str) :
  let self' := instance_after (finish_response self w g query raw_response) in
  response_cache self' = response_cache self
  /\ search_cache self' = search_cache self.
Proof.
  cbv zeta. unfold finish_response, instance_after.
  pose proof (enhance_ai_response_caches self w g query raw_response) as H.
  destruct (enhance_ai_response self w g query raw_response)
    as [[self1 g1] response].
  exact H.
Qed.

Lemma handle_direct_response_keeps (self : t) (w : world) (g : Random.rng)
  (query : str) :
  let self' := fst (fst (fst (_handle_direct_response self w g query))) in
  keeps (response_cache self) (response_cache self')
  /\ search_cache self' = search_cache self.
Proof.
  cbv zeta. unfold _handle_direct_response.
  destruct (attr (context_memory self)) as [cm|];
    [|split; [apply keeps_refl | reflexivity]].
  match goal with
  | |- context [get_ai_response self w ?p ?c] =>
      pose proof (get_ai_response_keeps self w p c) as [K1 E1];
      destruct (get_ai_response self w p c) as [self1 raw]
  end.
  pose proof (finish_response_caches self1 w g query raw) as [E2 E3].
  unfold instance_after in E2, E3.
  destruct (finish_response self1 w g query raw) as [[[self2 g2] jobs] r].
  cbn [fst snd] in *. rewrite E2, E3. now split.
Qed.

Lemma handle_search_response_keeps (self : t) (w : world) (g : Random.rng)
  (query : str) :
  let self' := fst (fst (fst (_handle_search_response self w g query))) in
  keeps (response_cache self) (response_cache self')
  /\ keeps (search_cache self) (search_cache self').
Proof.
  cbv zeta. unfold _handle_search_response.
  destruct (enhance_query_with_location query) as [enhanced_query location_info].
  pose proof (search_web_keeps self w enhanced_query) as [K0 E0].
  destruct (search_web self w enhanced_query) as [self0 search_results].
  cbn [fst] in K0, E0.
  match goal with
  | |- context [if ?b then _ else _] => destruct b
  end.
  - pose proof (handle_direct_response_keeps self0 w g query) as [K1 E1].
    cbv zeta in K1, E1. rewrite E1, <- E0. now split.
  - match goal with
    | |- context [get_ai_response self0 w ?p ?c] =>
        pose proof (get_ai_response_keeps self0 w p c) as [K1 E1];
        destruct (get_ai_response self0 w p c) as [self1 raw]
    end.
    pose proof (finish_response_caches self1 w g query raw) as [E2 E3].
    unfold instance_after in E2, E3.
    destruct (finish_response self1 w g query raw) as [[[self2 g2] jobs] r].
    cbn [fst snd] in *. rewrite E2, E3, E1, <- E0. now split.
Qed.

Lemma smart_response_keeps (self : t) (w : world) (g : Random.rng)
  (query : str) :
  let self' := instance_after (smart_response self w g query) in
  keeps (response_cache self) (response_cache self')
  /\ keeps (search_cache self) (search_cache self').
Proof.
  cbv zeta. unfold smart_response, instance_after.
  destruct (needs_search query).
  - pose proof (handle_search_response_keeps self w g query) as H.
    cbv zeta in H.
    destruct (_handle_search_response self w g query)
      as [[[self1 g1] jobs] [r|]]; exact H.
  - pose proof (handle_direct_response_keeps self w g query) as [K E].
    cbv zeta in K, E.
    destruct (_handle_direct_response self w g query)
      as [[[self1 g1] jobs] [r|]]; cbn [fst snd] in *;
      (split; [exact K | rewrite E; apply keeps_refl]).
Qed.

Lemma run_task_caches (self : t) (now : Clock.reading) (job : task) :
  response_cache (run_task self now job) = response_cache self
  /\ search_cache (run_task self now job) = search_cache self.
Proof.
  destruct job; cbn [run_task];
    try destruct (context_memory self); try destruct (learning_system self);
    now split.
Qed.

Lemma step_keeps (self self' : t) :
  step self self' ->
  keeps (response_cache self) (response_cache self')
  /\ keeps (search_cache self) (search_cache self').
Proof.
  intros [s w p c | s w q | s w g q | s now job].
  - destruct (get_ai_response_keeps s w p c) as [K E].
    split; [exact K | rewrite E; apply keeps_refl].
  - destruct (search_web_keeps s w q) as [K E].
    split; [rewrite E; apply keeps_refl | exact K].
  - apply smart_response_keeps.
  - destruct (run_task_caches s now job) as [E1 E2].
    rewrite E1, E2. split; apply keeps_refl.
Qed.

(** No use of the instance removes or changes an entry of either cache. *)
Lemma later_keeps (self self' : t) :
  later self self' ->
  keeps (response_cache self) (response_cache self')
  /\ keeps (search_cache self) (search_cache self').
Proof.
  induction 1 as [|mid self' _ [IH1 IH2] Hstep].
  - split; apply keeps_refl.
  - destruct (step_keeps _ _ Hstep) as [K1 K2].
    split; eapply keeps_trans; eassumption.
Qed.

End CacheFrameFacts.

(* ================================================================= *)
(** ** What the caches replay *)

Module CacheReplayFacts.

Import TerminalAI.
Import Runs.
Import CacheFrameFacts.

(** *** The response cache *)

(** X5: A reply the backend gave is kept under the key of its prompt and
    context and replayed from there: after any number of further uses of
    the instance (answers, searches, whole turns, jobs of the worker
    pool), a call whose key is the same gets the same reply, whatever the
    backend then does (even when it fails), and leaves the cache as it
    is. *)
Theorem backend_reply_is_cached_and_replayed
  (self : t) (w : world) (prompt context system_prompt content : str)
  (Hmiss : dict_get (response_cache self) (_generate_cache_key prompt context)
           = None)
  (Hsystem : _get_system_prompt self = Ok system_prompt)
  (Hchat : ollama_chat w system_prompt (_prepare_full_prompt prompt context)
           = Ok content)
  (Hcontent : nonblank content = true) :
  let first := get_ai_response self w prompt context in
  snd first = strip content
  /\ forall self' : t, later (fst first) self' ->
     forall (w' : world) (prompt' context' : str),
       _generate_cache_key prompt' context'
       = _generate_cache_key prompt context ->
       snd (get_ai_response self' w' prompt' context') = strip content
       /\ response_cache (fst (get_ai_response self' w' prompt' context'))
          = response_cache self'.
Proof.
  cbv zeta.
  assert (E : get_ai_response self w prompt context
              = (_update_response_time
                   (with_response_cache
                      (dict_set (response_cache self)
                         (_generate_cache_key prompt context) (strip content))
                      (with_performance_stats
                         (bump_total_queries (performance_stats self)) self))
                   (elapsed w),
                 strip content)).
  { unfold get_ai_response. fields. rewrite Hmiss.
    change (_get_system_prompt
              (with_performance_stats
                 (bump_total_queries (performance_stats self)) self))
      with (_get_system_prompt self).
    rewrite Hsystem. unfold _call_ollama_with_timeout. rewrite Hchat.
    destruct (strip content) as [|c r] eqn:S; [|reflexivity].
    apply strip_nil in S. congruence. }
  rewrite E. split; [reflexivity|].
  intros self' Hlater w' prompt' context' K.
  destruct (later_keeps _ _ Hlater) as [Kept _].
  specialize (Kept (_generate_cache_key prompt context) (strip content)).
  fields. rewrite dict_get_set_same in Kept. specialize (Kept eq_refl).
  unfold get_ai_response. fields. rewrite K, Kept. fields.
  split; reflexivity.
Qed.

Lemma backend_reply_is_cached_and_replayed_witness :
  snd (get_ai_response (fresh 0) (answering_world 0) (lit "Tell me") [])
  = lit "Sure."
  /\ snd (get_ai_response
            (instance_after
               (smart_response
                  (fst (get_ai_response (fresh 0) (answering_world 0)
                          (lit "Tell me") []))
                  (answering_world 5) steady (lit "hello")))
            (failing_world 9) (lit "TELL ME") [])
     = lit "Sure.".
Proof.
  assert (S : _get_system_prompt (fresh 0)
              = Ok (lit "You are a helpful AI assistant. Respond naturally and conversationally. For greetings, respond with simple greetings. For questions, provide clear and accurate answers. Your personality is friendly - warm and welcoming. "))
    by (vm_compute; reflexivity).
  destruct (backend_reply_is_cached_and_replayed
              (fresh 0) (answering_world 0) (lit "Tell me") [] _ (lit "Sure.")
              eq_refl S eq_refl eq_refl) as [H1 H2].
  split; [exact H1|].
  exact (proj1 (H2 _ (@later_step _ _ _ (later_now _)
                        (step_turn _ (answering_world 5) steady (lit "hello")))
                  (failing_world 9) (lit "TELL ME") [] eq_refl)).
Defined.

(** X6: A call that finds nothing in the cache and gets no usable text from
    the backend (the call raises, or the text is blank) answers with the
    fallback reply and caches nothing; for a prompt that contains "hello",
    in any case, the fallback is the greeting. *)
Theorem failed_backend_answers_with_fallback
  (self : t) (w : world) (prompt context : str)
  (Hmiss : dict_get (response_cache self) (_generate_cache_key prompt context)
           = None)
  (Hfail : forall system_prompt full_prompt,
             match ollama_chat w system_prompt full_prompt with
             | Ok content => nonblank content = false
             | Raise _ => True
             end) :
  snd (get_ai_response self w prompt context) = _get_fallback_response prompt
  /\ response_cache (fst (get_ai_response self w prompt context))
     = response_cache self
  /\ total_queries (performance_stats (fst (get_ai_response self w prompt context)))
     = S (total_queries (performance_stats self))
  /\ (contains (lower prompt) (lit "hello") = true ->
      _get_fallback_response prompt = lit "Hello! How can I help you today?").
Proof.
  split; [|split; [|split]].
  1-3: unfold get_ai_response; fields; rewrite Hmiss;
    destruct (_get_system_prompt _) as [system_prompt|]; [|reflexivity];
    unfold _call_ollama_with_timeout;
    specialize (Hfail system_prompt (_prepare_full_prompt prompt context));
    destruct (ollama_chat w system_prompt (_prepare_full_prompt prompt context))
      as [content|]; [|reflexivity];
    apply strip_nil in Hfail; rewrite Hfail; reflexivity.
  intros H. unfold _get_fallback_response.
  cbn [fallback_responses find fst snd].
  now rewrite (contains_strip (lower prompt) (lit "hello")), H by reflexivity.
Qed.

Lemma failed_backend_answers_with_fallback_witness :
  snd (get_ai_response (fresh 0) (failing_world 0) (lit "Hello there") [])
  = lit "Hello! How can I help you today?".
Proof.
  destruct (failed_backend_answers_with_fallback
              (fresh 0) (failing_world 0) (lit "Hello there") []
              eq_refl (fun _ _ => I)) as [H [_ [_ G]]].
  rewrite H. exact (G eq_refl).
Defined.

End CacheReplayFacts.

(* ================================================================= *)
(** ** The search cache and the failure marks *)

Module SearchCacheFacts.

Import TerminalAI.
Import Runs.
Import CacheFrameFacts.

(** X7: A result of the search client that is neither empty nor marked with
    "error" is kept under the key of the cleaned query and replayed from
    there: after any number of further uses of the instance (answers,
    searches, whole turns, jobs of the worker pool), a search whose
    cleaned query has the same key gets the same text, whatever the
    client then does, and the cache stays as it is. *)
Theorem search_result_is_cached_and_replayed
  (self : t) (w : world) (query : str) (c : ascii) (rest : str)
  (Hmiss : dict_get (search_cache self)
             (take 100 (lower (_clean_search_query query))) = None)
  (Hclient : web_search self = true)
  (Hfound : live_search w (_clean_search_query query) = Ok (c :: rest))
  (Hclean : contains (lower (c :: rest)) (lit "error") = false) :
  let first := search_web self w query in
  snd first = c :: rest
  /\ forall self' : t, later (fst first) self' ->
     forall (w' : world) (query' : str),
       take 100 (lower (_clean_search_query query'))
       = take 100 (lower (_clean_search_query query)) ->
       snd (search_web self' w' query') = c :: rest
       /\ search_cache (fst (search_web self' w' query'))
          = search_cache self'.
Proof.
  cbv zeta.
  assert (E : search_web self w query
              = (_update_response_time
                   (with_search_cache
                      (dict_set (search_cache self)
                         (take 100 (lower (_clean_search_query query)))
                         (c :: rest))
                      (with_performance_stats
                         (bump_search_requests (performance_stats self)) self))
                   (elapsed w),
                 c :: rest)).
  { unfold search_web. rewrite Hmiss. fields. rewrite Hclient, Hfound, Hclean.
    reflexivity. }
  rewrite E. split; [reflexivity|].
  intros self' Hlater w' query' K.
  destruct (later_keeps _ _ Hlater) as [_ Kept].
  specialize (Kept (take 100 (lower (_clean_search_query query))) (c :: rest)).
  fields. rewrite dict_get_set_same in Kept. specialize (Kept eq_refl).
  unfold search_web. rewrite K, Kept. fields.
  split; reflexivity.
Qed.

Lemma search_result_is_cached_and_replayed_witness :
  snd (search_web (fresh 0) (answering_world 0) (lit "Python release"))
  = lit "Here's what I found."
  /\ snd (search_web
            (instance_after
               (smart_response
                  (fst (search_web (fresh 0) (answering_world 0)
                          (lit "Python release")))
                  (answering_world 5) steady (lit "hello")))
            (failing_world 9) (lit "  PYTHON release "))
     = lit "Here's what I found.".
Proof.
  destruct (search_result_is_cached_and_replayed
              (fresh 0) (answering_world 0) (lit "Python release")
              "H"%char (lit "ere's what I found.")
              eq_refl eq_refl eq_refl eq_refl) as [H1 H2].
  split; [exact H1|].
  exact (proj1 (H2 _ (@later_step _ _ _ (later_now _)
                        (step_turn _ (answering_world 5) steady (lit "hello")))
                  (failing_world 9) (lit "  PYTHON release ") eq_refl)).
Defined.

(** *** The failure marks *)

(** An occurrence of [k] cannot straddle a character that [k] does not
    hold. *)
Lemma contains_across (a b k : str) (c : ascii) :
  existsb (eqb_char c) k = false ->
  contains (a ++ c :: b) k = contains a k || contains b k.
Proof.
  intros Hc.
  assert (Hnot : forall l1 l2, k <> l1 ++ c :: l2).
  { intros l1 l2 E. rewrite E, existsb_app in Hc. simpl in Hc.
    rewrite eqb_char_refl, orb_true_r in Hc. discriminate. }
  apply eq_true_iff_eq. rewrite orb_true_iff. split.
  - rewrite !contains_iff. intros [x [y E]].
    apply app_eq_app in E. destruct E as [l [[Ea E] | [Ex E]]].
    + apply app_eq_app in E. destruct E as [l' [[Ek E] | [El Ey]]].
      * destruct l' as [|c' l'].
        -- left. exists x, []. rewrite app_nil_r in *. now subst.
        -- injection E as -> _. exfalso. exact (Hnot _ _ Ek).
      * left. exists x, l'. now subst.
    + destruct l as [|c' l].
      * destruct k as [|c' k'].
        -- left. exists a, []. now rewrite app_nil_r.
        -- injection E as -> _. exfalso. exact (Hnot [] k' eq_refl).
      * injection E as _ E. right. now exists l, y.
  - intros [H | H].
    + now apply contains_app_l.
    + apply contains_app_r. cbn [contains]. rewrite H. apply orb_true_r.
Qed.

(** The apology [search_web] returns when the client raises carries the
    mark "error" only if the cleaned query does. *)
Lemma search_failure_message_mark (clean_query : str) :
  contains (lower (search_failure_message clean_query)) (lit "error")
  = contains (lower clean_query) (lit "error").
Proof.
  unfold search_failure_message.
  change (lit "I couldn't search for '")
    with (lit "I couldn't search for " ++ ["'"%char]).
  change (lit "' right now, but I can provide general information.")
    with ("'"%char :: lit " right now, but I can provide general information.").
  rewrite <- !app_assoc. rewrite !lower_app.
  change (lower ["'"%char] ++ ?x) with ("'"%char :: x).
  cbn [app lower map].
  change (lower_char "'"%char) with "'"%char.
  rewrite contains_across by reflexivity.
  fold (lower clean_query).
  rewrite contains_across by reflexivity.
  rewrite orb_false_r. reflexivity.
Qed.

(** X8: When the search client raises (or is missing), [search_web] answers
    with its apology and caches nothing; unless the cleaned query itself
    holds "error", the apology carries no failure mark, so
    [_handle_search_response] does not fall back to the direct path: it
    hands the apology to the backend as if it were the search results. *)
Theorem raising_search_is_not_marked_as_failed
  (self : t) (w : world) (g : Random.rng) (query : str)
  (Hmiss : dict_get (search_cache self)
             (take 100
                (lower (_clean_search_query
                          (fst (enhance_query_with_location query)))))
           = None)
  (Hraise : web_search self = false
            \/ exists e,
                 live_search w
                   (_clean_search_query
                      (fst (enhance_query_with_location query)))
                 = Raise e)
  (Hquery : contains
              (lower (_clean_search_query
                        (fst (enhance_query_with_location query))))
              (lit "error") = false) :
  let enhanced_query := fst (enhance_query_with_location query) in
  let apology := search_failure_message (_clean_search_query enhanced_query) in
  let searched := search_web self w enhanced_query in
  snd searched = apology
  /\ search_cache (fst searched) = search_cache self
  /\ _handle_search_response self w g query
     = (let (answered, raw_response) :=
          get_ai_response (fst searched) w
            (_create_search_prompt query
               (snd (enhance_query_with_location query)))
            (take 1200 apology) in
        match finish_response answered w g query raw_response with
        | (self', g', jobs, response) => (self', g', jobs, Ok response)
        end).
Proof.
  cbv zeta.
  assert (E : search_web self w (fst (enhance_query_with_location query))
              = (with_performance_stats
                   (bump_search_requests (performance_stats self)) self,
                 search_failure_message
                   (_clean_search_query
                      (fst (enhance_query_with_location query))))).
  { unfold search_web. rewrite Hmiss. fields.
    destruct Hraise as [H | [e H]]; rewrite H; [reflexivity|].
    now destruct (web_search self). }
  split; [now rewrite E|]. split; [now rewrite E|].
  unfold _handle_search_response.
  destruct (enhance_query_with_location query) as [enhanced_query location_info].
  cbn [fst snd] in *. rewrite E.
  rewrite search_failure_message_mark, Hquery.
  unfold search_failure_message at 1. reflexivity.
Qed.

Lemma raising_search_is_not_marked_as_failed_witness :
  snd (search_web (fresh 0) (failing_world 0)
         (fst (enhance_query_with_location (lit "latest phones"))))
  = lit "I couldn't search for 'latest phones' right now, but I can provide general information.".
Proof.
  exact (proj1 (raising_search_is_not_marked_as_failed
                  (fresh 0) (failing_world 0) steady (lit "latest phones")
                  eq_refl (or_intror (ex_intro _ OSError eq_refl)) eq_refl)).
Defined.

End SearchCacheFacts.

(* ================================================================= *)
(** ** Words and the cleaned search query *)

Module WordFacts.

Import Words.
Import TerminalAI.

Lemma all_rev (f : ascii -> bool) (l : str) :
  forallb f (rev l) = forallb f l.
Proof.
  induction l as [|c l IH]; [reflexivity|].
  simpl. rewrite forallb_app, IH. simpl.
  rewrite andb_true_r. apply andb_comm.
Qed.

Lemma rev_nonempty (x : ascii) (l : str) : rev (x :: l) <> [].
Proof.
  intros E. apply (f_equal (@length ascii)) in E.
  rewrite length_rev in E. discriminate.
Qed.

Lemma spaceless_rev (x : ascii) (cur : str) :
  forallb (fun c => negb (isspace_char c)) (x :: cur) = true ->
  spaceless (rev (x :: cur)) = true.
Proof.
  intros H. unfold spaceless.
  destruct (rev (x :: cur)) eqn:E; [now apply rev_nonempty in E|].
  now rewrite <- E, all_rev.
Qed.

Lemma split_ws_from_words (cur s : str) :
  forallb (fun c => negb (isspace_char c)) cur = true ->
  Forall (fun w => spaceless w = true) (split_ws_from cur s).
Proof.
  revert cur; induction s as [|c s IH]; intros cur H; cbn [split_ws_from].
  - destruct cur as [|x cur]; constructor; [|constructor].
    now apply spaceless_rev.
  - destruct (isspace_char c) eqn:Ec.
    + destruct cur as [|x cur]; [now apply IH|].
      constructor; [now apply spaceless_rev | now apply IH].
    + apply IH. simpl. now rewrite Ec.
Qed.

Lemma split_ws_words (s : str) :
  Forall (fun w => spaceless w = true) (split_ws s).
Proof. now apply split_ws_from_words. Qed.

Lemma split_ws_from_run (w cur s : str) :
  forallb (fun c => negb (isspace_char c)) w = true ->
  split_ws_from cur (w ++ s) = split_ws_from (rev w ++ cur) s.
Proof.
  revert cur; induction w as [|c w IH]; intros cur H; [reflexivity|].
  simpl in H. apply andb_true_iff in H as [Hc Hw].
  apply negb_true_iff in Hc. simpl. rewrite Hc, (IH _ Hw).
  now rewrite <- app_assoc.
Qed.

Lemma spaceless_chars (w : str) :
  spaceless w = true ->
  w <> [] /\ forallb (fun c => negb (isspace_char c)) w = true.
Proof. destruct w; [discriminate|]. intros H. split; [discriminate|exact H]. Qed.

Lemma join_cons (sep p q : str) (ps : list str) :
  join sep (p :: q :: ps) = p ++ sep ++ join sep (q :: ps).
Proof. reflexivity. Qed.

Lemma split_ws_from_space (a : ascii) (l s : str) :
  split_ws_from (a :: l) (lit " " ++ s) = rev (a :: l) :: split_ws_from [] s.
Proof. reflexivity. Qed.

(** Joining words with one space and splitting again gives the words
    back. *)
Lemma split_ws_join (ws : list str) :
  Forall (fun w => spaceless w = true) ws ->
  split_ws (join (lit " ") ws) = ws.
Proof.
  induction 1 as [|w ws Hw Hws IH]; [reflexivity|].
  destruct (spaceless_chars w Hw) as [Hne Hch].
  assert (R : exists a l, rev w = a :: l).
  { destruct (rev w) as [|a l] eqn:E; [|now exists a, l].
    destruct w; [congruence | now apply rev_nonempty in E]. }
  destruct R as [a [l E]].
  destruct ws as [|w' ws].
  - change (join (lit " ") [w]) with w. unfold split_ws.
    pose proof (split_ws_from_run w [] [] Hch) as R.
    rewrite !app_nil_r in R. rewrite R, E.
    cbn [split_ws_from]. now rewrite <- E, rev_involutive.
  - rewrite join_cons. unfold split_ws.
    rewrite split_ws_from_run by exact Hch.
    rewrite app_nil_r, E, split_ws_from_space, <- E, rev_involutive.
    f_equal. exact IH.
Qed.

Lemma split_ws_from_blank_tail (cur s p : str) :
  nonblank p = false -> split_ws_from cur (s ++ p) = split_ws_from cur s.
Proof.
  intros Hp. revert cur; induction s as [|c s IH]; intros cur.
  - simpl. revert cur. induction p as [|x p IHp]; intros cur; [reflexivity|].
    simpl in Hp. apply orb_false_iff in Hp as [Hx Hp].
    apply negb_false_iff in Hx. simpl. rewrite Hx.
    destruct cur; rewrite (IHp Hp); reflexivity.
  - simpl. destruct (isspace_char c); [|apply IH].
    destruct cur; now rewrite IH.
Qed.

Lemma lstrip_split (s : str) :
  exists p, nonblank p = false /\ s = p ++ lstrip s.
Proof.
  induction s as [|c s [p [Hp E]]].
  - now exists [].
  - simpl. destruct (isspace_char c) eqn:Ec.
    + exists (c :: p). split; [simpl; now rewrite Ec, Hp|].
      simpl. now rewrite <- E.
    + now exists [].
Qed.

Lemma split_ws_lstrip (s : str) : split_ws (lstrip s) = split_ws s.
Proof.
  unfold split_ws. induction s as [|c s IH]; [reflexivity|].
  simpl. destruct (isspace_char c) eqn:Ec; [exact IH|].
  simpl. now rewrite Ec.
Qed.

Lemma split_ws_strip (s : str) : split_ws (strip s) = split_ws s.
Proof.
  unfold strip, rstrip. rewrite <- (split_ws_lstrip s).
  destruct (lstrip_split (rev (lstrip s))) as [p [Hp E]].
  apply (f_equal (@rev ascii)) in E.
  rewrite rev_involutive, rev_app_distr in E.
  rewrite E at 2. unfold split_ws. symmetry.
  apply split_ws_from_blank_tail. now rewrite nonblank_rev.
Qed.

(** X9: The query that reaches the search client has at most 10 words: they
    are the first 10 words of the question part of the text, which is the
    whole text when it holds neither of the two context markers. *)
Theorem cleaned_query_has_at_most_10_words (query : str) :
  length (split_ws (_clean_search_query query)) <= 10
  /\ (contains query (lit "Current question:") = false ->
      contains query (lit "Conversation context:") = false ->
      split_ws (_clean_search_query query) = take 10 (split_ws query)).
Proof.
  unfold _clean_search_query.
  set (q1 := if contains query (lit "Current question:") then _ else query).
  set (q2 := if contains q1 (lit "Conversation context:") then _ else q1).
  assert (W : split_ws
                (strip (if 10 <? length (split_ws q2)
                        then join (lit " ") (take 10 (split_ws q2))
                        else q2))
              = take 10 (split_ws q2)).
  { rewrite split_ws_strip.
    destruct (10 <? length (split_ws q2)) eqn:E.
    - apply split_ws_join. unfold take.
      pose proof (split_ws_words q2) as F.
      rewrite <- (firstn_skipn 10 (split_ws q2)) in F.
      apply Forall_app in F. tauto.
    - apply Nat.ltb_ge in E. unfold take. now rewrite firstn_all2. }
  split.
  - rewrite W. unfold take. rewrite length_firstn. lia.
  - intros H1 H2. rewrite W. subst q2 q1. now rewrite H1, H2.
Qed.

End WordFacts.

(* ================================================================= *)
(** ** Postal codes *)

Module PincodeFacts.

Import TerminalAI.
Import Pincodes.







End PincodeFacts.

(* ================================================================= *)
(** ** The context memory, further *)

Module MemoryMoreFacts.

Import ContextMemory.

Lemma join_nonempty (sep x : str) (l : list str) :
  x <> [] -> join sep (x :: l) <> [].
Proof.
  intros H. destruct l as [|y l]; cbn [join]; [exact H|].
  destruct x; [congruence | discriminate].
Qed.

(** X11: The context handed to the prompt builder is the empty text exactly
    when there is nothing to report: the session memory is empty and
    neither the name nor the location of the user is known.  An age or a
    list of interests alone does not make it non-empty. *)
Theorem relevant_context_empty_iff (self : t) (current_input : str) :
  get_relevant_context self current_input = []
  <-> session_memory self = []
      /\ name (user_info (long_term_memory self)) = None
      /\ location (user_info (long_term_memory self)) = None.
Proof.
  unfold get_relevant_context, user_info_nonempty.
  destruct (session_memory self) as [|m ms].
  - destruct (name (user_info (long_term_memory self))) as [n|];
      destruct (location (user_info (long_term_memory self))) as [l|];
      destruct (age (user_info (long_term_memory self)));
      destruct (interests (user_info (long_term_memory self)));
      cbn; split;
      solve [ discriminate
            | intros [_ [H1 H2]]; discriminate
            | intros _; repeat split; reflexivity
            | reflexivity ].
  - split; [|intros [H _]; discriminate].
    intros H. exfalso. revert H.
    match goal with
    | |- match ?c with [] => _ | _ :: _ => _ end = [] -> False =>
        assert (E : exists rest, c = lit "Recent conversation:" :: rest)
    end.
    { destruct (match name (user_info (long_term_memory self)) with
                | None => _ | _ => _ end);
        [|now eexists].
      destruct (_ ++ _); now eexists. }
    destruct E as [rest ->]. apply join_nonempty. discriminate.
Qed.

(** [s.split(sep)] always has a last piece. *)
Lemma split_on_from_nonempty (sep : str) (skip : nat) (cur s : str) :
  split_on_from sep skip cur s <> [].
Proof.
  revert skip cur; induction s as [|c s IH]; intros skip cur;
    cbn [split_on_from]; [discriminate|].
  destruct skip; [|apply IH].
  destruct (startswith (c :: s) sep); [discriminate | apply IH].
Qed.

Lemma last_item_split_on (s sep : str) :
  exists tail, last_item (split_on s sep) = Ok tail.
Proof.
  unfold last_item, split_on.
  destruct (rev (split_on_from sep 0 [] s)) as [|x l] eqn:E; [|now exists x].
  apply (f_equal (@rev str)) in E. rewrite rev_involutive in E.
  now apply split_on_from_nonempty in E.
Qed.

Lemma extract_user_info_without_name (info : user_info_t) (user_input : str) :
  contains (lower user_input) (lit "my name is") = false ->
  exists info',
    extract_user_info info user_input = Ok info' /\ name info' = name info.
Proof.
  intros H. unfold extract_user_info. rewrite H. cbn [bind].
  set (text := lower user_input).
  assert (L : exists info1,
             (if contains text (lit "i live in") || contains text (lit "i am from")
              then
                tail <- last_item
                          (split_on text
                             (if contains text (lit "in") then lit "in"
                              else lit "from")) ;;
                Ok {| name := name info; location := Some (strip tail);
                      age := age info; interests := interests info |}
              else Ok info) = Ok info1 /\ name info1 = name info).
  { destruct (_ || _); [|now exists info].
    destruct (last_item_split_on text
                (if contains text (lit "in") then lit "in" else lit "from"))
      as [tail ->].
    cbn [bind]. eexists. split; reflexivity. }
  destruct L as [info1 [-> N1]]. cbn [bind].
  set (info2 := if contains text (lit "i am") && contains text (lit "years old")
                then _ else info1).
  assert (N2 : name info2 = name info).
  { subst info2. destruct (_ && _); [|exact N1].
    destruct (filter isdigit (split_ws text)) as [|w ws]; [exact N1|].
    destruct (int w); [exact N1 | exact N1]. }
  destruct (_ || _); [|now exists info2].
  destruct (last_item_split_on text
              (if contains text (lit "like") then lit "like" else lit "love"))
    as [tail ->].
  cbn [bind]. eexists. split; [reflexivity | exact N2].
Qed.

(** X12: For an input that does not hold the phrase "my name is" (in any
    case), [add_to_long_term_memory] does not raise, leaves at most 100
    conversations in the store whatever it held before, and keeps the
    stored name of the user. *)
Theorem add_without_name_phrase_is_safe
  (self : t) (now : Clock.reading) (user_input ai_response : str)
  (Hphrase : contains (lower user_input) (lit "my name is") = false) :
  let after := add_to_long_term_memory self now user_input ai_response in
  snd after = Ok tt
  /\ length (conversations (long_term_memory (fst after))) <= 100
  /\ name (user_info (long_term_memory (fst after)))
     = name (user_info (long_term_memory self)).
Proof.
  cbv zeta.
  destruct (extract_user_info_without_name
              (user_info (long_term_memory self)) user_input Hphrase)
    as [info' [E N]].
  assert (Hok : snd (add_to_long_term_memory self now user_input ai_response)
                = Ok tt).
  { unfold add_to_long_term_memory. now rewrite E. }
  split; [exact Hok|]. split.
  - now apply RetentionFacts.add_bounded_when_ok.
  - unfold add_to_long_term_memory. rewrite E. exact N.
Qed.

Lemma add_without_name_phrase_is_safe_witness :
  contains (lower (lit "I live in Oslo")) (lit "my name is") = false
  /\ snd (add_to_long_term_memory (init None) (at_second 0)
            (lit "I live in Oslo") (lit "Sure.")) = Ok tt.
Proof.
  split; [reflexivity|].
  exact (proj1 (add_without_name_phrase_is_safe (init None) (at_second 0)
                  (lit "I live in Oslo") (lit "Sure.") eq_refl)).
Defined.

End MemoryMoreFacts.

(* ================================================================= *)
(** ** The learning store *)

Module LearningFacts.

Import LearningSystem.
Import Learned.
Import Histories.
Import CacheReplayFacts.
Import BufferFacts.

Lemma max_from_keeps_best (A : Type) (key : A -> Z) (best : A) (l : list A) :
  (forall x, In x l -> (key x <= key best)%Z) -> max_from key best l = best.
Proof.
  revert best; induction l as [|x l IH]; intros best H; [reflexivity|].
  simpl. destruct (key best <? key x)%Z eqn:E.
  - apply Z.ltb_lt in E. specialize (H x (or_introl eq_refl)). lia.
  - apply IH. intros y Hy. apply H. now right.
Qed.

(** The entries of a key: the first one, and the fact that every count
    is 1. *)
Lemma store_keeps_first (knowledge : list (str * list learned))
  (now : Clock.reading) (q a key : str) (e : learned) (es : list learned) :
  dict_get knowledge key = Some (e :: es) ->
  Forall (fun x => success_key x = 1%Z) (e :: es) ->
  exists es',
    dict_get (store_successful_response knowledge now q a) key
    = Some (e :: es')
    /\ Forall (fun x => success_key x = 1%Z) (e :: es').
Proof.
  intros G F. unfold store_successful_response.
  destruct (eqb_str key (take 50 (lower q))) eqn:E.
  - apply eqb_str_true in E. subst key. rewrite G, dict_get_set_same.
    exists (es ++ [{| response := a; success_count := Some 1%Z;
                      l_timestamp := Clock.isoformat now |}]).
    split; [reflexivity|].
    change (e :: es ++ [?x]) with ((e :: es) ++ [x]).
    apply Forall_app. split; [exact F|]. now constructor.
  - rewrite dict_get_set_other.
    + now exists es.
    + intros K. subst key. now rewrite eqb_str_refl in E.
Qed.

Lemma after_stores_keeps_first (stores : list Histories.turn)
  (knowledge : list (str * list learned))
  (key : str) (e : learned) (es : list learned) :
  dict_get knowledge key = Some (e :: es) ->
  Forall (fun x => success_key x = 1%Z) (e :: es) ->
  exists es',
    dict_get (after_stores stores knowledge) key = Some (e :: es')
    /\ Forall (fun x => success_key x = 1%Z) (e :: es').
Proof.
  revert knowledge es; induction stores as [|[[now q] a] stores IH];
    intros knowledge es G F.
  - now exists es.
  - destruct (store_keeps_first knowledge now q a key e es G F)
      as [es1 [G1 F1]].
    exact (IH _ es1 G1 F1).
Qed.

(** X13: The first reply stored for a query is the one that is replayed: once
    a successful reply has been stored under a key that had no entry, no
    later successful turn, for the same or another query, changes what
    [get_personalized_response] returns for that query. *)
Theorem first_learned_reply_is_kept (ls : t) (now : Clock.reading)
  (query reply : str) (later : list Histories.turn)
  (Hnew : dict_get (learned_knowledge ls) (take 50 (lower query)) = None) :
  get_personalized_response
    (with_knowledge_table
       (after_stores later
          (store_successful_response (learned_knowledge ls) now query reply))
       ls) query
  = Ok (Some reply).
Proof.
  set (first := {| response := reply; success_count := Some 1%Z;
                   l_timestamp := Clock.isoformat now |}).
  assert (G : dict_get
                (store_successful_response (learned_knowledge ls) now query reply)
                (take 50 (lower query)) = Some [first]).
  { unfold store_successful_response. now rewrite Hnew, dict_get_set_same. }
  destruct (after_stores_keeps_first later _ _ first [] G) as [es [G' F]];
    [repeat constructor|].
  unfold get_personalized_response, with_knowledge_table.
  cbn [learned_knowledge]. rewrite G'.
  unfold max_by. cbn [bind]. rewrite max_from_keeps_best; [reflexivity|].
  intros x Hx. inversion F as [|? ? H1 H2]; subst.
  rewrite Forall_forall in H2. rewrite H1, (H2 x Hx). lia.
Qed.

Lemma first_learned_reply_is_kept_witness :
  get_personalized_response
    (with_knowledge_table
       (after_stores
          [(at_second 5, lit "Thanks a lot", lit "Any time.")]
          (store_successful_response [] (at_second 1)
             (lit "thanks a lot") (lit "You are welcome.")))
       (init None None None))
    (lit "THANKS A LOT")
  = Ok (Some (lit "You are welcome.")).
Proof.
  exact (first_learned_reply_is_kept (init None None None) (at_second 1)
           (lit "thanks a lot") (lit "You are welcome.")
           [(at_second 5, lit "Thanks a lot", lit "Any time.")] eq_refl).
Defined.

Lemma extract_preferences_without_name (prefs : preferences_t)
  (user_input : str) :
  contains (lower user_input) (lit "my name is") = false ->
  snd (extract_preferences prefs user_input) = Ok tt.
Proof.
  intros H. unfold extract_preferences. rewrite H.
  destruct (_ || _); [|reflexivity].
  match goal with
  | |- context [last_item (split_on ?s ?sep)] =>
      destruct (MemoryMoreFacts.last_item_split_on s sep) as [tail ->]
  end.
  reflexivity.
Qed.

Lemma classify_input_type_kinds (user_input : str) :
  In (classify_input_type user_input)
     (map lit ["greeting"; "question"; "closing"; "request"; "general"]%string).
Proof.
  unfold classify_input_type.
  repeat match goal with
    | |- context [if ?b then _ else _] => destruct b
    end; simpl; tauto.
Qed.

(** X14: A turn whose input does not hold "my name is" is always learned
    from: the call does not raise, the input is filed under one of the
    five kinds, at most 10 exchanges are kept for that kind, the other
    kinds are left alone, and the contextual response for any input of the
    same kind is built from the reply just recorded. *)
Theorem latest_reply_of_a_kind_is_recalled
  (ls : t) (now : Clock.reading) (user_input ai_response : str)
  (user_feedback : option str) (next_input : str)
  (Hphrase : contains (lower user_input) (lit "my name is") = false)
  (Hkind : classify_input_type next_input = classify_input_type user_input) :
  let after := learn_from_conversation ls now user_input ai_response
                 user_feedback in
  snd after = Ok tt
  /\ In (classify_input_type user_input)
        (map lit ["greeting"; "question"; "closing"; "request"; "general"]%string)
  /\ (exists entries,
        dict_get (patterns (fst after)) (classify_input_type user_input)
        = Some entries
        /\ length entries <= 10)
  /\ (forall kind, kind <> classify_input_type user_input ->
                   dict_get (patterns (fst after)) kind
                   = dict_get (patterns ls) kind)
  /\ get_contextual_response (fst after) next_input
     = lit "Based on our previous conversations, " ++ ai_response.
Proof.
  cbv zeta.
  pose proof (extract_preferences_without_name (preferences ls) user_input
                Hphrase) as E.
  unfold learn_from_conversation.
  destruct (extract_preferences (preferences ls) user_input) as [prefs r].
  cbn [snd] in E. subst r. cbn [fst snd patterns].
  unfold analyze_conversation_pattern.
  set (kind := classify_input_type user_input) in *.
  set (old := match dict_get (patterns ls) kind with
              | Some l => l | None => [] end).
  set (entry := {| p_input := user_input; p_response := ai_response;
                   p_timestamp := Clock.isoformat now |}).
  fold (push_cut 10 10 old entry).
  split; [reflexivity|].
  split; [apply classify_input_type_kinds|].
  split; [|split].
  - exists (push_cut 10 10 old entry).
    split; [apply dict_get_set_same | now apply push_bound].
  - intros k Hk. now apply dict_get_set_other.
  - unfold get_contextual_response. cbn [patterns].
    rewrite Hkind. fold kind. rewrite dict_get_set_same.
    destruct (push_newest 10 10 old entry) as [kept ->]; [lia|].
    now rewrite rev_app_distr.
Qed.

Lemma latest_reply_of_a_kind_is_recalled_witness :
  contains (lower (lit "Can you sort a list?")) (lit "my name is") = false
  /\ classify_input_type (lit "Is it late?")
     = classify_input_type (lit "Can you sort a list?")
  /\ get_contextual_response
       (fst (learn_from_conversation (init None None None) (at_second 0)
               (lit "Can you sort a list?") (lit "Yes.") None))
       (lit "Is it late?")
     = lit "Based on our previous conversations, Yes.".
Proof.
  split; [reflexivity|]. split; [reflexivity|].
  exact (proj2 (proj2 (proj2 (proj2
           (latest_reply_of_a_kind_is_recalled (init None None None)
              (at_second 0) (lit "Can you sort a list?") (lit "Yes.") None
              (lit "Is it late?") eq_refl eq_refl))))).
Defined.

End LearningFacts.

(* ================================================================= *)
(** ** The common-sense pass *)

Module CommonSenseFacts.

Import CommonSense.
Import Histories.
Import BufferFacts.

Lemma contains_self (s : str) : contains s s = true.
Proof. apply contains_iff. exists [], []. now rewrite app_nil_r. Qed.

Lemma add_practical_context_keeps (query response inner : str) :
  contains response inner = true ->
  contains (add_practical_context query response) inner = true.
Proof.
  intros H. unfold add_practical_context.
  repeat match goal with
    | |- contains (if ?b then _ else _) _ = true => destruct b
    | |- contains (_ ++ lit _) _ = true => apply contains_app_l
    end; exact H.
Qed.

Lemma apply_safety_filter_keeps (response inner : str) :
  contains response inner = true ->
  contains (apply_safety_filter response) inner = true.
Proof.
  intros H. unfold apply_safety_filter.
  destruct (contains_any _ _); [|exact H].
  now apply contains_app_r, contains_app_l.
Qed.

Lemma add_contextual_awareness_keeps (now : Clock.reading)
  (query response inner : str) :
  contains response inner = true ->
  contains (add_contextual_awareness now query response) inner = true.
Proof.
  intros H. unfold add_contextual_awareness.
  repeat match goal with
    | |- contains (if ?b then _ else _) _ = true => destruct b
    | |- contains (lit _ ++ _) _ = true => apply contains_app_r
    end; exact H.
Qed.

(** X15: Unless the rule on physical impossibilities fires, the common-sense
    pass only adds sentences around the response it is given: the response
    occurs unchanged in the result.  The instance remembers the result as
    its newest entry and keeps at most 5 entries. *)
Theorem common_sense_keeps_the_answer (self : t) (now : Clock.reading)
  (query response : str)
  (Hpossible :
     (contains (lower response) (lit "water")
        && contains (lower response) (lit "burn"))
     || (contains (lower response) (lit "ice")
           && contains (lower response) (lit "hot"))
     || (contains (lower response) (lit "fly")
           && contains (lower query) (lit "human")
           && negb (contains (lower response) (lit "without"))) = false) :
  let after := enhance_with_common_sense self now query response in
  (exists before behind, snd after = before ++ response ++ behind)
  /\ length (context_memory (fst after)) <= 5
  /\ exists kept,
       context_memory (fst after) = kept ++ [(snd after, Clock.micros now)].
Proof.
  cbv zeta.
  unfold enhance_with_common_sense, check_contradictions, apply_common_sense.
  cbn [fst snd context_memory].
  set (out := add_contextual_awareness now query _).
  fold (push_cut 5 5 (context_memory self) (out, Clock.micros now)).
  split; [|split].
  - apply contains_iff. subst out.
    apply add_contextual_awareness_keeps, apply_safety_filter_keeps,
      add_practical_context_keeps.
    unfold check_logical_consistency. rewrite Hpossible.
    destruct (contains (lower query) (lit "yesterday") && _);
      [apply contains_app_r|]; apply contains_self.
  - now apply push_bound.
  - apply push_newest. lia.
Qed.

Lemma common_sense_keeps_the_answer_witness :
  exists before behind,
    snd (enhance_with_common_sense init (at_second 0)
           (lit "Is it dangerous to drive in the rain?")
           (lit "It can be dangerous."))
    = before ++ lit "It can be dangerous." ++ behind.
Proof.
  exact (proj1 (common_sense_keeps_the_answer init (at_second 0)
                  (lit "Is it dangerous to drive in the rain?")
                  (lit "It can be dangerous.") eq_refl)).
Defined.

End CommonSenseFacts.

(* ================================================================= *)
(** ** Empathetic responses *)

Module EmpathyFacts.

Import EmotionDetector.

(** Every row of the keyword table has a row of phrases under the same
    label. *)
Lemma keyword_rows_have_phrases (entry : str * list str) :
  In entry emotion_keywords ->
  fst entry <> lit "neutral"
  /\ exists phrases,
       dict_get responses (fst entry) = Some phrases
       /\ In (fst entry, phrases) responses
       /\ phrases <> []
       /\ forall p, In p phrases -> p <> [].
Proof.
  intros H. simpl in H.
  repeat (destruct H as [<- | H];
          [split; [discriminate|];
           eexists; split; [vm_compute; reflexivity|];
           split; [simpl; tauto|];
           split; [discriminate|];
           intros p Hp; simpl in Hp;
           repeat (destruct Hp as [<- | Hp]; [discriminate|]);
           contradiction|]).
  contradiction.
Qed.

(** X16: Whatever the text, the label [detect_emotion] gives is answered by
    [get_empathetic_response] without an exception and with a non-empty
    sentence: the stock sentence for [neutral], and otherwise one of the
    phrases listed under that very label. *)
Theorem detected_emotion_has_empathetic_response (text : str)
  (g : Random.rng) :
  exists label confidence phrase,
    detect_emotion text = Ok (label, confidence)
    /\ fst (get_empathetic_response label confidence g) = Ok phrase
    /\ phrase <> []
    /\ (label = lit "neutral" ->
        phrase = lit "I'm here to help you with whatever you need.")
    /\ (label <> lit "neutral" ->
        exists phrases, In (label, phrases) responses /\ In phrase phrases).
Proof.
  destruct (EmotionFacts.detect_emotion_cases text)
    as [[_ Hneutral] | [before [entry [after [Ht [_ [_ [_ Hd]]]]]]]].
  - exists (lit "neutral"), (1 # 2)%Q,
      (lit "I'm here to help you with whatever you need.").
    split; [exact Hneutral|]. split; [reflexivity|].
    split; [discriminate|]. split; [reflexivity|]. now intros [].
  - assert (Hin : In entry emotion_keywords) by (rewrite Ht; apply in_elt).
    destruct (keyword_rows_have_phrases entry Hin)
      as [Hlabel [phrases [Hget [Hrow [Hne Hall]]]]].
    destruct (PersonalityFacts.choice_ok _ phrases g Hne) as [phrase [Hc Hp]].
    eexists (fst entry), _, phrase.
    split; [exact Hd|].
    unfold get_empathetic_response. rewrite Hget, Hc.
    split; [reflexivity|]. split; [now apply Hall|].
    split; [intros E; contradiction|].
    intros _. now exists phrases.
Qed.

End EmpathyFacts.

(* ================================================================= *)
(** ** The knowledge base *)

Module KnowledgeFacts.

Import TerminalAI.
Import Histories.

Lemma save_knowledge_usage (self : t) (now : Clock.reading)
  (query answer : str) :
  usage_of (knowledge (save_knowledge self now query answer))
    (take 100 (lower query))
  = (usage_of (knowledge self) (take 100 (lower query)) + 1)%Z.
Proof.
  unfold save_knowledge, usage_of. fields.
  now rewrite dict_get_set_same.
Qed.

Lemma save_knowledge_other (self : t) (now : Clock.reading)
  (query answer other : str) :
  other <> take 100 (lower query) ->
  dict_get (knowledge (save_knowledge self now query answer)) other
  = dict_get (knowledge self) other.
Proof.
  intros N. unfold save_knowledge. fields. now apply dict_get_set_other.
Qed.

Lemma after_knowledge_saves_usage (saves : list turn) (self : t) (key : str) :
  (forall t, In t saves -> take 100 (lower (snd (fst t))) = key) ->
  usage_of (knowledge (after_knowledge_saves saves self)) key
  = (usage_of (knowledge self) key + Z.of_nat (length saves))%Z
  /\ forall other, other <> key ->
       dict_get (knowledge (after_knowledge_saves saves self)) other
       = dict_get (knowledge self) other.
Proof.
  revert self; induction saves as [|[[now q] a] saves IH]; intros self H.
  - split; [simpl; lia | reflexivity].
  - assert (Hq : take 100 (lower q) = key) by (apply (H (now, q, a)); now left).
    assert (Hrest : forall t, In t saves -> take 100 (lower (snd (fst t))) = key)
      by (intros t Ht; apply H; now right).
    destruct (IH (save_knowledge self now q a) Hrest) as [IHu IHo].
    unfold after_knowledge_saves in *. cbn [fold_left].
    split.
    + rewrite IHu. subst key. rewrite save_knowledge_usage.
      cbn [length]. lia.
    + intros other N. rewrite (IHo other N).
      apply save_knowledge_other. now rewrite Hq.
Qed.

(** X17: The knowledge base files an answer under the first 100 characters of
    the lowercased query.  After any number of saves under one key, the
    entry holds the answer and time of the latest save, its usage count is
    the count found at the start plus the number of saves, and no entry
    under another key has changed. *)
Theorem save_knowledge_counts_saves (self : t) (earlier : list turn)
  (now : Clock.reading) (query answer : str)
  (Hsame : forall t, In t earlier ->
             take 100 (lower (snd (fst t))) = take 100 (lower query)) :
  let key := take 100 (lower query) in
  let after := after_knowledge_saves (earlier ++ [(now, query, answer)]) self in
  dict_get (knowledge after) key
  = Some {| k_answer := answer;
            k_timestamp := Clock.isoformat now;
            usage_count :=
              Some (usage_of (knowledge self) key
                    + Z.of_nat (length earlier) + 1)%Z |}
  /\ forall other, other <> key ->
       dict_get (knowledge after) other = dict_get (knowledge self) other.
Proof.
  cbv zeta.
  destruct (after_knowledge_saves_usage earlier self _ Hsame) as [Hu Ho].
  unfold after_knowledge_saves in *. rewrite fold_left_app. cbn [fold_left].
  split.
  - unfold save_knowledge at 1. fields. rewrite dict_get_set_same.
    unfold usage_of in Hu. now rewrite Hu.
  - intros other N. rewrite save_knowledge_other by exact N. now apply Ho.
Qed.

Lemma save_knowledge_counts_saves_witness :
  dict_get
    (knowledge
       (after_knowledge_saves
          [(at_second 0, lit "What is Rust?", lit "A language.");
           (at_second 5, lit "WHAT IS RUST?", lit "A systems language.")]
          (fresh 0)))
    (lit "what is rust?")
  = Some {| k_answer := lit "A systems language.";
            k_timestamp := Clock.isoformat (at_second 5);
            usage_count := Some 2%Z |}.
Proof.
  refine (proj1 (save_knowledge_counts_saves (fresh 0)
                   [(at_second 0, lit "What is Rust?", lit "A language.")]
                   (at_second 5) (lit "WHAT IS RUST?")
                   (lit "A systems language.") _)).
  intros t [<- | []]. reflexivity.
Defined.

End KnowledgeFacts.

(* ================================================================= *)
(** ** Turns answered without a search *)

Module DirectTurnFacts.

Import TerminalAI.
Import Views.

Lemma get_ai_response_search_side (self : t) (w : world)
  (prompt context : str) :
  search_side (fst (get_ai_response self w prompt context)) = search_side self.
Proof.
  unfold get_ai_response, search_side. fields.
  destruct (dict_get (response_cache self) _); [reflexivity|].
  destruct (_get_system_prompt _); [|reflexivity].
  destruct (_call_ollama_with_timeout w a _) as [[|c r]|]; reflexivity.
Qed.

Lemma enhance_stages_search_side (self : t) (w : world) (g : Random.rng)
  (query raw_response : str) :
  search_side (fst (fst (enhance_stages self w g query raw_response)))
  = search_side self.
Proof.
  unfold enhance_stages.
  destruct (attr (personality_system self)) as [ps|]; [|reflexivity].
  destruct (PersonalitySystem.apply_personality_to_response ps raw_response g)
    as [[response|] g1]; [|reflexivity].
  destruct (_needs_common_sense_check query response); [|reflexivity].
  destruct (attr (common_sense self)) as [cs|]; [|reflexivity].
  now destruct (CommonSense.enhance_with_common_sense cs (now w) query response).
Qed.

Lemma enhance_ai_response_search_side (self : t) (w : world) (g : Random.rng)
  (query raw_response : str) :
  search_side (fst (fst (enhance_ai_response self w g query raw_response)))
  = search_side self.
Proof.
  unfold enhance_ai_response.
  destruct (negb (emotion_detector self)); [reflexivity|].
  destruct (EmotionDetector.detect_emotion query) as [[emotion confidence]|];
    [|reflexivity].
  destruct (negb (Qle_bool confidence (85 # 100))).
  - destruct (EmotionDetector.get_empathetic_response emotion confidence g)
      as [[empathy|] g1]; cbn [bind]; [|reflexivity].
    pose proof (enhance_stages_search_side self w g1 query
                  (empathy ++ lit " " ++ raw_response)) as H.
    destruct (enhance_stages self w g1 query _) as [[self1 g2] [r|]];
      exact H.
  - pose proof (enhance_stages_search_side self w g query raw_response) as H.
    destruct (enhance_stages self w g query raw_response)
      as [[self1 g2] [r|]]; exact H.
Qed.

Lemma finish_response_search_side (self : t) (w : world) (g : Random.rng)
  (query raw_response : str) :
  search_side (instance_after (finish_response self w g query raw_response))
  = search_side self.
Proof.
  unfold finish_response, instance_after.
  pose proof (enhance_ai_response_search_side self w g query raw_response) as H.
  destruct (enhance_ai_response self w g query raw_response)
    as [[self1 g1] response].
  exact H.
Qed.

Lemma handle_direct_response_search_side (self : t) (w : world)
  (g : Random.rng) (query : str) :
  search_side (fst (fst (fst (_handle_direct_response self w g query))))
  = search_side self.
Proof.
  unfold _handle_direct_response.
  destruct (attr (context_memory self)) as [cm|]; [|reflexivity].
  match goal with
  | |- context [get_ai_response self w ?p ?c] =>
      pose proof (get_ai_response_search_side self w p c) as H1;
      destruct (get_ai_response self w p c) as [self1 raw]
  end.
  pose proof (finish_response_search_side self1 w g query raw) as H2.
  unfold instance_after in H2.
  destruct (finish_response self1 w g query raw) as [[[self2 g2] jobs] r].
  cbn [fst snd] in *. congruence.
Qed.

(** X18: A query that [needs_search] turns down is answered without the
    search client: the whole outcome of the turn (instance, random source,
    jobs and reply) is the same under any other client, and neither the
    search cache nor the count of search requests changes. *)
Theorem direct_turn_never_searches (self : t) (w : world) (g : Random.rng)
  (query : str) (client : str -> result str)
  (Hdirect : needs_search query = false) :
  smart_response self (with_live_search client w) g query
  = smart_response self w g query
  /\ search_side (instance_after (smart_response self w g query))
     = search_side self.
Proof.
  unfold smart_response. rewrite Hdirect. split; [reflexivity|].
  pose proof (handle_direct_response_search_side self w g query) as H.
  unfold instance_after.
  destruct (_handle_direct_response self w g query)
    as [[[self1 g1] jobs] [r|]]; exact H.
Qed.

Lemma direct_turn_never_searches_witness :
  smart_response (fresh 0)
    (with_live_search (fun _ => Raise KeyError) (answering_world 1)) steady
    (lit "hello")
  = smart_response (fresh 0) (answering_world 1) steady (lit "hello").
Proof.
  exact (proj1 (direct_turn_never_searches (fresh 0) (answering_world 1)
                  steady (lit "hello") (fun _ => Raise KeyError) eq_refl)).
Defined.

End DirectTurnFacts.

(* ================================================================= *)
(** ** What a turn records *)

Module TurnRecordFacts.

Import TerminalAI.
Import Views.
Import Histories.
Import BufferFacts.

Lemma get_ai_response_savers (self : t) (w : world) (prompt context : str) :
  savers (fst (get_ai_response self w prompt context)) = savers self.
Proof.
  unfold get_ai_response, savers. fields.
  destruct (dict_get (response_cache self) _); [reflexivity|].
  destruct (_get_system_prompt _); [|reflexivity].
  destruct (_call_ollama_with_timeout w a _) as [[|c r]|]; reflexivity.
Qed.

Lemma search_web_savers (self : t) (w : world) (query : str) :
  savers (fst (search_web self w query)) = savers self.
Proof.
  unfold search_web, savers.
  destruct (dict_get (search_cache self) _); [reflexivity|].
  fields.
  destruct (web_search self); [|reflexivity].
  destruct (live_search w (_clean_search_query query)) as [result|];
    [|reflexivity].
  destruct result as [|c r]; [reflexivity|].
  now destruct (negb (contains (lower (c :: r)) (lit "error"))).
Qed.

Lemma enhance_stages_savers (self : t) (w : world) (g : Random.rng)
  (query raw_response : str) :
  savers (fst (fst (enhance_stages self w g query raw_response)))
  = savers self.
Proof.
  unfold enhance_stages.
  destruct (attr (personality_system self)) as [ps|]; [|reflexivity].
  destruct (PersonalitySystem.apply_personality_to_response ps raw_response g)
    as [[response|] g1]; [|reflexivity].
  destruct (_needs_common_sense_check query response); [|reflexivity].
  destruct (attr (common_sense self)) as [cs|]; [|reflexivity].
  now destruct (CommonSense.enhance_with_common_sense cs (now w) query response).
Qed.

Lemma enhance_ai_response_savers (self : t) (w : world) (g : Random.rng)
  (query raw_response : str) :
  savers (fst (fst (enhance_ai_response self w g query raw_response)))
  = savers self.
Proof.
  unfold enhance_ai_response.
  destruct (negb (emotion_detector self)); [reflexivity|].
  destruct (EmotionDetector.detect_emotion query) as [[emotion confidence]|];
    [|reflexivity].
  destruct (negb (Qle_bool confidence (85 # 100))).
  - destruct (EmotionDetector.get_empathetic_response emotion confidence g)
      as [[empathy|] g1]; cbn [bind]; [|reflexivity].
    pose proof (enhance_stages_savers self w g1 query
                  (empathy ++ lit " " ++ raw_response)) as H.
    destruct (enhance_stages self w g1 query _) as [[self1 g2] [r|]];
      exact H.
  - pose proof (enhance_stages_savers self w g query raw_response) as H.
    destruct (enhance_stages self w g query raw_response)
      as [[self1 g2] [r|]]; exact H.
Qed.

Lemma save_enhanced_memory_savers (a b : t) (query response : str) :
  savers a = savers b ->
  save_enhanced_memory a query response
  = save_enhanced_memory b query response.
Proof.
  unfold savers, save_enhanced_memory. intros H.
  injection H as -> -> ->. reflexivity.
Qed.

Lemma save_enhanced_memory_carries (self : t) (query response : str)
  (job : task) :
  In job (save_enhanced_memory self query response) ->
  job_query job = query /\ job_response job = response.
Proof.
  unfold save_enhanced_memory.
  destruct (executor_open self); [|intros []].
  destruct (context_memory self); [destruct (learning_system self)|];
    simpl; intros H;
    repeat (destruct H as [<- | H]; [now split|]); contradiction.
Qed.

Lemma finish_response_records (self : t) (w : world) (g : Random.rng)
  (query raw_response : str) :
  let o := finish_response self w g query raw_response in
  jobs_of o = save_enhanced_memory self query (reply o)
  /\ savers (instance_after o) = savers self
  /\ exists kept,
       conversation_context (instance_after o)
       = kept ++ [context_line (query, reply o)].
Proof.
  cbv zeta. unfold finish_response, jobs_of, reply, instance_after.
  pose proof (enhance_ai_response_savers self w g query raw_response) as H.
  destruct (enhance_ai_response self w g query raw_response)
    as [[self1 g1] response].
  cbn [fst snd] in *.
  split; [now apply save_enhanced_memory_savers|].
  split; [exact H|].
  unfold _update_conversation_context. fields.
  apply (push_newest 20 15). lia.
Qed.

Lemma handle_direct_response_records (self : t) (w : world) (g : Random.rng)
  (query : str) (cm : ContextMemory.t) :
  context_memory self = Some cm ->
  exists self' g' jobs response,
    _handle_direct_response self w g query = (self', g', jobs, Ok response)
    /\ jobs = save_enhanced_memory self query response
    /\ exists kept,
         conversation_context self' = kept ++ [context_line (query, response)].
Proof.
  intros Hcm. unfold _handle_direct_response. rewrite Hcm. cbn [attr].
  match goal with
  | |- context [get_ai_response self w ?p ?c] =>
      pose proof (get_ai_response_savers self w p c) as H1;
      destruct (get_ai_response self w p c) as [self1 raw]
  end.
  cbn [fst] in H1.
  destruct (finish_response_records self1 w g query raw) as [Hj [_ Hc]].
  unfold jobs_of, reply, instance_after in *.
  destruct (finish_response self1 w g query raw) as [[[self2 g2] jobs] r].
  cbn [fst snd] in *.
  exists self2, g2, jobs, r. split; [reflexivity|].
  split; [|exact Hc].
  rewrite Hj. now apply save_enhanced_memory_savers.
Qed.

Lemma handle_search_response_records (self : t) (w : world) (g : Random.rng)
  (query : str) (cm : ContextMemory.t) :
  context_memory self = Some cm ->
  exists self' g' jobs response,
    _handle_search_response self w g query = (self', g', jobs, Ok response)
    /\ jobs = save_enhanced_memory self query response
    /\ exists kept,
         conversation_context self' = kept ++ [context_line (query, response)].
Proof.
  intros Hcm. unfold _handle_search_response.
  destruct (enhance_query_with_location query) as [enhanced_query location_info].
  pose proof (search_web_savers self w enhanced_query) as H0.
  destruct (search_web self w enhanced_query) as [self0 search_results].
  cbn [fst] in H0.
  assert (Hcm0 : context_memory self0 = Some cm).
  { unfold savers in H0. injection H0 as _ -> _. exact Hcm. }
  match goal with
  | |- context [if ?b then _ else _] => destruct b
  end.
  - destruct (handle_direct_response_records self0 w g query cm Hcm0)
      as [self' [g' [jobs [response [E [Hj Hc]]]]]].
    exists self', g', jobs, response. split; [exact E|].
    split; [|exact Hc].
    rewrite Hj. now apply save_enhanced_memory_savers.
  - match goal with
    | |- context [get_ai_response self0 w ?p ?c] =>
        pose proof (get_ai_response_savers self0 w p c) as H1;
        destruct (get_ai_response self0 w p c) as [self1 raw]
    end.
    cbn [fst] in H1.
    destruct (finish_response_records self1 w g query raw) as [Hj [_ Hc]].
    unfold jobs_of, reply, instance_after in *.
    destruct (finish_response self1 w g query raw) as [[[self2 g2] jobs] r].
    cbn [fst snd] in *.
    exists self2, g2, jobs, r. split; [reflexivity|].
    split; [|exact Hc].
    rewrite Hj. apply save_enhanced_memory_savers. congruence.
Qed.

(** X19: With the context memory in place, a turn records exactly what it
    replied: the jobs handed to the worker pool are those
    [save_enhanced_memory] builds for the query and the reply returned to
    the caller (each job carries both), and the newest line of the rolling
    context is "Q: <query> A: <reply>".  This holds on the search path, on
    the direct path, and when a failed search falls back to the direct
    path. *)
Theorem turn_records_its_reply (self : t) (w : world) (g : Random.rng)
  (query : str) (cm : ContextMemory.t)
  (Hcm : context_memory self = Some cm) :
  let o := smart_response self w g query in
  jobs_of o = save_enhanced_memory self query (reply o)
  /\ (forall job, In job (jobs_of o) ->
        job_query job = query /\ job_response job = reply o)
  /\ exists kept,
       conversation_context (instance_after o)
       = kept ++ [context_line (query, reply o)].
Proof.
  cbv zeta.
  assert (H : exists self' g' jobs response,
             smart_response self w g query = (self', g', jobs, response)
             /\ jobs = save_enhanced_memory self query response
             /\ exists kept,
                  conversation_context self'
                  = kept ++ [context_line (query, response)]).
  { unfold smart_response. destruct (needs_search query).
    - destruct (handle_search_response_records self w g query cm Hcm)
        as [self' [g' [jobs [response [-> R]]]]].
      now exists self', g', jobs, response.
    - destruct (handle_direct_response_records self w g query cm Hcm)
        as [self' [g' [jobs [response [-> R]]]]].
      now exists self', g', jobs, response. }
  destruct H as [self' [g' [jobs [response [-> [Hj Hc]]]]]].
  unfold jobs_of, reply, instance_after. cbn [fst snd].
  split; [exact Hj|]. split; [|exact Hc].
  intros job Hin. rewrite Hj in Hin.
  now apply save_enhanced_memory_carries in Hin.
Qed.

Lemma turn_records_its_reply_witness :
  jobs_of (smart_response (fresh 0) (answering_world 1) steady
             (lit "tell me about the latest phones"))
  = save_enhanced_memory (fresh 0) (lit "tell me about the latest phones")
      (reply (smart_response (fresh 0) (answering_world 1) steady
                (lit "tell me about the latest phones"))).
Proof.
  exact (proj1 (turn_records_its_reply (fresh 0) (answering_world 1) steady
                  (lit "tell me about the latest phones")
                  (ContextMemory.init None) eq_refl)).
Defined.

End TurnRecordFacts.

(* ================================================================= *)
(** ** What is read out of the user's sentences *)

Module UserInfoFacts.

Import ContextMemory.

Lemma last_item_cons (A : Type) (x : A) (l : list A) :
  l <> [] -> last_item (x :: l) = last_item l.
Proof.
  intros H. unfold last_item. simpl.
  destruct (rev l) as [|y r] eqn:E; [|reflexivity].
  apply (f_equal (@rev A)) in E. rewrite rev_involutive in E. contradiction.
Qed.

Lemma contains_false_iff (s sub : str) :
  contains s sub = false
  <-> forall a b, s = a ++ b -> startswith b sub = false.
Proof.
  induction s as [|c s IH]; cbn [contains].
  - rewrite orb_false_r. split.
    + intros H a b E. symmetry in E. apply app_eq_nil in E as [_ ->]. exact H.
    + intros H. now apply (H [] []).
  - rewrite orb_false_iff, IH. split.
    + intros [H0 H] [|x a] b E.
      * simpl in E. now subst b.
      * injection E as _ E. now apply (H a b).
    + intros H. split.
      * now apply (H [] (c :: s)).
      * intros a b E. apply (H (c :: a) b). now rewrite E.
Qed.

(** The piece [split] is building never runs into a separator: no
    separator starts inside it. *)
Lemma split_on_from_last (sep : str) (skip : nat) (cur s tail : str) :
  sep <> [] ->
  (skip = 0 ->
   forall a b, rev cur = a ++ b -> b <> [] -> startswith (b ++ s) sep = false) ->
  (skip <> 0 -> cur = []) ->
  last_item (split_on_from sep skip cur s) = Ok tail ->
  contains tail sep = false.
Proof.
  intros Hsep. revert skip cur.
  induction s as [|c s IH]; intros skip cur Hinv Hcur; cbn [split_on_from].
  - unfold last_item. simpl. intros H. injection H as <-.
    apply contains_false_iff. intros a b E.
    destruct b as [|x b]; [now destruct sep|].
    destruct skip as [|k].
    + rewrite <- (app_nil_r (x :: b)). now apply (Hinv eq_refl a).
    + rewrite Hcur in E by discriminate. now destruct a.
  - destruct skip as [|k].
    + destruct (startswith (c :: s) sep) eqn:E.
      * rewrite last_item_cons
          by apply MemoryMoreFacts.split_on_from_nonempty.
        refine (IH _ _ _ _); [|reflexivity].
        intros _ a b Eab Hb. destruct a; destruct b; try discriminate.
        contradiction.
      * refine (IH _ _ _ _); [|congruence].
        intros _ a b Eab Hb. simpl in Eab.
        destruct (rev b) as [|y rb] eqn:Erb.
        { apply (f_equal (@rev ascii)) in Erb.
          rewrite rev_involutive in Erb. contradiction. }
        apply (f_equal (@rev ascii)) in Erb. rewrite rev_involutive in Erb.
        simpl in Erb. subst b.
        rewrite app_assoc in Eab. apply app_inj_tail in Eab as [Ecur <-].
        rewrite <- app_assoc. simpl.
        destruct (rev rb) as [|z b'] eqn:Eb'; [exact E|].
        apply (Hinv eq_refl a); [exact Ecur | discriminate].
    + refine (IH _ _ _ _).
      * intros _ a b Eab Hb. rewrite Hcur in Eab by discriminate.
        destruct a; destruct b; try discriminate. contradiction.
      * intros _. apply Hcur. discriminate.
Qed.

Lemma last_piece_has_no_separator (s sep tail : str) :
  sep <> [] -> last_item (split_on s sep) = Ok tail ->
  contains tail sep = false.
Proof.
  intros Hsep. unfold split_on. apply split_on_from_last; [exact Hsep| |congruence].
  intros _ a b E Hb. destruct a; destruct b; try discriminate. contradiction.
Qed.

(** The last piece is the whole text, or what follows a separator. *)
Lemma split_on_from_tail (sep : str) (skip : nat) (cur s tail : str) :
  sep <> [] ->
  last_item (split_on_from sep skip cur s) = Ok tail ->
  tail = rev cur ++ skipn skip s
  \/ exists mid, skipn skip s = mid ++ sep ++ tail.
Proof.
  intros Hsep. revert skip cur.
  induction s as [|c s IH]; intros skip cur; cbn [split_on_from].
  - unfold last_item. simpl. intros H. injection H as <-.
    left. rewrite skipn_nil. now rewrite app_nil_r.
  - destruct skip as [|k]; [|apply IH].
    destruct (startswith (c :: s) sep) eqn:E.
    + rewrite last_item_cons by apply MemoryMoreFacts.split_on_from_nonempty.
      intros H. right.
      apply startswith_iff in E as [rest E].
      destruct sep as [|x sep']; [contradiction|].
      injection E as <- ->.
      replace (length (c :: sep') - 1) with (length sep') in H
        by (simpl; lia).
      assert (S : skipn (length sep') (sep' ++ rest) = rest).
      { rewrite skipn_app, Nat.sub_diag, skipn_all. reflexivity. }
      destruct (IH _ _ H) as [-> | [mid Hmid]]; rewrite S in *.
      * now exists [].
      * exists ((c :: sep') ++ mid). cbn [skipn]. rewrite Hmid.
        now rewrite <- !app_assoc.
    + intros H. destruct (IH _ _ H) as [-> | [mid Hmid]].
      * left. cbn [rev skipn]. now rewrite <- app_assoc.
      * right. exists (c :: mid). cbn [skipn] in *. now rewrite Hmid.
Qed.

Lemma last_piece_follows_separator (s sep tail : str) :
  sep <> [] -> contains s sep = true ->
  last_item (split_on s sep) = Ok tail ->
  exists before, s = before ++ sep ++ tail.
Proof.
  intros Hsep Hin H.
  pose proof (last_piece_has_no_separator _ _ _ Hsep H) as Hno.
  destruct (split_on_from_tail sep 0 [] s tail Hsep H) as [-> | [mid Hmid]].
  - cbn [rev app skipn] in Hno. congruence.
  - now exists mid.
Qed.

(** When the first character of the separator does not come back in it,
    the separator before a tail that holds none is the last one in the
    text. *)
Lemma separator_before_free_tail_is_last (c : ascii) (rest : str)
  (before tail before' tail' : str) :
  ~ In c rest ->
  contains tail (c :: rest) = false ->
  before ++ (c :: rest) ++ tail = before' ++ (c :: rest) ++ tail' ->
  length tail <= length tail'.
Proof.
  intros Hc Hno E.
  destruct (Nat.le_gt_cases (length tail) (length tail')) as [|Hlt];
    [assumption|exfalso].
  apply app_eq_app in E as [d [[-> E] | [-> E]]].
  - (* the other separator starts at or before this one *)
    apply (f_equal (@length ascii)) in E.
    rewrite !length_app in E. lia.
  - (* the other separator starts after this one starts *)
    destruct d as [|x d].
    { cbn [app] in E. injection E as E. apply app_inv_head in E.
      subst. lia. }
    cbn [app] in E. injection E as <- E.
    apply app_eq_app in E as [e [[-> E] | [-> E]]].
    + (* it starts inside this separator *)
      destruct e as [|y e].
      * cbn [app] in E.
        assert (K : contains tail (c :: d ++ []) = true)
          by (apply contains_iff; exists [], tail'; now rewrite <- E).
        congruence.
      * cbn [app] in E. injection E as <- E.
        apply Hc. apply in_or_app. right. now left.
    + (* it starts in the tail *)
      assert (K : contains tail (c :: rest) = true)
        by (apply contains_iff; now exists e, tail').
      congruence.
Qed.

Lemma contains_trans (s k j : str) :
  contains s k = true -> contains k j = true -> contains s j = true.
Proof.
  rewrite !contains_iff. intros [a [b ->]] [a' [b' ->]].
  exists (a ++ a'), (b' ++ b). now rewrite <- !app_assoc.
Qed.

(** X20: When a sentence states where the user lives and the extraction
    does not raise, the location stored is the stripped text that follows
    the last "in" of the lowercased sentence (the last "from" when the
    sentence has no "in"): the sentence is some text, the separator and a
    tail, no other occurrence of the separator leaves a shorter tail, and
    the location is that tail without its surrounding white space.  So
    the location never holds the separator: a place whose name holds "in"
    is never stored whole. *)
Theorem stored_location_follows_last_separator
  (info info' : user_info_t) (user_input : str)
  (Hplace : contains (lower user_input) (lit "i live in")
            || contains (lower user_input) (lit "i am from") = true)
  (Hok : extract_user_info info user_input = Ok info') :
  let text := lower user_input in
  let sep := if contains text (lit "in") then lit "in" else lit "from" in
  exists before tail,
    text = before ++ sep ++ tail
    /\ (forall before' tail',
          text = before' ++ sep ++ tail' -> length tail <= length tail')
    /\ contains tail sep = false
    /\ location info' = Some (strip tail)
    /\ contains (strip tail) sep = false.
Proof.
  cbv zeta. unfold extract_user_info in Hok.
  set (text := lower user_input) in *.
  destruct (if contains text (lit "my name is")
            then
              tail <- last_item (split_on text (lit "my name is")) ;;
              nm <- first_item (split_ws (strip tail)) ;;
              Ok {| name := Some nm; location := location info;
                    age := age info; interests := interests info |}
            else Ok info) as [info1|]; [|discriminate].
  cbn [bind] in Hok. rewrite Hplace in Hok.
  set (sep := if contains text (lit "in") then lit "in" else lit "from") in *.
  destruct (last_item (split_on text sep)) as [tail|] eqn:Et; [|discriminate].
  cbn [bind] in Hok.
  assert (Hsep : exists c rest, sep = c :: rest /\ ~ In c rest).
  { subst sep. destruct (contains text (lit "in")).
    - exists "i"%char, (lit "n"). split; [reflexivity|].
      cbv. intros [H | []]. discriminate.
    - exists "f"%char, (lit "rom"). split; [reflexivity|].
      cbv. intros [H | [H | [H | []]]]; discriminate. }
  destruct Hsep as [c [rest [Esep Hc]]].
  assert (Hne : sep <> []) by (rewrite Esep; discriminate).
  assert (Hin : contains text sep = true).
  { subst sep. destruct (contains text (lit "in")) eqn:I; [exact I|].
    apply orb_true_iff in Hplace as [H | H].
    - rewrite (contains_trans _ _ (lit "in") H eq_refl) in I. discriminate.
    - exact (contains_trans _ _ (lit "from") H eq_refl). }
  pose proof (last_piece_has_no_separator _ _ _ Hne Et) as Hno.
  destruct (last_piece_follows_separator _ _ _ Hne Hin Et) as [before Eb].
  exists before, tail.
  split; [exact Eb|].
  split.
  { intros before' tail' E'. rewrite Esep in *.
    apply (separator_before_free_tail_is_last c rest before tail before' tail'
             Hc Hno).
    now rewrite <- Eb, <- E'. }
  split; [exact Hno|].
  split;
    [|rewrite contains_strip; [exact Hno|];
      subst sep; now destruct (contains text (lit "in"))].
  clear Et Eb Hin Hno.
  repeat match type of Hok with
    | context [if ?b then _ else _] => destruct b
    | context [match filter ?f ?l with _ => _ end] => destruct (filter f l)
    | context [match int ?w with _ => _ end] => destruct (int w)
    | context [last_item (split_on ?s ?k)] =>
        destruct (MemoryMoreFacts.last_item_split_on s k) as [piece Ep];
        rewrite Ep in Hok
    | _ => progress cbn [bind] in Hok
    end;
    injection Hok as <-; reflexivity.
Qed.

Lemma stored_location_follows_last_separator_witness :
  extract_user_info empty_user_info (lit "I live in Rome, near the Indus")
  = Ok {| name := None; location := Some (lit "dus"); age := None;
          interests := None |}
  /\ exists before tail,
       lower (lit "I live in Rome, near the Indus")
       = before ++ lit "in" ++ tail
       /\ (forall before' tail',
             lower (lit "I live in Rome, near the Indus")
             = before' ++ lit "in" ++ tail' ->
             length tail <= length tail')
       /\ contains tail (lit "in") = false
       /\ Some (lit "dus") = Some (strip tail)
       /\ contains (strip tail) (lit "in") = false.
Proof.
  split; [reflexivity|].
  exact (stored_location_follows_last_separator empty_user_info
           {| name := None; location := Some (lit "dus"); age := None;
              interests := None |}
           (lit "I live in Rome, near the Indus") eq_refl eq_refl).
Defined.

End UserInfoFacts.

(* ================================================================= *)
(** ** Searching the long-term memory *)

Module SearchMemoryFacts.

Import ContextMemory.
Import Views.
Import Histories.
Import BufferFacts.

Lemma last_n_keeps_short_tail (A : Type) (n : nat) (a b : list A) :
  length b <= n -> suffix_of b (last_n n (a ++ b)).
Proof.
  intros H. unfold last_n. rewrite length_app, skipn_app.
  replace (length a + length b - n - length a) with 0 by lia.
  now exists (skipn (length a + length b - n) a).
Qed.

Lemma contains_empty (s : str) : contains s [] = true.
Proof. apply contains_iff. now exists [], s. Qed.

(** X21: [search_memory] returns at most 5 stored conversations, each of which
    mentions the query in the input or in the reply, letter case apart.
    The newest matches win: a matching conversation followed by fewer than
    5 other matches is always returned.  The empty query matches
    everything, so it returns the last 5 conversations stored. *)
Theorem search_memory_returns_newest_matches (self : t) (query : str) :
  let stored := conversations (long_term_memory self) in
  let results := search_memory self query in
  length results <= 5
  /\ (forall conv, In conv results ->
        In conv stored /\ mentions query conv = true)
  /\ (forall before conv after,
        stored = before ++ conv :: after ->
        mentions query conv = true ->
        length (filter (mentions query) after) < 5 ->
        In conv results)
  /\ (forall other, lower other = lower query ->
        search_memory self other = results)
  /\ search_memory self [] = last_n 5 stored.
Proof.
  cbv zeta. unfold search_memory.
  fold (mentions query).
  set (stored := conversations (long_term_memory self)).
  split; [rewrite last_n_length; lia|].
  split; [|split; [|split]].
  - intros conv H.
    destruct (last_n_suffix _ 5 (filter (mentions query) stored))
      as [dropped E].
    apply filter_In. rewrite E. apply in_or_app. now right.
  - intros before conv after E M L. rewrite E, filter_app.
    cbn [filter]. rewrite M.
    destruct (last_n_keeps_short_tail _ 5 (filter (mentions query) before)
                (conv :: filter (mentions query) after)) as [kept ->];
      [simpl; lia|].
    apply in_or_app. right. now left.
  - intros other E. unfold mentions. now rewrite E.
  - f_equal. apply forallb_filter_id. apply forallb_forall.
    intros conv _. cbn [lower map]. now rewrite contains_empty.
Qed.

End SearchMemoryFacts.

(* ================================================================= *)
(** ** Topic counters *)

Module TopicFacts.

Import ContextMemory.
Import Views.

Section Rows.

Variable text : str.

Lemma step_other (counts : list (str * Z)) (entry : str * list str)
  (key : str) :
  key <> fst entry ->
  dict_get (count_topic text counts entry) key = dict_get counts key.
Proof.
  destruct entry as [topic keywords]. cbn [fst count_topic]. intros N.
  destruct (contains_any text keywords); [|reflexivity].
  now apply dict_get_set_other.
Qed.

Lemma fold_step_other (table : list (str * list str))
  (counts : list (str * Z)) (key : str) :
  ~ In key (map fst table) ->
  dict_get (fold_left (count_topic text) table counts) key
  = dict_get counts key.
Proof.
  revert counts; induction table as [|entry table IH]; intros counts H;
    [reflexivity|].
  cbn [fold_left]. rewrite IH by (intros K; apply H; now right).
  apply step_other. intros K. apply H. now left.
Qed.

Lemma fold_step_row (table : list (str * list str))
  (counts : list (str * Z)) (topic : str) (keywords : list str) :
  NoDup (map fst table) -> In (topic, keywords) table ->
  dict_get (fold_left (count_topic text) table counts) topic
  = if contains_any text keywords
    then Some (match dict_get counts topic with Some n => n | None => 0%Z end
               + 1)%Z
    else dict_get counts topic.
Proof.
  revert counts; induction table as [|entry table IH]; intros counts D H;
    [contradiction|].
  cbn [map] in D. apply NoDup_cons_iff in D as [Hfresh D].
  cbn [fold_left]. destruct H as [-> | H].
  - rewrite fold_step_other by exact Hfresh. cbn [count_topic].
    destruct (contains_any text keywords); [|reflexivity].
    apply dict_get_set_same.
  - assert (N : topic <> fst entry).
    { intros ->. apply Hfresh.
      change (fst entry) with (fst (fst entry, keywords)). now apply in_map. }
    rewrite (IH _ D H). now rewrite (step_other counts entry topic N).
Qed.

End Rows.

Lemma topic_table_keys :
  NoDup (map fst topic_table).
Proof.
  unfold topic_table. cbn [map fst].
  repeat (apply NoDup_cons;
          [intros H; cbn [In] in H;
           repeat (destruct H as [H | H]; [cbv in H; discriminate H|]);
           exact H|]).
  apply NoDup_nil.
Qed.

(** X22: A topic is counted once per input however many of its keywords
    occur: the counter of a topic of the table goes up by one when the
    lowercased input holds one of its keywords (a topic not yet counted
    starts at 1) and is left alone otherwise; no other counter changes. *)
Theorem topics_are_counted_once_per_input (counts : list (str * Z))
  (user_input : str) :
  (forall topic keywords, In (topic, keywords) topic_table ->
     dict_get (extract_topics counts user_input) topic
     = if contains_any (lower user_input) keywords
       then Some (match dict_get counts topic with
                  | Some n => n
                  | None => 0%Z
                  end + 1)%Z
       else dict_get counts topic)
  /\ (forall key, ~ In key (map fst topic_table) ->
        dict_get (extract_topics counts user_input) key
        = dict_get counts key).
Proof.
  unfold extract_topics. split.
  - intros topic keywords H.
    exact (fold_step_row (lower user_input) topic_table counts topic keywords
             topic_table_keys H).
  - intros key H.
    exact (fold_step_other (lower user_input) topic_table counts key H).
Qed.

End TopicFacts.
